(** * AIOS Pro: license commands and feature gating

    Shallow embedding of [.aios-core/cli/commands/pro/index.js] (the
    [aios pro] command actions) and of the [FeatureGate] class given in
    ADR-PRO-003 ([pro/license/feature-gate.js]).

    Conventions of the embedding:
    - JavaScript strings are [string]; timestamps ([Date.getTime()], ISO
      strings) are [Z] milliseconds since the epoch;
    - an object property that the code tests for presence is an [option];
    - the process is a state-passing computation over a [World] (the sealed
      cache file, the pending-deactivation slot, the [featureGate]
      singleton) that also records the calls it makes as a list of
      [Event]s and finishes by returning or by [process.exit];
    - the network, the clock, the prompt and the outcome of a file write
      are read from an [Env];
    - an exception is a case at the point where it is thrown, followed
      there by the handler of the enclosing [catch]. *)

From Stdlib Require Import ZArith List String Ascii Bool Lia Sorted.
Import ListNotations.

Local Open Scope string_scope.
Local Open Scope Z_scope.

(** ** JavaScript primitives used by the sources *)

Module JS.

(** [s.startsWith(p)] *)
Definition startsWith (s p : string) : bool := String.prefix p s.

(** [s.endsWith(suf)]: the last [suf.length] code units of [s] are [suf]. *)
Definition endsWith (s suf : string) : bool :=
  let n := String.length s in
  let m := String.length suf in
  (m <=? n)%nat && String.eqb (String.substring (n - m) m s) suf.

(** [s.slice(0, -1)]: everything but the last code unit. *)
Definition slice_0_m1 (s : string) : string :=
  String.substring 0 (String.length s - 1) s.

(** [x || d] on an optional number: [undefined] and [0] are falsy. *)
Definition num_or (x : option Z) (d : Z) : Z :=
  match x with
  | Some v => if v =? 0 then d else v
  | None => d
  end.

(** [x || []] on an optional array. *)
Definition arr_or {A} (x : option (list A)) : list A :=
  match x with Some l => l | None => [] end.

(** [Math.ceil(a / b)] for a positive divisor, on exact integers. *)
Definition ceil_div (a b : Z) : Z := - ((- a) / b).

(** [new Set(arr)]: insertion order, first occurrence kept. *)
Fixpoint new_Set (seen arr : list string) : list string :=
  match arr with
  | [] => []
  | x :: rest =>
      if existsb (String.eqb x) seen then new_Set seen rest
      else x :: new_Set (x :: seen) rest
  end.

(** [set.has(x)] *)
Definition has (set : list string) (x : string) : bool :=
  existsb (String.eqb x) set.

(** The time values a [Date] can hold: at most 8.64e15 ms from the epoch.
    [new Date(x)] of anything else is an Invalid Date, whose [getTime()] is
    [NaN]. *)
Definition MAX_TIME : Z := 8640000000000000.

Definition valid_time (t : Z) : bool := (- MAX_TIME <=? t) && (t <=? MAX_TIME).

(** [Number.MAX_SAFE_INTEGER]: up to it the integer arithmetic of doubles
    is exact. *)
Definition MAX_SAFE_INTEGER : Z := 2 ^ 53 - 1.

(** The message of the [TypeError] thrown by [x.property] when [x] is
    [undefined] (V8's wording). *)
Definition TypeError_undefined (property : string) : string :=
  "Cannot read properties of undefined (reading '" ++ property ++ "')".

End JS.

(** ** Data model *)

Record Seats := mkSeats { used : Z; max : Z }.

(** The cached license record ([cacheData] / [updatedCache]). *)
Record LicenseRecord := mkLicenseRecord {
  key : string;
  activatedAt : option Z;
  expiresAt : option Z;
  features : option (list string);
  seats : option Seats;
  cacheValidDays : option Z;
  gracePeriodDays : option Z;
  lastValidated : option Z
}.

(** [class FeatureGate]: [this._cache] and [this._features]. *)
Record FeatureGate := mkFeatureGate {
  _cache : option LicenseRecord;
  _features : list string
}.

(** [constructor()] *)
Definition new_FeatureGate : FeatureGate :=
  {| _cache := None; _features := JS.new_Set [] [] |}.

(** [_matchWildcard(featureId)]: the loop over [this._features]. *)
Fixpoint _matchWildcard (fs : list string) (featureId : string) : bool :=
  match fs with
  | [] => false
  | f :: rest =>
      if JS.endsWith f ".*" then
        let prefix := JS.slice_0_m1 f in
        if JS.startsWith featureId prefix then true
        else _matchWildcard rest featureId
      else _matchWildcard rest featureId
  end.

(** The return expression of [isAvailable], on a loaded feature set. *)
Definition decide (fs : list string) (featureId : string) : bool :=
  JS.has fs featureId || _matchWildcard fs featureId.

(** ** The world the commands act on *)

(** The sealed cache file: absent, present but unreadable (tampered or
    sealed on another machine), or holding a record. *)
Inductive CacheFile :=
| NoFile
| CorruptFile
| Sealed (r : LicenseRecord).

(** The pending-deactivation slot: at most one key, with a timestamp. *)
Record Pending := mkPending { pendingKey : string; pendingSince : Z }.

Record World := mkWorld {
  cacheFile : CacheFile;
  pendingFile : option Pending;
  featureGate : FeatureGate
}.

Definition with_cacheFile (w : World) (c : CacheFile) : World :=
  {| cacheFile := c; pendingFile := pendingFile w; featureGate := featureGate w |}.

Definition with_pendingFile (w : World) (p : option Pending) : World :=
  {| cacheFile := cacheFile w; pendingFile := p; featureGate := featureGate w |}.

Definition with_featureGate (w : World) (g : FeatureGate) : World :=
  {| cacheFile := cacheFile w; pendingFile := pendingFile w; featureGate := g |}.

(** ** Replies of the license authority *)

(** What a rejected promise carries: [LicenseActivationError] has a code,
    any other error only a message. *)
Inductive ApiError :=
| LicenseActivationError (code message : string)
| OtherError (message : string).

Inductive Reply (A : Type) :=
| Resolved (a : A)
| Rejected (e : ApiError).
Arguments Resolved {A} a.
Arguments Rejected {A} e.

(** The payload of [licenseApi.activate]: an object received from the
    authority. [features] and [seats], which the success report
    dereferences, may be missing; [key] is a string. A promise that
    resolves with something that is not an object makes [result.key] throw
    and is, for the commands, a rejection with that error. *)
Record ActivateResult := mkActivateResult {
  res_key : string;
  res_activatedAt : option Z;
  res_expiresAt : option Z;
  res_features : option (list string);
  res_seats : option Seats;
  res_cacheValidDays : option Z;
  res_gracePeriodDays : option Z
}.

(** The payload of [licenseApi.validate], likewise; a missing [valid] is
    falsy. *)
Record ValidateResult := mkValidateResult {
  valid : bool;
  val_features : option (list string);
  val_seats : option Seats;
  val_expiresAt : option Z;
  val_cacheValidDays : option Z;
  val_gracePeriodDays : option Z
}.

(** What one run of a command finds around it. *)
Record Env := mkEnv {
  now : Z;                                  (* Date.now(), new Date() *)
  machineId : string;                       (* generateMachineId() *)
  aiosCoreVersion : string;                 (* getAiosCoreVersion() *)
  activate_reply : string -> string -> string -> Reply ActivateResult;
  validate_reply : string -> string -> Reply ValidateResult;
  isOnline_reply : Reply bool;
  deactivate_reply : string -> string -> Reply unit;
  write_error : option string;              (* I/O error of a cache write *)
  confirm_reply : bool                      (* answer to the y/N prompt *)
}.

(** ** Console output, by message block *)

Inductive Message :=
| MsgKeyRequired                 (* Error: License key is required + usage *)
| MsgInvalidKeyFormat            (* Error: Invalid license key format + expected format *)
| MsgActivating (masked : string)
| MsgCacheNotSaved (error : string)
| MsgActivated (result : ActivateResult)
| MsgActivatedPartial (result : ActivateResult)
                                 (* the same report, up to the line that throws *)
| MsgActivationFailed (e : ApiError)
| MsgNoLicenseActivated          (* No license is currently activated. *)
| MsgDeactivationPrompt (masked : string)
| MsgDeactivationCancelled
| MsgDeactivating
| MsgDeactivatedOnline           (* License deactivated successfully. Seat has been freed ... *)
| MsgServerUnreachable (e : ApiError)
| MsgOfflineDeactivation
| MsgDataPreserved
| MsgDeactivationError (e : ApiError)
| MsgValidating
| MsgKey (masked : string)
| MsgValidationRefused           (* License validation failed. The license may have been revoked ... *)
| MsgCacheNotUpdated (error : string)
| MsgValidated (result : ValidateResult)
| MsgValidatedPartial (result : ValidateResult)
                                 (* the same report, up to the line that throws *)
| MsgValidationFailed (e : ApiError)
| MsgGraceWarning                (* [AIOS Pro] License cache expired. Grace period active. *)
| MsgStatusHeader                (* AIOS Pro License Status *)
| MsgStatusState (state : string)
| MsgStatusNoLicense             (* No license activated. Activate: ... Purchase: ... *)
| MsgStatusFeatures (fs : list string)
| MsgStatusSeats (s : Seats)
| MsgCacheValidUntil (expiryDate daysRemaining : Z)
| MsgCacheExpired (expiryDate : Z)
| MsgCacheExpiredInvalidDate     (* Cache: Expired Invalid Date *)
| MsgGracePeriodActive (gracePeriodDays : Z)
| MsgPendingOfflineDeactivation
| MsgNextValidation (background : bool)
| MsgModuleNotAvailable.         (* AIOS Pro license module not available. Install ... *)

(** ** Calls a run makes, in order *)

Inductive Event :=
| Print (m : Message)
| ReadCache
| WriteCache (r : LicenseRecord) (success : bool)
| DeleteCache
| SetPending (k : string)
| ClearPending
| Reload
| Confirm
| ApiActivate (k mid version : string)
| ApiValidate (k mid : string)
| ApiIsOnline
| ApiDeactivate (k mid : string).

Definition is_authority_call (e : Event) : bool :=
  match e with
  | ApiActivate _ _ _ | ApiValidate _ _ | ApiIsOnline | ApiDeactivate _ _ => true
  | _ => false
  end.

Definition is_cache_write (e : Event) : bool :=
  match e with WriteCache _ _ => true | _ => false end.

Definition is_cache_mutation (e : Event) : bool :=
  match e with WriteCache _ true | DeleteCache => true | _ => false end.

Definition is_print (e : Event) : bool :=
  match e with Print _ => true | _ => false end.

(** ** The run monad: environment, world, trace, and [process.exit] *)

Inductive Outcome (A : Type) :=
| Returned (a : A)
| Exited (code : Z).
Arguments Returned {A} a.
Arguments Exited {A} code.

Definition Run (A : Type) : Type := Env -> World -> Outcome A * World * list Event.

Definition ret {A} (a : A) : Run A := fun _ w => (Returned a, w, []).

Definition bind {A B} (c : Run A) (k : A -> Run B) : Run B :=
  fun env w =>
    match c env w with
    | (Returned a, w1, t1) =>
        match k a env w1 with
        | (o, w2, t2) => (o, w2, (t1 ++ t2)%list)
        end
    | (Exited code, w1, t1) => (Exited code, w1, t1)
    end.

Notation "x <- c ;; k" := (bind c (fun x => k))
  (at level 61, c at next level, right associativity).
Notation "c ;; k" := (bind c (fun _ => k))
  (at level 61, right associativity).

Definition outcome {A} (r : Outcome A * World * list Event) : Outcome A := fst (fst r).
Definition world_after {A} (r : Outcome A * World * list Event) : World := snd (fst r).
Definition trace {A} (r : Outcome A * World * list Event) : list Event := snd r.

(** [process.exit(code)] *)
Definition process_exit {A} (code : Z) : Run A := fun _ w => (Exited code, w, []).

Definition emit (e : Event) : Run unit := fun _ w => (Returned tt, w, [e]).
Definition console (m : Message) : Run unit := emit (Print m).
Definition ask {A} (f : Env -> A) : Run A := fun env w => (Returned (f env), w, []).
Definition get_world : Run World := fun _ w => (Returned w, w, []).
Definition put_world (w : World) : Run unit := fun _ _ => (Returned tt, w, []).

Definition generateMachineId : Run string := ask machineId.
Definition getAiosCoreVersion : Run string := ask aiosCoreVersion.
Definition Date_now : Run Z := ask now.

(** [confirm(question)] *)
Definition confirm : Run bool := emit Confirm ;; ask confirm_reply.

(** ** [pro/license/license-cache.js] and [license-api.js] *)

Record WriteResult := mkWriteResult { success : bool; error : string }.

Record PendingStatus := mkPendingStatus { pending : bool; pending_key : option string }.

(** What [readLicenseCache] can recover from the file. *)
Definition readable (c : CacheFile) : option LicenseRecord :=
  match c with Sealed r => Some r | _ => None end.

(** Modelled from the spec: [readLicenseCache] is not in the sources.
    "returns null (not an error) when no cache exists; on
    IntegrityError/KeyMismatchError from CryptoBox, treats the cache as
    absent (null) after first attempting a best-effort quarantine/delete of
    the corrupt file". *)
Definition readLicenseCache : Run (option LicenseRecord) :=
  fun _ w =>
    match cacheFile w with
    | NoFile => (Returned None, w, [ReadCache])
    | CorruptFile => (Returned None, with_cacheFile w NoFile, [ReadCache])
    | Sealed r => (Returned (Some r), w, [ReadCache])
    end.

(** Modelled from the spec: [writeLicenseCache] is not in the sources.
    "serializes, seals via CryptoBox, writes atomically ...; returns failure
    with a human-actionable message on I/O error but never raises past the
    caller". *)
Definition writeLicenseCache (r : LicenseRecord) : Run WriteResult :=
  fun env w =>
    match write_error env with
    | None => (Returned (mkWriteResult true EmptyString), with_cacheFile w (Sealed r),
               [WriteCache r true])
    | Some msg => (Returned (mkWriteResult false msg), w, [WriteCache r false])
    end.

(** Modelled from the spec: [deleteLicenseCache] is not in the sources.
    "removes the cache file; idempotent (no error if already absent)". *)
Definition deleteLicenseCache : Run unit :=
  fun _ w => (Returned tt, with_cacheFile w NoFile, [DeleteCache]).

(** Modelled from the spec: [setPendingDeactivation] is not in the sources.
    "setPending(key)"; the tracker "holds at most one pending key (the key
    being deactivated) plus a timestamp", in a slot of its own. *)
Definition setPendingDeactivation (k : string) : Run unit :=
  fun env w =>
    (Returned tt, with_pendingFile w (Some (mkPending k (now env))), [SetPending k]).

(** Modelled from the spec: [hasPendingDeactivation] is not in the sources.
    "hasPending() -> {pending: bool, key?}". *)
Definition hasPendingDeactivation : Run PendingStatus :=
  fun _ w =>
    (Returned (match pendingFile w with
               | Some p => mkPendingStatus true (Some (pendingKey p))
               | None => mkPendingStatus false None
               end), w, []).

(** Modelled from the spec: [clearPendingDeactivation] is not in the
    sources. "clearPending()": the slot is emptied. *)
Definition clearPendingDeactivation : Run unit :=
  fun _ w => (Returned tt, with_pendingFile w None, [ClearPending]).

(** [licenseApi] is not in the sources. The specification has it as a
    "pure protocol client, no local state"; each operation is one round trip
    whose reply (or rejection) comes from the authority. *)
Module licenseApi.

(** Modelled from the spec: "activate(key, machineId, hostVersion) ->
    LicenseRecord -- fails with ActivationError{code, details} on
    rejection". *)
Definition activate (k mid version : string) : Run (Reply ActivateResult) :=
  emit (ApiActivate k mid version) ;;
  ask (fun env => activate_reply env k mid version).

(** Modelled from the spec: "validate(key, machineId) -> {valid: bool,
    ...LicenseRecord fields} -- a valid:false response is not an
    exception". *)
Definition validate (k mid : string) : Run (Reply ValidateResult) :=
  emit (ApiValidate k mid) ;;
  ask (fun env => validate_reply env k mid).

(** Modelled from the spec: "isOnline() -> bool -- a best-effort,
    low-latency reachability probe"; awaited inside a [try], so a rejection
    is allowed for. *)
Definition isOnline : Run (Reply bool) :=
  emit ApiIsOnline ;; ask isOnline_reply.

(** Modelled from the spec: "deactivate(key, machineId) -> void -- fails
    with an error when the authority is unreachable or rejects the
    request". *)
Definition deactivate (k mid : string) : Run (Reply unit) :=
  emit (ApiDeactivate k mid) ;;
  ask (fun env => deactivate_reply env k mid).

End licenseApi.

(** ** License states *)

Inductive LicenseState := NotActivated | Active | Grace | Expired.

Definition state_name (s : LicenseState) : string :=
  match s with
  | NotActivated => "Not Activated"
  | Active => "Active"
  | Grace => "Grace"
  | Expired => "Expired"
  end.

Record LicenseInfo := mkLicenseInfo {
  info_features : option (list string);
  inGrace : bool
}.

(** ** The feature gate and the command actions

    The helpers below live in [pro/license/] and are not in the sources;
    the code that calls them is embedded over any implementation of this
    interface. *)

Class LicenseModules := {
  (** [license-crypto.js] *)
  validateKeyFormat : string -> bool;
  maskKey : string -> string;
  (** [license-cache.js]; the clock they read is their second argument. *)
  isExpired : LicenseRecord -> Z -> bool;
  isInGracePeriod : LicenseRecord -> Z -> bool;
  (** [featureGate.getLicenseInfo()] *)
  getLicenseInfo : World -> Z -> option LicenseInfo
}.

Section Pro.

Context `{LicenseModules}.

(** *** [class FeatureGate] *)

Definition set_gate (g : FeatureGate) : Run unit :=
  fun _ w => (Returned tt, with_featureGate w g, []).

(** [_loadCache()] *)
Definition _loadCache : Run unit :=
  cache <- readLicenseCache ;;
  t <- Date_now ;;
  match cache with
  | Some c =>
      if negb (isExpired c t) then
        set_gate {| _cache := Some c;
                    _features := JS.new_Set [] (JS.arr_or (features c)) |}
      else if isInGracePeriod c t then
        set_gate {| _cache := Some c;
                    _features := JS.new_Set [] (JS.arr_or (features c)) |} ;;
        console MsgGraceWarning
      else
        set_gate {| _cache := None; _features := JS.new_Set [] [] |}
  | None =>
      set_gate {| _cache := None; _features := JS.new_Set [] [] |}
  end.

(** [isAvailable(featureId)] *)
Definition isAvailable (featureId : string) : Run bool :=
  w <- get_world ;;
  match _cache (featureGate w) with
  | None => _loadCache
  | Some _ => ret tt
  end ;;
  w' <- get_world ;;
  ret (decide (_features (featureGate w')) featureId).

(** Modelled from the spec: [reload] is called by the commands but is not
    in the sources. "forces the next decision to recompute from persistent
    storage rather than any in-memory snapshot". *)
Definition reload : Run unit :=
  emit Reload ;;
  set_gate {| _cache := None; _features := JS.new_Set [] [] |}.

(** Modelled from the spec: the transition function of section 4.5,
    evaluated from the cache contents and the clock. "no cache =>
    NotActivated; cache present, not expired => Active; expired but within
    grace => Grace; expired and past grace => Expired". *)
Definition licenseState (cache : option LicenseRecord) (t : Z) : LicenseState :=
  match cache with
  | None => NotActivated
  | Some c =>
      if negb (isExpired c t) then Active
      else if isInGracePeriod c t then Grace
      else Expired
  end.

(** Modelled from the spec: [getLicenseState] is called by [statusAction]
    but is not in the sources. "state is always recomputed from the cache
    and wall-clock time". How the gate gets at the cache (a snapshot of its
    own, a load of the file) is not in the sources either: here it looks at
    the file as it is, without a call of its own. *)
Definition getLicenseState : Run LicenseState :=
  w <- get_world ;;
  t <- Date_now ;;
  ret (licenseState (readable (cacheFile w)) t).

(** [cacheData] of [activateAction]: the fields copied from the
    reply; there is no [lastValidated] among them. *)
Definition cacheData (result : ActivateResult) : LicenseRecord :=
  {| key := res_key result;
     activatedAt := res_activatedAt result;
     expiresAt := res_expiresAt result;
     features := res_features result;
     seats := res_seats result;
     cacheValidDays := res_cacheValidDays result;
     gracePeriodDays := res_gracePeriodDays result;
     lastValidated := None |}.

(** [updatedCache] of [validateAction]: [{...cache, ...}] with the
    refreshed fields and [lastValidated: new Date().toISOString()]. *)
Definition updatedCache (cache : LicenseRecord) (result : ValidateResult)
    (t : Z) : LicenseRecord :=
  {| key := key cache;
     activatedAt := activatedAt cache;
     features := val_features result;
     seats := val_seats result;
     expiresAt := val_expiresAt result;
     cacheValidDays := val_cacheValidDays result;
     gracePeriodDays := val_gracePeriodDays result;
     lastValidated := Some t |}.

(** The [TypeError] that printing a success report throws, if any: the
    report evaluates [result.features.join(', ')] first and
    [result.seats.used] after it. *)
Definition report_throws (features : option (list string)) (seats : option Seats)
    : option string :=
  match features, seats with
  | None, _ => Some (JS.TypeError_undefined "join")
  | Some _, None => Some (JS.TypeError_undefined "used")
  | Some _, Some _ => None
  end.

(** The success report of [activateAction]; when it throws, what was
    printed so far stays printed and the [catch] of the action takes over:
    the error is not a [LicenseActivationError]. *)
Definition activationReport (result : ActivateResult) : Run unit :=
  match report_throws (res_features result) (res_seats result) with
  | None => console (MsgActivated result)
  | Some message =>
      console (MsgActivatedPartial result) ;;
      console (MsgActivationFailed (OtherError message)) ;;
      process_exit 1
  end.

(** The success report of [validateAction], likewise. *)
Definition validationReport (result : ValidateResult) : Run unit :=
  match report_throws (val_features result) (val_seats result) with
  | None => console (MsgValidated result)
  | Some message =>
      console (MsgValidatedPartial result) ;;
      console (MsgValidationFailed (OtherError message)) ;;
      process_exit 1
  end.

(** *** [activateAction(options)]; [k] is [options.key]

    The [try] block runs from [generateMachineId()] to the end of the
    success report; its [catch] prints the failure and exits with 1. It is
    entered here by a rejected request and by a report that throws. *)
Definition activateAction (k : option string) : Run unit :=
  match k with
  | None => console MsgKeyRequired ;; process_exit 1
  | Some key =>
      if String.eqb key EmptyString then
        console MsgKeyRequired ;; process_exit 1
      else if negb (validateKeyFormat key) then
        console MsgInvalidKeyFormat ;; process_exit 1
      else
        console (MsgActivating (maskKey key)) ;;
        machineId <- generateMachineId ;;
        aiosCoreVersion <- getAiosCoreVersion ;;
        reply <- licenseApi.activate key machineId aiosCoreVersion ;;
        match reply with
        | Rejected e => console (MsgActivationFailed e) ;; process_exit 1
        | Resolved result =>
            writeResult <- writeLicenseCache (cacheData result) ;;
            (if negb (success writeResult)
             then console (MsgCacheNotSaved (error writeResult))
             else ret tt) ;;
            reload ;;
            activationReport result
        end
  end.

(** *** [statusAction()]

    [cache.activatedAt], when truthy, goes through [new Date]: a value
    that gives no valid date (unparseable, or out of the range of [Date])
    is a time value outside [JS.valid_time]. The days remaining are
    computed on doubles in the source; on integers this is exact while the
    difference taken is a safe integer, which the properties of this line
    assume. *)
Definition DAY_MS : Z := 24 * 60 * 60 * 1000.

(** [featureGate.getLicenseInfo()] as a call. *)
Definition licenseInfo : Run (option LicenseInfo) :=
  w <- get_world ;;
  t <- Date_now ;;
  ret (getLicenseInfo w t).

(** The body of [statusAction], over the two methods of the gate it calls:
    [featureGate.getLicenseState()] and [featureGate.getLicenseInfo()]. *)
Definition statusAction_with
    (getLicenseState : Run LicenseState)
    (getLicenseInfo : Run (option LicenseInfo)) : Run unit :=
  console MsgStatusHeader ;;
  cache <- readLicenseCache ;;
  state <- getLicenseState ;;
  info <- getLicenseInfo ;;
  t <- Date_now ;;
  console (MsgStatusState (state_name state)) ;;
  match cache with
  | None => console MsgStatusNoLicense
  | Some cache =>
      console (MsgKey (maskKey (key cache))) ;;
      match info with
      | Some i =>
          match info_features i with
          | Some fs => console (MsgStatusFeatures fs)
          | None => ret tt
          end
      | None => ret tt
      end ;;
      match seats cache with
      | Some s => console (MsgStatusSeats s)
      | None => ret tt
      end ;;
      match activatedAt cache with
      | Some activatedDate =>
          let cacheValidDays := JS.num_or (cacheValidDays cache) 30 in
          let expiryDate := activatedDate + cacheValidDays * 24 * 60 * 60 * 1000 in
          if JS.valid_time activatedDate && JS.valid_time expiryDate then
            let daysRemaining := JS.ceil_div (expiryDate - t) DAY_MS in
            if daysRemaining >? 0
            then console (MsgCacheValidUntil expiryDate daysRemaining)
            else console (MsgCacheExpired expiryDate)
          else
            (* [NaN > 0] is false; [formatDate] of an Invalid Date *)
            console MsgCacheExpiredInvalidDate
      | None => ret tt
      end ;;
      match info with
      | Some i =>
          if inGrace i
          then console (MsgGracePeriodActive (JS.num_or (gracePeriodDays cache) 7))
          else ret tt
      | None => ret tt
      end ;;
      p <- hasPendingDeactivation ;;
      (if pending p then console MsgPendingOfflineDeactivation else ret tt) ;;
      console (MsgNextValidation
                 (match state with Active => true | _ => false end))
  end.

Definition statusAction : Run unit :=
  statusAction_with getLicenseState licenseInfo.

(** *** [deactivateAction(options)]; [force] is [options.force]

    The outer [try] is left here by a rejected probe. [generateMachineId]
    and the helpers of [license-cache.js] are as the specification has
    them, without exceptions of their own. *)
Definition deactivateAction (force : bool) : Run unit :=
  cache <- readLicenseCache ;;
  match cache with
  | None => console MsgNoLicenseActivated
  | Some cache =>
      proceed <-
        (if negb force then
           console (MsgDeactivationPrompt (maskKey (key cache))) ;;
           confirmed <- confirm ;;
           if negb confirmed
           then console MsgDeactivationCancelled ;; ret false
           else ret true
         else ret true) ;;
      if negb proceed then ret tt
      else
        console MsgDeactivating ;;
        machineId <- generateMachineId ;;
        probe <- licenseApi.isOnline ;;
        match probe with
        | Rejected e => console (MsgDeactivationError e) ;; process_exit 1
        | Resolved isOnline =>
            (if isOnline then
               r <- licenseApi.deactivate (key cache) machineId ;;
               match r with
               | Resolved _ => console MsgDeactivatedOnline
               | Rejected e =>
                   console (MsgServerUnreachable e) ;;
                   setPendingDeactivation (key cache)
               end
             else
               console MsgOfflineDeactivation ;;
               setPendingDeactivation (key cache)) ;;
            deleteLicenseCache ;;
            reload ;;
            console MsgDataPreserved
        end
  end.

(** *** [validateAction()]

    As in [activateAction], the [catch] is entered by a rejected request
    and by a report that throws. *)
Definition validateAction : Run unit :=
  console MsgValidating ;;
  cache <- readLicenseCache ;;
  match cache with
  | None => console MsgNoLicenseActivated
  | Some cache =>
      console (MsgKey (maskKey (key cache))) ;;
      machineId <- generateMachineId ;;
      reply <- licenseApi.validate (key cache) machineId ;;
      match reply with
      | Rejected e => console (MsgValidationFailed e) ;; process_exit 1
      | Resolved result =>
          if negb (valid result) then console MsgValidationRefused
          else
            t <- Date_now ;;
            writeResult <- writeLicenseCache (updatedCache cache result t) ;;
            (if negb (success writeResult)
             then console (MsgCacheNotUpdated (error writeResult))
             else ret tt) ;;
            reload ;;
            validationReport result
      end
  end.

End Pro.

(** ** Sessions: several commands, one after the other *)

Inductive Command :=
| CmdActivate (k : option string)
| CmdStatus
| CmdDeactivate (force : bool)
| CmdValidate.

Definition exec `{LicenseModules} (c : Command) : Run unit :=
  match c with
  | CmdActivate k => activateAction k
  | CmdStatus => statusAction
  | CmdDeactivate force => deactivateAction force
  | CmdValidate => validateAction
  end.



(** Every command of the session runs in the environment paired with it;
    the world is handed from one command to the next, also past an exit. *)
Fixpoint session_trace `{LicenseModules}
    (cmds : list (Command * Env)) (w : World) : list Event :=
  match cmds with
  | [] => []
  | (c, env) :: rest =>
      let r := exec c env w in
      (trace r ++ session_trace rest (world_after r))%list
  end.

Fixpoint session_world `{LicenseModules}
    (cmds : list (Command * Env)) (w : World) : World :=
  match cmds with
  | [] => w
  | (c, env) :: rest => session_world rest (world_after (exec c env w))
  end.

(** The [lastValidated] stamps of the records handed to
    [writeLicenseCache], in the order of the calls. *)
Fixpoint validation_stamps (t : list Event) : list Z :=
  match t with
  | [] => []
  | WriteCache r _ :: rest =>
      match lastValidated r with
      | Some s => s :: validation_stamps rest
      | None => validation_stamps rest
      end
  | _ :: rest => validation_stamps rest
  end.

(** Whether the gate may still hold a snapshot taken before the last cache
    mutation of the trace: a mutation raises the flag, a reload lowers it. *)
Fixpoint stale_after (dirty : bool) (t : list Event) : bool :=
  match t with
  | [] => dirty
  | e :: rest =>
      if is_cache_mutation e then stale_after true rest
      else match e with
           | Reload => stale_after false rest
           | _ => stale_after dirty rest
           end
  end.

(** ** The helpers as the specification describes them *)

Module SpecModel.

(** Modelled from the spec: the validity clock of [license-cache.js]
    starts at [lastValidated] when present, else at [activatedAt]
    ("revalidation resets the clock"). *)
Definition validityStart (r : LicenseRecord) : option Z :=
  match lastValidated r with
  | Some t => Some t
  | None => activatedAt r
  end.

(** Modelled from the spec: "a record with missing
    cacheValidDays/gracePeriodDays uses fixed defaults (30 and 7
    respectively)". *)
Definition validDays (r : LicenseRecord) : Z :=
  match cacheValidDays r with Some d => d | None => 30 end.

(** Modelled from the spec: the default of [gracePeriodDays] is 7. *)
Definition graceDays (r : LicenseRecord) : Z :=
  match gracePeriodDays r with Some d => d | None => 7 end.

(** Modelled from the spec: the expiry boundary of the cache,
    "activatedAt + cacheValidDays (or lastValidated + cacheValidDays if
    present)". *)
Definition expiryBoundary (r : LicenseRecord) : option Z :=
  match validityStart r with
  | Some t => Some (t + validDays r * DAY_MS)
  | None => None
  end.

(** Modelled from the spec: [isExpired(record, now)], "true when now >
    activatedAt + cacheValidDays (or lastValidated + cacheValidDays if
    present)". A record without either timestamp (the spec is silent on
    it) is taken as expired. *)
Definition isExpired (r : LicenseRecord) (t : Z) : bool :=
  match expiryBoundary r with
  | Some e => t >? e
  | None => true
  end.

(** Modelled from the spec: [isInGracePeriod(record, now)], "true when
    expired per above AND now <= expiry + gracePeriodDays". *)
Definition isInGracePeriod (r : LicenseRecord) (t : Z) : bool :=
  isExpired r t &&
  match expiryBoundary r with
  | Some e => t <=? e + graceDays r * DAY_MS
  | None => false
  end.

(** Modelled from the spec: [daysRemaining(record, now)], "signed;
    negative means already past the relevant boundary", counted to the
    expiry boundary above. *)
Definition daysRemaining (r : LicenseRecord) (t : Z) : option Z :=
  match expiryBoundary r with
  | Some e => Some (JS.ceil_div (e - t) DAY_MS)
  | None => None
  end.

(** Modelled from the spec: an "alphanumeric character" of a key group:
    a digit or an ASCII letter. *)
Definition alnum (c : ascii) : bool :=
  let n := nat_of_ascii c in
  ((48 <=? n) && (n <=? 57) || (65 <=? n) && (n <=? 90)
   || (97 <=? n) && (n <=? 122))%nat.

(** Modelled from the spec: [n] groups, each a separator and "four
    alphanumeric characters", and nothing after them. *)
Fixpoint groups (n : nat) (s : string) : bool :=
  match n, s with
  | O, EmptyString => true
  | S n', String "-" (String a (String b (String c (String d rest)))) =>
      alnum a && alnum b && alnum c && alnum d && groups n' rest
  | _, _ => false
  end.

(** Modelled from the spec: [validateKeyFormat(key)], "format
    PRO-XXXX-XXXX-XXXX-XXXX (four groups of four alphanumeric characters
    after a fixed prefix)"; total, false on anything else. *)
Definition validateKeyFormat (k : string) : bool :=
  match k with
  | String "P" (String "R" (String "O" rest)) => groups 4 rest
  | _ => false
  end.

(** Modelled from the spec: [n] times the "fixed mask character". *)
Fixpoint stars (n : nat) : string :=
  match n with O => EmptyString | S n' => String "*" (stars n') end.

(** Modelled from the spec: [maskKey(key)], "all but the first and last
    groups replaced by a fixed mask character, e.g.
    PRO-XXXX-****-****-XXXX"; a string of another length is left as is. *)
Definition maskKey (k : string) : string :=
  if (String.length k =? 23)%nat
  then String.substring 0 9 k ++ stars 4 ++ "-" ++ stars 4 ++ String.substring 18 5 k
  else k.

(** Modelled from its use in [statusAction] ([info.features],
    [info.inGrace]): the features of the readable cache and whether the
    state is [Grace]. *)
Definition getLicenseInfo (w : World) (t : Z) : option LicenseInfo :=
  match readable (cacheFile w) with
  | Some c =>
      Some {| info_features := features c; inGrace := isInGracePeriod c t |}
  | None => None
  end.

(** The helper modules, each as modelled above. *)
Definition modules : LicenseModules :=
  Build_LicenseModules validateKeyFormat maskKey isExpired isInGracePeriod
                       getLicenseInfo.

End SpecModel.

(** ** Statements of the specification, in its own words *)

(** The wildcard rule of section 4.5: a grant ending in the wildcard suffix
    [.*] matches the feature IDs that start with the grant minus the
    wildcard character (the prefix keeps the separator); any other grant
    matches only itself. *)
Definition grant_matches (grant featureId : string) : Prop :=
  (exists p, grant = p ++ ".*" /\ exists rest, featureId = (p ++ ".") ++ rest)
  \/ ((forall p, grant <> p ++ ".*") /\ featureId = grant).

(** Several availability queries in a row, on the same gate. *)
Fixpoint isAvailable_each `{LicenseModules} (ids : list string) : Run (list bool) :=
  match ids with
  | [] => ret []
  | i :: rest =>
      b <- isAvailable i ;;
      bs <- isAvailable_each rest ;;
      ret (b :: bs)
  end.

(** The clock reading of each command of a session. *)
Definition clock (ce : Command * Env) : Z := now (snd ce).

(** The states in which the gate has to deny every feature. *)
Definition denied `{LicenseModules} (w : World) (env : Env) : Prop :=
  licenseState (readable (cacheFile w)) (now env) = NotActivated \/
  licenseState (readable (cacheFile w)) (now env) = Expired.

(** ** Sample data: the scenarios of section 8 of the specification *)

Module Sample.

Definition day (n : Z) : Z := n * DAY_MS.

Definition a_key : string := "PRO-AB12-CD34-EF56-GH78".

(** A record as a fresh activation at time 0 caches it. *)
Definition activated (fs : list string) : LicenseRecord :=
  {| key := a_key;
     activatedAt := Some 0;
     expiresAt := Some (day 365);
     features := Some fs;
     seats := Some (mkSeats 1 5);
     cacheValidDays := Some 30;
     gracePeriodDays := Some 7;
     lastValidated := None |}.

(** The same record after a successful validation on day 40. *)
Definition revalidated (fs : list string) : LicenseRecord :=
  {| key := a_key;
     activatedAt := Some 0;
     expiresAt := Some (day 365);
     features := Some fs;
     seats := Some (mkSeats 1 5);
     cacheValidDays := Some 30;
     gracePeriodDays := Some 7;
     lastValidated := Some (day 40) |}.

(** A process that has just started: nothing pending, a new gate. *)
Definition started (cf : CacheFile) : World :=
  {| cacheFile := cf; pendingFile := None; featureGate := new_FeatureGate |}.

Definition granted : ActivateResult :=
  {| res_key := a_key;
     res_activatedAt := Some 0;
     res_expiresAt := Some (day 365);
     res_features := Some ["pro.memory.*"];
     res_seats := Some (mkSeats 1 5);
     res_cacheValidDays := Some 30;
     res_gracePeriodDays := Some 7 |}.

Definition verdict (ok : bool) : ValidateResult :=
  {| valid := ok;
     val_features := Some ["pro.memory.*"];
     val_seats := Some (mkSeats 1 5);
     val_expiresAt := Some (day 365);
     val_cacheValidDays := Some 30;
     val_gracePeriodDays := Some 7 |}.

(** The authority is reachable and accepts everything, at time [t];
    [ok] is the [valid] flag of its validate replies. *)
Definition online (t : Z) (ok : bool) : Env :=
  {| now := t;
     machineId := "machine-1";
     aiosCoreVersion := "1.0.0";
     activate_reply := fun _ _ _ => Resolved granted;
     validate_reply := fun _ _ => Resolved (verdict ok);
     isOnline_reply := Resolved true;
     deactivate_reply := fun _ _ => Resolved tt;
     write_error := None;
     confirm_reply := true |}.

(** No connection at time [t]: the probe says so and every request is
    rejected. *)
Definition offline (t : Z) : Env :=
  {| now := t;
     machineId := "machine-1";
     aiosCoreVersion := "1.0.0";
     activate_reply := fun _ _ _ => Rejected (OtherError "network");
     validate_reply := fun _ _ => Rejected (OtherError "network");
     isOnline_reply := Resolved false;
     deactivate_reply := fun _ _ => Rejected (OtherError "network");
     write_error := None;
     confirm_reply := true |}.

(** The world of a process that started with a record activated on day 0
    granting [pro.memory.*] and asked for [pro.memory.analytics] on day 31. *)
Definition after_first_query : World :=
  world_after
    (isAvailable (H := SpecModel.modules) "pro.memory.analytics" (offline (day 31))
       (started (Sealed (activated ["pro.memory.*"])))).



(** A process whose gate has memoized the record granting
    [pro.squads.*]. *)
Definition memoized : World :=
  {| cacheFile := Sealed (activated ["pro.squads.*"]);
     pendingFile := None;
     featureGate := mkFeatureGate (Some (activated ["pro.squads.*"]))
                                  ["pro.squads.*"] |}.

(** Activation on day 0, then a validation on day 10 and one on day 20. *)
Definition two_validations : list (Command * Env) :=
  [ (CmdActivate (Some a_key), online 0 true);
    (CmdValidate, online (day 10) true);
    (CmdValidate, online (day 20) true) ].

End Sample.

(** ** Further code of the sources *)

(** The error [require] throws: [new ProFeatureError(msg, featureId)]. *)
Record ProFeatureError := mkProFeatureError {
  pfe_message : string;
  pfe_featureId : string
}.

(** The line feed of ['\n']. *)
Definition LF : string := String (ascii_of_nat 10) EmptyString.

(** The [msg] of [require]: four lines joined by ['\n']. *)
Definition require_message (featureId friendlyName : string) : string :=
  String.concat LF
    [ friendlyName ++ " requires an active AIOS Pro license.";
      "Feature: " ++ featureId;
      "Activate: aios pro activate --key <KEY>";
      "Purchase: https://synkra.ai/pro" ].

(** [require(featureId, friendlyName)]: [inl e] is [throw e], [inr tt] the
    normal return. *)
Definition require `{LicenseModules} (featureId friendlyName : string)
    : Run (ProFeatureError + unit) :=
  available <- isAvailable featureId ;;
  if negb available
  then ret (inl (mkProFeatureError (require_message featureId friendlyName) featureId))
  else ret (inr tt).

(** How often a trace reads the cache file. *)
Definition count_reads (t : list Event) : nat :=
  List.length (filter (fun e => match e with ReadCache => true | _ => false end) t).

(** How often a trace prints the grace warning. *)
Definition count_grace_warnings (t : list Event) : nat :=
  List.length
    (filter (fun e => match e with Print MsgGraceWarning => true | _ => false end) t).

(** Events that only look: console output and reads of the cache file. *)
Definition is_passive (e : Event) : bool :=
  match e with
  | Print _ | ReadCache => true
  | _ => false
  end.

(** A call that returns. *)
Definition returns {A} (call : Run A) : Prop :=
  forall env w, exists a, outcome (call env w) = Returned a.

(** A call that only looks: it returns, does nothing but read the cache
    file and print, and leaves the pending slot and what can be read from
    the cache file as they were. *)
Definition only_looks {A} (call : Run A) : Prop :=
  forall env w,
    (exists a, outcome (call env w) = Returned a)
    /\ forallb is_passive (trace (call env w)) = true
    /\ pendingFile (world_after (call env w)) = pendingFile w
    /\ readable (cacheFile (world_after (call env w))) = readable (cacheFile w).

(** Modelled from the spec: "FeatureGate lazily loads LicenseCache". A
    [getLicenseState] that loads the cache before it computes the state,
    as [isAvailable] does. *)
Definition getLicenseState_loading `{LicenseModules} : Run LicenseState :=
  w <- get_world ;;
  match _cache (featureGate w) with
  | None => _loadCache
  | Some _ => ret tt
  end ;;
  getLicenseState.

(** ** [confirm] and [setupAction] *)

(** More JavaScript string primitives, on the code units of a [string]. *)
Module JSText.

(** [c.toLowerCase()] on one unit: the letters A-Z; other units are left
    as they are. *)
Definition lower (c : ascii) : ascii :=
  let n := nat_of_ascii c in
  if ((65 <=? n) && (n <=? 90))%nat then ascii_of_nat (n + 32) else c.

(** [s.toLowerCase()] *)
Fixpoint toLowerCase (s : string) : string :=
  match s with
  | EmptyString => EmptyString
  | String c s' => String (lower c) (toLowerCase s')
  end.

(** [s.includes(sub)] *)
Fixpoint includes (s sub : string) : bool :=
  String.prefix sub s ||
  match s with
  | EmptyString => false
  | String _ s' => includes s' sub
  end.

(** [s.split('\n')]: the lines of [s]; the empty string has one line. *)
Fixpoint split_lines (s : string) : list string :=
  match s with
  | EmptyString => [EmptyString]
  | String c s' =>
      if Ascii.eqb c (ascii_of_nat 10) then EmptyString :: split_lines s'
      else match split_lines s' with
           | l :: ls => String c l :: ls
           | [] => [String c EmptyString]
           end
  end.

(** [lines.join('\n')] *)
Definition join_lines (ls : list string) : string := String.concat LF ls.

(** Whether a string has no line feed in it. *)
Fixpoint single_line (s : string) : bool :=
  match s with
  | EmptyString => true
  | String c s' => negb (Ascii.eqb c (ascii_of_nat 10)) && single_line s'
  end.

End JSText.

(** The test [confirm] puts to the answer typed at its prompt:
    [answer.toLowerCase() === 'y' || answer.toLowerCase() === 'yes']. *)
Definition confirm_accepts (answer : string) : bool :=
  String.eqb (JSText.toLowerCase answer) "y"
  || String.eqb (JSText.toLowerCase answer) "yes".

(** What [setupAction] takes from Node and the JavaScript runtime:
    [path.join], [String.prototype.trim] and [trimEnd]. *)
Class NodeRuntime := {
  path_join : string -> string -> string;
  trim : string -> string;
  trimEnd : string -> string
}.

Module Setup.

(** [options.token] and [options.global]. *)
Record Options := mkOptions { opt_token : option string; opt_global : bool }.

(** The files on disk, by path: [None] is a file that cannot be read. *)
Definition Files := string -> option string.

Definition write (fs : Files) (path content : string) : Files :=
  fun p => if String.eqb p path then Some content else fs p.

(** What one run of [aios pro setup] finds around it. *)
Record Env := mkEnv {
  homedir : string;                         (* os.homedir() *)
  cwd : string;                             (* process.cwd() *)
  token_answer : string;                    (* line typed at the PAT prompt *)
  continue_answer : string;                 (* answer to 'Continue anyway?' *)
  overwrite_answer : string;                (* answer to 'Overwrite existing configuration?' *)
  write_error : string -> option string;    (* error of writeFileSync, by path *)
  npm_view_ok : bool                        (* whether execSync('npm view ...') succeeds *)
}.

Inductive Question := ContinueAnyway | OverwriteExisting.

(** Console output of [setupAction], by message block. *)
Inductive Message :=
| MsgHeader
| MsgTokenInstructions
| MsgCancelledNoToken            (* Setup cancelled. You can run this command again with ... *)
| MsgTokenFormatWarning
| MsgCancelled                   (* Setup cancelled. *)
| MsgAlreadyConfigured (npmrcPath : string)
| MsgCancelledPreserved          (* Setup cancelled. Existing configuration preserved. *)
| MsgConfigWritten (npmrcPath : string)
| MsgWriteFailed (npmrcPath error : string)
| MsgGitignoreAdded
| MsgGitignoreNotUpdated
| MsgVerifying
| MsgAccessVerified
| MsgAccessNotVerified
| MsgSetupComplete.

Inductive Event :=
| Log (m : Message)
| AskToken
| Ask (q : Question)
| ReadFile (path : string)
| WriteFile (path content : string) (success : bool)
| NpmView.

Definition Run (A : Type) : Type := Env -> Files -> Outcome A * Files * list Event.

Definition ret {A} (a : A) : Run A := fun _ fs => (Returned a, fs, []).

Definition bind {A B} (c : Run A) (k : A -> Run B) : Run B :=
  fun env fs =>
    match c env fs with
    | (Returned a, fs1, t1) =>
        match k a env fs1 with
        | (o, fs2, t2) => (o, fs2, (t1 ++ t2)%list)
        end
    | (Exited code, fs1, t1) => (Exited code, fs1, t1)
    end.

Notation "x <~ c ;; k" := (bind c (fun x => k))
  (at level 61, c at next level, right associativity).
Notation "c ~~ k" := (bind c (fun _ => k))
  (at level 61, right associativity).

Definition log (m : Message) : Run unit := fun _ fs => (Returned tt, fs, [Log m]).
Definition exit {A} (code : Z) : Run A := fun _ fs => (Exited code, fs, []).
Definition ask {A} (f : Env -> A) : Run A := fun env fs => (Returned (f env), fs, []).

(** [fs.readFileSync(path, 'utf8')] inside [try { } catch { }]: the content,
    or [None] when the read throws. *)
Definition readFileSync (path : string) : Run (option string) :=
  fun _ fs => (Returned (fs path), fs, [ReadFile path]).

(** [fs.writeFileSync(path, content, 'utf8')]: [Some error] when it throws. *)
Definition writeFileSync (path content : string) : Run (option string) :=
  fun env fs =>
    match write_error env path with
    | None => (Returned None, write fs path content, [WriteFile path content true])
    | Some e => (Returned (Some e), fs, [WriteFile path content false])
    end.

(** The PAT prompt: [rl.question(..., answer => resolve(answer.trim()))]. *)
Definition promptToken `{NodeRuntime} : Run string :=
  fun env fs => (Returned (trim (token_answer env)), fs, [AskToken]).

(** [confirm(question)] *)
Definition confirm (q : Question) : Run bool :=
  fun env fs =>
    (Returned (confirm_accepts
                 (match q with
                  | ContinueAnyway => continue_answer env
                  | OverwriteExisting => overwrite_answer env
                  end)), fs, [Ask q]).

(** [execSync('npm view @aios/pro ...')] inside [try { } catch { }]. *)
Definition npmView : Run bool :=
  fun env fs => (Returned (npm_view_ok env), fs, [NpmView]).

Definition scopeConfig : string := "@aios:registry=https://npm.pkg.github.com".
Definition tokenConfig : string := "//npm.pkg.github.com/:_authToken=".

(** The filter of the overwrite: lines that mention neither the scope nor
    the token entry. *)
Definition keeps (line : string) : bool :=
  negb (JSText.includes line "@aios:")
  && negb (JSText.includes line "npm.pkg.github.com/:_authToken").

(** [npmrcContent.split('\n').filter(...).join('\n')] *)
Definition removeAiosLines (npmrcContent : string) : string :=
  JSText.join_lines (filter keeps (JSText.split_lines npmrcContent)).

(** The comment line that heads the block [setup] adds. *)
Definition marker : string :=
  "# AIOS Pro - GitHub Packages (added by aios pro setup)".

(** [newConfig]: five lines joined by ['\n']. *)
Definition newConfig (token : string) : string :=
  JSText.join_lines
    [ EmptyString;
      marker;
      scopeConfig;
      tokenConfig ++ token;
      EmptyString ].

(** How many lines of a text are the comment line of the block. *)
Definition count_markers (content : string) : nat :=
  List.length (filter (String.eqb marker) (JSText.split_lines content)).

(** What is appended to [.gitignore]. *)
Definition gitignoreEntry : string :=
  LF ++ "# AIOS Pro credentials (DO NOT COMMIT)" ++ LF ++ ".npmrc" ++ LF.

(** The part of [setupAction] after the token and the file content are
    settled: write [.npmrc], update [.gitignore], verify. *)
Definition writeConfig `{NodeRuntime}
    (options : Options) (npmrcPath npmrcContent token : string) : Run unit :=
  let npmrcContent := trimEnd npmrcContent ++ newConfig token in
  failed <~ writeFileSync npmrcPath npmrcContent ;;
  match failed with
  | Some e => log (MsgWriteFailed npmrcPath e) ~~ exit 1
  | None =>
      log (MsgConfigWritten npmrcPath) ~~
      (if negb (opt_global options) then
         dir <~ ask cwd ;;
         let gitignorePath := path_join dir ".gitignore" in
         read <~ readFileSync gitignorePath ;;
         let gitignore := match read with Some g => g | None => EmptyString end in
         if negb (JSText.includes gitignore ".npmrc") then
           failed <~ writeFileSync gitignorePath (gitignore ++ gitignoreEntry) ;;
           match failed with
           | None => log MsgGitignoreAdded
           | Some _ => log MsgGitignoreNotUpdated
           end
         else ret tt
       else ret tt) ~~
      log MsgVerifying ~~
      ok <~ npmView ;;
      (if ok then log MsgAccessVerified else log MsgAccessNotVerified) ~~
      log MsgSetupComplete
  end.

(** The part of [setupAction] once there is a token: the format check,
    the existing [.npmrc], the overwrite. *)
Definition configure `{NodeRuntime} (options : Options) (npmrcPath token : string)
    : Run unit :=
  proceed <~
    (if negb (JS.startsWith token "ghp_") && negb (JS.startsWith token "github_pat_")
     then
       log MsgTokenFormatWarning ~~
       confirmed <~ confirm ContinueAnyway ;;
       if negb confirmed then log MsgCancelled ~~ ret false else ret true
     else ret true) ;;
  if negb proceed then ret tt
  else
    read <~ readFileSync npmrcPath ;;
    let npmrcContent := match read with Some c => c | None => EmptyString end in
    if JSText.includes npmrcContent "@aios:registry" then
      log (MsgAlreadyConfigured npmrcPath) ~~
      overwrite <~ confirm OverwriteExisting ;;
      if negb overwrite then log MsgCancelledPreserved
      else writeConfig options npmrcPath (removeAiosLines npmrcContent) token
    else writeConfig options npmrcPath npmrcContent token.

(** [setupAction(options)] *)
Definition setupAction `{NodeRuntime} (options : Options) : Run unit :=
  home <~ ask homedir ;;
  log MsgHeader ~~
  dir <~ ask cwd ;;
  let npmrcPath := if opt_global options then path_join home ".npmrc"
                   else path_join dir ".npmrc" in
  match opt_token options with
  | Some (String c t) => configure options npmrcPath (String c t)
  | _ =>
      log MsgTokenInstructions ~~
      token <~ promptToken ;;
      match token with
      | EmptyString => log MsgCancelledNoToken
      | String _ _ => configure options npmrcPath token
      end
  end.

Definition result {A} (r : Outcome A * Files * list Event) : Outcome A := fst (fst r).
Definition files_after {A} (r : Outcome A * Files * list Event) : Files := snd (fst r).
Definition events {A} (r : Outcome A * Files * list Event) : list Event := snd r.

Definition is_write (e : Event) : bool :=
  match e with WriteFile _ _ _ => true | _ => false end.

(** Events before any write: output, prompts and reads. *)
Definition is_prelude (e : Event) : bool :=
  match e with Log _ | AskToken | Ask _ | ReadFile _ => true | _ => false end.

(** The paths [setupAction] may write. *)
Definition npmrcPath `{NodeRuntime} (options : Options) (env : Env) : string :=
  if opt_global options then path_join (homedir env) ".npmrc"
  else path_join (cwd env) ".npmrc".

Definition gitignorePath `{NodeRuntime} (env : Env) : string :=
  path_join (cwd env) ".gitignore".

(** The token a run works with: [options.token] when it is a non-empty
    string, else the trimmed answer to the prompt; empty means none. *)
Definition tokenOf `{NodeRuntime} (options : Options) (env : Env) : string :=
  match opt_token options with
  | Some (String c t) => String c t
  | _ => trim (token_answer env)
  end.

(** What the run reads as the current [.npmrc]: empty when unreadable. *)
Definition currentNpmrc `{NodeRuntime} (options : Options) (env : Env) (fs : Files)
    : string :=
  match fs (npmrcPath options env) with Some c => c | None => EmptyString end.

(** Whether the token has one of the two expected prefixes. *)
Definition wellFormed (token : string) : bool :=
  JS.startsWith token "ghp_" || JS.startsWith token "github_pat_".

(** Whether the run gets past its two confirmations: an ill-formed token
    needs a yes, and so does an [.npmrc] that already has the registry. *)
Definition goesAhead `{NodeRuntime} (options : Options) (env : Env) (fs : Files)
    : bool :=
  (wellFormed (tokenOf options env) || confirm_accepts (continue_answer env))
  && (negb (JSText.includes (currentNpmrc options env fs) "@aios:registry")
      || confirm_accepts (overwrite_answer env)).

(** The content the new configuration is appended to. *)
Definition keptNpmrc `{NodeRuntime} (options : Options) (env : Env) (fs : Files)
    : string :=
  if JSText.includes (currentNpmrc options env fs) "@aios:registry"
  then removeAiosLines (currentNpmrc options env fs)
  else currentNpmrc options env fs.

End Setup.

(** A runtime for the examples: POSIX [path.join] of a directory and a
    name, [trim] and [trimEnd] on the ASCII white space. *)
Module SampleRuntime.

Definition is_space (c : ascii) : bool :=
  let n := nat_of_ascii c in
  ((9 <=? n) && (n <=? 13) || (n =? 32))%nat.

Fixpoint trimStart (s : string) : string :=
  match s with
  | String c s' => if is_space c then trimStart s' else s
  | EmptyString => EmptyString
  end.

Fixpoint trimEnd (s : string) : string :=
  match s with
  | EmptyString => EmptyString
  | String c s' =>
      match trimEnd s' with
      | EmptyString => if is_space c then EmptyString else String c EmptyString
      | rest => String c rest
      end
  end.

Definition node : NodeRuntime :=
  Build_NodeRuntime (fun dir name => dir ++ "/" ++ name)
                    (fun s => trimEnd (trimStart s))
                    trimEnd.

(** A project in [/work/app], home in [/home/dev]; the answers are empty
    (Enter) and nothing fails. *)
Definition env : Setup.Env :=
  {| Setup.homedir := "/home/dev";
     Setup.cwd := "/work/app";
     Setup.token_answer := EmptyString;
     Setup.continue_answer := EmptyString;
     Setup.overwrite_answer := EmptyString;
     Setup.write_error := fun _ => None;
     Setup.npm_view_ok := true |}.

(** The same with a yes to the overwrite. *)
Definition env_overwrite : Setup.Env :=
  {| Setup.homedir := "/home/dev";
     Setup.cwd := "/work/app";
     Setup.token_answer := EmptyString;
     Setup.continue_answer := EmptyString;
     Setup.overwrite_answer := "y";
     Setup.write_error := fun _ => None;
     Setup.npm_view_ok := true |}.

(** No files at all. *)
Definition no_files : Setup.Files := fun _ => None.

(** The home [.npmrc] as a first global setup with token [ghp_old] on an
    empty file leaves it. *)
Definition configured : Setup.Files :=
  Setup.write no_files "/home/dev/.npmrc" (Setup.newConfig "ghp_old").

End SampleRuntime.

(** * Properties *)

(** ** Strings *)

Section StringFacts.

Local Open Scope nat_scope.

Lemma substring_0_length_app (p r : string) :
  String.substring 0 (String.length p) (p ++ r) = p.
Proof.
  induction p as [|c p IH]; simpl.
  - destruct r; reflexivity.
  - now rewrite IH.
Qed.

Lemma substring_skip_app (p s : string) (m : nat) :
  String.substring (String.length p) m (p ++ s) = String.substring 0 m s.
Proof.
  induction p as [|c p IH]; simpl; [reflexivity | exact IH].
Qed.

Lemma substring_0_all (s : string) :
  String.substring 0 (String.length s) s = s.
Proof.
  induction s as [|c s IH]; simpl; [reflexivity | now rewrite IH].
Qed.

Lemma substring_split (s : string) :
  forall k, k <= String.length s ->
    s = String.substring 0 k s ++ String.substring k (String.length s - k) s.
Proof.
  induction s as [|c s IH]; intros k Hk; simpl in *.
  - destruct k; reflexivity.
  - destruct k as [|k]; simpl.
    + now rewrite substring_0_all.
    + f_equal. apply IH. lia.
Qed.

Lemma length_app (p s : string) :
  String.length (p ++ s) = String.length p + String.length s.
Proof.
  induction p as [|c p IH]; simpl; [reflexivity | now rewrite IH].
Qed.

Lemma app_assoc_string (a b c : string) : (a ++ b) ++ c = a ++ (b ++ c).
Proof.
  induction a as [|x a IH]; simpl; [reflexivity | now rewrite IH].
Qed.

Lemma startsWith_iff (s p : string) :
  JS.startsWith s p = true <-> exists rest, s = p ++ rest.
Proof.
  unfold JS.startsWith. revert s.
  induction p as [|a p IH]; intros s; simpl.
  - split; [intros _; now exists s | now destruct s].
  - destruct s as [|b s]; simpl.
    + split; [discriminate | intros [rest Hr]; discriminate].
    + destruct (ascii_dec a b) as [->|Hab].
      * rewrite IH. split; intros [rest Hr]; exists rest; congruence.
      * split; [discriminate | intros [rest Hr]; congruence].
Qed.

Lemma endsWith_iff (s suf : string) :
  JS.endsWith s suf = true <-> exists p, s = p ++ suf.
Proof.
  unfold JS.endsWith. rewrite andb_true_iff, Nat.leb_le, String.eqb_eq.
  split.
  - intros [Hle Hsub].
    exists (String.substring 0 (String.length s - String.length suf) s).
    pose proof (substring_split s (String.length s - String.length suf)) as Hs.
    replace (String.length s - (String.length s - String.length suf))
      with (String.length suf) in Hs by lia.
    rewrite Hsub in Hs. apply Hs. lia.
  - intros [p ->]. rewrite length_app. split; [lia|].
    replace (String.length p + String.length suf - String.length suf)
      with (String.length p) by lia.
    rewrite substring_skip_app. apply substring_0_all.
Qed.

Lemma slice_0_m1_wildcard (p : string) :
  JS.slice_0_m1 (p ++ ".*") = p ++ ".".
Proof.
  unfold JS.slice_0_m1.
  change (p ++ ".*") with (p ++ ("." ++ "*")).
  rewrite <- app_assoc_string, length_app. simpl String.length.
  replace (String.length (p ++ ".") + 1 - 1) with (String.length (p ++ ".")) by lia.
  apply substring_0_length_app.
Qed.

Lemma has_iff (fs : list string) (x : string) :
  JS.has fs x = true <-> In x fs.
Proof.
  unfold JS.has. rewrite existsb_exists. split.
  - intros [y [Hin Heq]]. apply String.eqb_eq in Heq. now subst.
  - intros Hin. exists x. split; [assumption | apply String.eqb_refl].
Qed.

End StringFacts.

(** [new Set(arr)] has the elements of [arr]. *)
Lemma new_Set_In (arr : list string) :
  forall seen x, In x (JS.new_Set seen arr) <-> In x arr /\ ~ In x seen.
Proof.
  induction arr as [|a arr IH]; intros seen x; simpl.
  - tauto.
  - destruct (existsb (String.eqb a) seen) eqn:Hseen.
    + apply (has_iff seen a) in Hseen. rewrite IH. split.
      * intros [Hin Hnot]. auto.
      * intros [[-> | Hin] Hnot]; [contradiction | auto].
    + assert (Hnot_a : ~ In a seen).
      { intros Hin. apply (has_iff seen a) in Hin. unfold JS.has in Hin. congruence. }
      simpl. rewrite IH. simpl. split.
      * intros [-> | [Hin Hnot]]; [auto | tauto].
      * intros [[-> | Hin] Hnot]; [now left|].
        destruct (String.eqb_spec a x) as [-> | Hne]; [now left | right; tauto].
Qed.

(** ** Projections of a run *)

Lemma outcome_mk {A} (o : Outcome A) (w : World) (t : list Event) :
  outcome (o, w, t) = o.
Proof. reflexivity. Qed.

Lemma world_after_mk {A} (o : Outcome A) (w : World) (t : list Event) :
  world_after (o, w, t) = w.
Proof. reflexivity. Qed.

Lemma trace_mk {A} (o : Outcome A) (w : World) (t : list Event) :
  trace (o, w, t) = t.
Proof. reflexivity. Qed.

(** ** Wildcard grants *)

Lemma _matchWildcard_iff (fs : list string) (featureId : string) :
  _matchWildcard fs featureId = true <->
  exists f, In f fs /\ JS.endsWith f ".*" = true
            /\ JS.startsWith featureId (JS.slice_0_m1 f) = true.
Proof.
  induction fs as [|f fs IH]; simpl.
  - split; [discriminate | intros [f [[] _]]].
  - destruct (JS.endsWith f ".*") eqn:Hends.
    + destruct (JS.startsWith featureId (JS.slice_0_m1 f)) eqn:Hstart.
      * split; [intros _; exists f; auto | reflexivity].
      * rewrite IH. split.
        -- intros [g [Hin Hg]]. exists g. auto.
        -- intros [g [[<-|Hin] [Hg1 Hg2]]]; [congruence | exists g; auto].
    + rewrite IH. split.
      * intros [g [Hin Hg]]. exists g. auto.
      * intros [g [[<-|Hin] [Hg1 Hg2]]]; [congruence | exists g; auto].
Qed.

Lemma wildcard_suffix_dec (g : string) :
  (exists p, g = p ++ ".*") \/ (forall p, g <> p ++ ".*").
Proof.
  destruct (JS.endsWith g ".*") eqn:Hends.
  - left. now apply endsWith_iff.
  - right. intros p Hp.
    assert (JS.endsWith g ".*" = true) by (apply endsWith_iff; now exists p).
    congruence.
Qed.

Lemma decide_iff (fs : list string) (featureId : string) :
  decide fs featureId = true <->
  exists g, In g fs /\ grant_matches g featureId.
Proof.
  unfold decide. rewrite orb_true_iff, has_iff, _matchWildcard_iff. split.
  - intros [Hin | [f [Hin [Hends Hstart]]]].
    + exists featureId. split; [assumption|].
      destruct (wildcard_suffix_dec featureId) as [[p Hp] | Hno].
      * left. exists p. split; [assumption|]. exists "*".
        rewrite Hp at 1. now rewrite app_assoc_string.
      * right. auto.
    + exists f. split; [assumption|]. left.
      apply endsWith_iff in Hends. destruct Hends as [p ->].
      rewrite slice_0_m1_wildcard in Hstart.
      apply startsWith_iff in Hstart. exists p. auto.
  - intros [g [Hin [[p [-> [rest ->]]] | [Hno ->]]]].
    + right. exists (p ++ ".*"). split; [assumption|]. split.
      * apply endsWith_iff. now exists p.
      * rewrite slice_0_m1_wildcard. apply startsWith_iff. now exists rest.
    + now left.
Qed.

Section GateFacts.

Context `{LicenseModules}.

(** A gate that holds a snapshot answers from it, without touching the
    cache file. *)
Lemma isAvailable_memoized env cf pf c fs featureId :
  isAvailable featureId env (mkWorld cf pf (mkFeatureGate (Some c) fs))
  = (Returned (decide fs featureId),
     mkWorld cf pf (mkFeatureGate (Some c) fs), []).
Proof. reflexivity. Qed.

(** A gate without a snapshot loads the cache first. *)
Lemma isAvailable_unloaded env w featureId :
  _cache (featureGate w) = None ->
  isAvailable featureId env w =
  let r := _loadCache env w in
  (Returned (decide (_features (featureGate (world_after r))) featureId),
   world_after r, trace r).
Proof.
  intros Hnone. unfold isAvailable, bind, get_world, ret. simpl.
  rewrite Hnone.
  unfold _loadCache, bind, readLicenseCache, Date_now, ask, set_gate, console, emit,
    world_after, trace.
  destruct (cacheFile w) as [| |c]; simpl; try reflexivity.
  destruct (isExpired c (now env)); simpl; [|reflexivity].
  destruct (isInGracePeriod c (now env)); reflexivity.
Qed.

(** What [_loadCache] leaves in the gate, by license state. *)
Lemma _loadCache_gate env w :
  featureGate (world_after (_loadCache env w)) =
  match licenseState (readable (cacheFile w)) (now env) with
  | NotActivated | Expired => new_FeatureGate
  | Active | Grace =>
      match readable (cacheFile w) with
      | Some c => {| _cache := Some c;
                     _features := JS.new_Set [] (JS.arr_or (features c)) |}
      | None => new_FeatureGate
      end
  end.
Proof.
  unfold _loadCache, bind, readLicenseCache, Date_now, ask, set_gate, console, emit,
    world_after, licenseState.
  destruct (cacheFile w) as [| |c]; simpl; try reflexivity.
  destruct (isExpired c (now env)); simpl; [|reflexivity].
  destruct (isInGracePeriod c (now env)); reflexivity.
Qed.

(** Loading never makes an unreadable cache readable, and leaves a
    readable one as it is. *)
Lemma _loadCache_readable env w :
  readable (cacheFile (world_after (_loadCache env w))) = readable (cacheFile w).
Proof.
  unfold _loadCache, bind, readLicenseCache, Date_now, ask, set_gate, console, emit,
    world_after.
  destruct (cacheFile w) as [| |c] eqn:Hcf; simpl; rewrite ?Hcf; try reflexivity.
  destruct (isExpired c (now env)); simpl; rewrite ?Hcf; [|reflexivity].
  destruct (isInGracePeriod c (now env)); simpl; now rewrite Hcf.
Qed.

End GateFacts.

(** ** Gating denial *)

Section Denial.

Context `{LicenseModules}.

Lemma decide_empty featureId : decide [] featureId = false.
Proof. reflexivity. Qed.

Lemma _loadCache_denied env w :
  denied w env ->
  featureGate (world_after (_loadCache env w)) = new_FeatureGate.
Proof.
  intros Hd. rewrite _loadCache_gate. now destruct Hd as [-> | ->].
Qed.

Lemma isAvailable_denied env w featureId :
  _cache (featureGate w) = None -> denied w env ->
  outcome (isAvailable featureId env w) = Returned false
  /\ _cache (featureGate (world_after (isAvailable featureId env w))) = None
  /\ denied (world_after (isAvailable featureId env w)) env.
Proof.
  intros Hnone Hd. rewrite (isAvailable_unloaded env w featureId Hnone).
  cbv zeta. rewrite outcome_mk, !world_after_mk.
  rewrite (_loadCache_denied env w Hd). repeat split.
  unfold denied. now rewrite _loadCache_readable.
Qed.

Lemma isAvailable_each_denied env ids :
  forall w, _cache (featureGate w) = None -> denied w env ->
    outcome (isAvailable_each ids env w) = Returned (map (fun _ => false) ids).
Proof.
  induction ids as [|i ids IH]; intros w Hnone Hd; [reflexivity|].
  destruct (isAvailable_denied env w i Hnone Hd) as [Hout [Hnone' Hd']].
  specialize (IH _ Hnone' Hd').
  simpl. unfold bind at 1.
  destruct (isAvailable i env w) as [[o w1] t1].
  unfold outcome, world_after in *. simpl in *. subst o.
  unfold bind at 1.
  destruct (isAvailable_each ids env w1) as [[o2 w2] t2].
  simpl in IH. subst o2. reflexivity.
Qed.

End Denial.

(** A non-empty feature set is loaded only from a readable cache that is
    not expired or is within grace. *)
Lemma loaded_features_need_license `{LicenseModules} env w :
  _features (featureGate (world_after (_loadCache env w))) <> [] ->
  exists c, cacheFile w = Sealed c /\
            (isExpired c (now env) = false \/ isInGracePeriod c (now env) = true).
Proof.
  rewrite _loadCache_gate. unfold licenseState.
  destruct (cacheFile w) as [| |c]; simpl; try congruence.
  intros Hne. exists c. split; [reflexivity|].
  destruct (isExpired c (now env)); simpl in *; [|now left].
  destruct (isInGracePeriod c (now env)); simpl in *; [now right | congruence].
Qed.

(** C1, as stated, fails on a gate that holds a snapshot: the offline
    grace scenario of the specification, run in one process. A record
    activated on day 0 (30 days of validity, 7 of grace) grants
    [pro.memory.*]. The first query, on day 31, loads the cache (state
    [Grace]) and answers true. On day 39 the state computed from the same
    cache file and the clock is [Expired], and the same gate still answers
    true: [isAvailable] loads only [if (!this._cache)]. *)
Lemma gating_denial_counterexample :
  licenseState (H := SpecModel.modules)
    (readable (cacheFile (Sample.started (Sealed (Sample.activated ["pro.memory.*"])))))
    (now (Sample.offline (Sample.day 31))) = Grace
  /\ outcome (isAvailable (H := SpecModel.modules) "pro.memory.analytics"
                (Sample.offline (Sample.day 31))
                (Sample.started (Sealed (Sample.activated ["pro.memory.*"]))))
     = Returned true
  /\ licenseState (H := SpecModel.modules)
       (readable (cacheFile Sample.after_first_query))
       (now (Sample.offline (Sample.day 39))) = Expired
  /\ outcome (isAvailable (H := SpecModel.modules) "pro.memory.analytics"
                (Sample.offline (Sample.day 39)) Sample.after_first_query)
     = Returned true.
Proof. repeat split; reflexivity. Qed.

(** C1, as amended — gating denial at load. Whenever the license state
    computed from the cache file and the clock is [NotActivated] (no
    readable cache) or [Expired] (expired and past grace), the feature set
    [_loadCache] leaves in the gate is empty, whatever features the cached
    record lists; so a gate that holds no snapshot answers false for every
    feature ID, and keeps doing so for any further queries. The gates
    without a snapshot are a new gate, a gate after [reload()], and a gate
    whose last load found the state [NotActivated] or [Expired]. A
    non-empty feature set is loaded only from a readable cache that is not
    expired or is within grace. *)
Theorem gating_denial `{LicenseModules} (env : Env) (w : World) :
  (_features (featureGate (world_after (_loadCache env w))) <> [] ->
   exists c, cacheFile w = Sealed c /\
             (isExpired c (now env) = false \/ isInGracePeriod c (now env) = true))
  /\ (denied w env ->
      _features (featureGate (world_after (_loadCache env w))) = []
      /\ _cache (featureGate (world_after (_loadCache env w))) = None
      /\ (_cache (featureGate w) = None ->
          (forall featureId, outcome (isAvailable featureId env w) = Returned false)
          /\ (forall ids, outcome (isAvailable_each ids env w)
                          = Returned (map (fun _ => false) ids))))
  /\ _cache new_FeatureGate = None
  /\ _cache (featureGate (world_after (reload env w))) = None.
Proof.
  split; [apply loaded_features_need_license|].
  split; [|split; reflexivity].
  intros Hd. rewrite (_loadCache_denied env w Hd).
  split; [reflexivity|]. split; [reflexivity|].
  intros Hnone. split.
  - intros featureId. now apply isAvailable_denied.
  - intros ids. now apply isAvailable_each_denied.
Qed.

(** The offline-grace scenario past its end, in a process started then: on
    day 39 the record that grants [pro.memory.*] yields nothing. *)
Lemma gating_denial_witness :
  denied (H := SpecModel.modules)
         (Sample.started (Sealed (Sample.activated ["pro.memory.*"])))
         (Sample.offline (Sample.day 39))
  /\ _cache (featureGate (Sample.started (Sealed (Sample.activated ["pro.memory.*"]))))
     = None
  /\ outcome (isAvailable (H := SpecModel.modules) "pro.memory.analytics"
                (Sample.offline (Sample.day 39))
                (Sample.started (Sealed (Sample.activated ["pro.memory.*"]))))
     = Returned false.
Proof.
  assert (Hd : denied (H := SpecModel.modules)
                 (Sample.started (Sealed (Sample.activated ["pro.memory.*"])))
                 (Sample.offline (Sample.day 39)))
    by (right; reflexivity).
  split; [exact Hd|]. split; [reflexivity|].
  exact (proj1 (proj2 (proj2 (proj1 (proj2 (gating_denial (H := SpecModel.modules)
                                               _ _)) Hd)) eq_refl)
           "pro.memory.analytics").
Defined.

(** A gate without a snapshot, in front of a readable cache that is not
    expired or is within grace, answers by the grants of the cached
    record. *)
Lemma isAvailable_licensed `{LicenseModules} env w c featureId :
  _cache (featureGate w) = None ->
  cacheFile w = Sealed c ->
  isExpired c (now env) = false \/ isInGracePeriod c (now env) = true ->
  (outcome (isAvailable featureId env w) = Returned true
   <-> exists g, In g (JS.arr_or (features c)) /\ grant_matches g featureId).
Proof.
  intros Hnone Hcf Hok.
  rewrite (isAvailable_unloaded env w featureId Hnone). cbv zeta.
  rewrite outcome_mk, _loadCache_gate, Hcf. simpl readable. unfold licenseState.
  assert (Hloaded :
    _features
      (if negb (isExpired c (now env))
       then {| _cache := Some c;
               _features := JS.new_Set [] (JS.arr_or (features c)) |}
       else if isInGracePeriod c (now env)
            then {| _cache := Some c;
                    _features := JS.new_Set [] (JS.arr_or (features c)) |}
            else new_FeatureGate)
    = JS.new_Set [] (JS.arr_or (features c))).
  { destruct (isExpired c (now env)); simpl; [|reflexivity].
    destruct (isInGracePeriod c (now env)); simpl; [reflexivity|].
    destruct Hok; discriminate. }
  destruct (isExpired c (now env)); simpl negb in *; cbv iota in *;
    [destruct (isInGracePeriod c (now env)); cbv iota in *|];
    try (destruct Hok; discriminate);
    rewrite Hloaded;
    (split;
     [ intros [= Hdec]; apply decide_iff in Hdec; destruct Hdec as [g [Hin Hm]];
       exists g; split; [now apply new_Set_In in Hin | exact Hm]
     | intros [g [Hin Hm]]; f_equal; apply decide_iff; exists g;
       split; [apply new_Set_In; auto | exact Hm] ]).
Qed.

(** C2 — wildcard matching. On a loaded gate, [isAvailable] answers true
    exactly for the feature IDs matched by one of the grants: a grant
    [p.*] matches the IDs that start with [p.] (the grant minus the
    wildcard character, separator included), a grant without the wildcard
    suffix matches only itself; a gate that first has to load a usable
    cache answers by the grants of the cached record in the same way. In
    particular [pro.squads.*] grants [pro.squads.premium] and does not
    grant [pro.squadcraft]. *)
Theorem wildcard_matching `{LicenseModules} :
  (forall env cf pf c fs featureId,
     outcome (isAvailable featureId env (mkWorld cf pf (mkFeatureGate (Some c) fs)))
     = Returned true
     <-> exists g, In g fs /\ grant_matches g featureId)
  /\ (forall env cf pf c p featureId,
     outcome (isAvailable featureId env
                (mkWorld cf pf (mkFeatureGate (Some c) [p ++ ".*"])))
     = Returned true
     <-> exists rest, featureId = (p ++ ".") ++ rest)
  /\ (forall env cf pf c g featureId,
     (forall p, g <> p ++ ".*") ->
     (outcome (isAvailable featureId env (mkWorld cf pf (mkFeatureGate (Some c) [g])))
      = Returned true
      <-> featureId = g))
  /\ (forall env w c featureId,
     _cache (featureGate w) = None ->
     cacheFile w = Sealed c ->
     isExpired c (now env) = false \/ isInGracePeriod c (now env) = true ->
     (outcome (isAvailable featureId env w) = Returned true
      <-> exists g, In g (JS.arr_or (features c)) /\ grant_matches g featureId))
  /\ outcome (isAvailable (H := SpecModel.modules) "pro.squads.premium"
                (Sample.offline (Sample.day 1))
                (Sample.started (Sealed (Sample.activated ["pro.squads.*"]))))
     = Returned true
  /\ outcome (isAvailable (H := SpecModel.modules) "pro.squadcraft"
                (Sample.offline (Sample.day 1))
                (Sample.started (Sealed (Sample.activated ["pro.squads.*"]))))
     = Returned false.
Proof.
  assert (Hgen : forall env cf pf c fs featureId,
     outcome (isAvailable featureId env (mkWorld cf pf (mkFeatureGate (Some c) fs)))
     = Returned true
     <-> exists g, In g fs /\ grant_matches g featureId).
  { intros. rewrite isAvailable_memoized, outcome_mk, <- decide_iff.
    split; [now intros [= ->] | now intros ->]. }
  split; [exact Hgen|].
  split; [|split; [|split; [apply @isAvailable_licensed | split; reflexivity]]].
  - intros. rewrite Hgen. split.
    + intros [g [[<-|[]] [[q [Hq [rest ->]]] | [Hno _]]]].
      * assert (Hpq : p ++ "." = q ++ ".").
        { rewrite <- (slice_0_m1_wildcard p), <- (slice_0_m1_wildcard q).
          now rewrite Hq. }
        exists rest. now rewrite Hpq.
      * now destruct (Hno p).
    + intros [rest ->]. exists (p ++ ".*"). split; [now left|].
      left. exists p. split; [reflexivity | now exists rest].
  - intros env cf pf c g featureId Hno. rewrite Hgen. split.
    + intros [g' [[<-|[]] [[q [Hq _]] | [_ ->]]]]; [now destruct (Hno q) | reflexivity].
    + intros ->. exists g. split; [now left | right; auto].
Qed.

(** An exact grant and a wildcard grant, each on its own. *)
Lemma wildcard_matching_witness :
  (forall p, "pro.cli.analytics" <> p ++ ".*")
  /\ (outcome (isAvailable (H := SpecModel.modules) "pro.cli.analytics"
                 (Sample.offline 0)
                 (mkWorld NoFile None
                    (mkFeatureGate (Some (Sample.activated ["pro.cli.analytics"]))
                                   ["pro.cli.analytics"])))
      = Returned true
      <-> "pro.cli.analytics" = "pro.cli.analytics").
Proof.
  assert (Hno : forall p, "pro.cli.analytics" <> p ++ ".*").
  { intros p Hp.
    assert (Hends : JS.endsWith "pro.cli.analytics" ".*" = true)
      by (apply endsWith_iff; now exists p).
    discriminate Hends. }
  split; [exact Hno|].
  exact (proj1 (proj2 (proj2 (wildcard_matching (H := SpecModel.modules))))
           (Sample.offline 0) NoFile None
           (Sample.activated ["pro.cli.analytics"]) "pro.cli.analytics"
           "pro.cli.analytics" Hno).
Defined.

(** ** The command actions *)

(** Unfolds the primitives of the run monad, so that a command reduces to
    the case analysis the source makes. *)
Ltac unfold_run :=
  unfold statusAction_with, licenseInfo, activationReport, validationReport in *;
  unfold bind, ret, console, emit, ask, get_world, put_world, process_exit,
    confirm, generateMachineId, getAiosCoreVersion, Date_now,
    readLicenseCache, writeLicenseCache, deleteLicenseCache,
    setPendingDeactivation, hasPendingDeactivation, clearPendingDeactivation,
    reload, set_gate, getLicenseState,
    licenseApi.activate, licenseApi.validate, licenseApi.isOnline,
    licenseApi.deactivate in *.

(** Case analysis on whatever the reduced command still branches on. *)
Ltac split_run :=
  repeat (simpl;
          match goal with
          | |- context [match ?x with _ => _ end] =>
              lazymatch x with
              | context [match _ with _ => _ end] => fail
              | _ => destruct x eqn:?
              end
          end);
  simpl.

(** C10 — deactivating without a cache. When no cache file exists,
    [deactivateAction] reads the cache, reports that no license is
    activated and returns: the world (cache file, pending slot, gate) is
    unchanged and the trace holds no probe, no authority call, no pending
    write, no delete and no reload. *)
Theorem deactivate_without_cache `{LicenseModules}
    (force : bool) (env : Env) (w : World) :
  cacheFile w = NoFile ->
  deactivateAction force env w
  = (Returned tt, w, [ReadCache; Print MsgNoLicenseActivated]).
Proof.
  intros Hcf. unfold deactivateAction. unfold_run. now rewrite Hcf.
Qed.

Lemma deactivate_without_cache_witness :
  cacheFile (Sample.started NoFile) = NoFile
  /\ deactivateAction (H := SpecModel.modules) false (Sample.online 0 true)
       (Sample.started NoFile)
     = (Returned tt, Sample.started NoFile, [ReadCache; Print MsgNoLicenseActivated]).
Proof.
  split; [reflexivity|].
  exact (deactivate_without_cache (H := SpecModel.modules) false
           (Sample.online 0 true) (Sample.started NoFile) eq_refl).
Defined.

(** C5 — a [valid: false] reply. With a readable cache, when the one call
    to [licenseApi.validate] resolves with [valid: false], [validateAction]
    reports the refusal and returns normally: the authority is asked once,
    and the cache file, the pending slot and the gate are as before (no
    write, no delete, no pending record, no reload). *)
Theorem validate_refused `{LicenseModules}
    (env : Env) (w : World) (c : LicenseRecord) (result : ValidateResult) :
  cacheFile w = Sealed c ->
  validate_reply env (key c) (machineId env) = Resolved result ->
  valid result = false ->
  validateAction env w
  = (Returned tt, w,
     [Print MsgValidating; ReadCache; Print (MsgKey (maskKey (key c)));
      ApiValidate (key c) (machineId env); Print MsgValidationRefused]).
Proof.
  intros Hcf Hreply Hvalid. unfold validateAction. unfold_run.
  rewrite Hcf. simpl. rewrite Hreply. simpl. now rewrite Hvalid.
Qed.

Lemma validate_refused_witness :
  cacheFile (Sample.started (Sealed (Sample.activated ["pro.memory.*"])))
  = Sealed (Sample.activated ["pro.memory.*"])
  /\ validateAction (H := SpecModel.modules) (Sample.online (Sample.day 3) false)
       (Sample.started (Sealed (Sample.activated ["pro.memory.*"])))
     = (Returned tt,
        Sample.started (Sealed (Sample.activated ["pro.memory.*"])),
        [Print MsgValidating; ReadCache;
         Print (MsgKey "PRO-AB12-****-****-GH78");
         ApiValidate Sample.a_key "machine-1"; Print MsgValidationRefused]).
Proof.
  split; [reflexivity|].
  exact (validate_refused (H := SpecModel.modules)
           (Sample.online (Sample.day 3) false)
           (Sample.started (Sealed (Sample.activated ["pro.memory.*"])))
           (Sample.activated ["pro.memory.*"]) (Sample.verdict false)
           eq_refl eq_refl eq_refl).
Defined.

(** The authority is contacted by [activateAction] only for a key that is
    present and has passed [validateKeyFormat]. *)
Lemma activate_contacts_after_check `{LicenseModules} k env w :
  existsb is_authority_call (trace (activateAction k env w)) = true ->
  exists key, k = Some key /\ key <> EmptyString /\ validateKeyFormat key = true.
Proof.
  unfold activateAction. destruct k as [key|]; [|discriminate].
  destruct (String.eqb_spec key EmptyString) as [->|Hne]; [discriminate|].
  destruct (validateKeyFormat key) eqn:Hfmt; [|discriminate].
  intros _. now exists key.
Qed.

(** C8 — the format gate of activation. For every key that
    [validateKeyFormat] rejects, [activateAction] prints its error and
    exits with status 1 at once: the trace holds nothing but that message
    (no authority call, no cache write) and the world is unchanged. The
    message is the invalid-format error for every key that reaches the
    format check; the empty string is stopped one guard earlier, as a
    missing key. The authority is contacted only after the check passed. *)
Theorem activate_format_gate `{LicenseModules}
    (key : string) (env : Env) (w : World) :
  validateKeyFormat key = false ->
  activateAction (Some key) env w
  = (Exited 1, w,
     [Print (if String.eqb key EmptyString then MsgKeyRequired else MsgInvalidKeyFormat)])
  /\ existsb is_authority_call (trace (activateAction (Some key) env w)) = false
  /\ existsb is_cache_write (trace (activateAction (Some key) env w)) = false
  /\ (forall k' env' w',
        existsb is_authority_call (trace (activateAction k' env' w')) = true ->
        exists key', k' = Some key' /\ validateKeyFormat key' = true).
Proof.
  intros Hfmt.
  assert (Hrun : activateAction (Some key) env w
                 = (Exited 1, w,
                    [Print (if String.eqb key EmptyString then MsgKeyRequired
                            else MsgInvalidKeyFormat)])).
  { unfold activateAction. destruct (String.eqb key EmptyString); [reflexivity|].
    now rewrite Hfmt. }
  rewrite Hrun, trace_mk. split; [reflexivity|]. split; [|split].
  - now destruct (String.eqb key EmptyString).
  - now destruct (String.eqb key EmptyString).
  - intros k' env' w' Hcall.
    destruct (activate_contacts_after_check k' env' w' Hcall) as [key' [? [_ ?]]].
    now exists key'.
Qed.

(** A masked key is not a key: it is refused before any request. *)
Lemma activate_format_gate_witness :
  validateKeyFormat (LicenseModules := SpecModel.modules) "PRO-AB12-****-****-GH78"
  = false
  /\ activateAction (H := SpecModel.modules) (Some "PRO-AB12-****-****-GH78")
       (Sample.online 0 true) (Sample.started NoFile)
     = (Exited 1, Sample.started NoFile, [Print MsgInvalidKeyFormat]).
Proof.
  split; [reflexivity|].
  exact (proj1 (activate_format_gate (H := SpecModel.modules)
                  "PRO-AB12-****-****-GH78" (Sample.online 0 true)
                  (Sample.started NoFile) eq_refl)).
Defined.

(** What [deactivateAction] does once it goes ahead, by the answers of the
    authority. *)
Lemma deactivate_run `{LicenseModules} force env w c :
  cacheFile w = Sealed c ->
  force = true \/ confirm_reply env = true ->
  exists prompt,
    prompt = (if force then []
              else [Print (MsgDeactivationPrompt (maskKey (key c))); Confirm])
    /\ deactivateAction force env w =
       match isOnline_reply env with
       | Rejected e =>
           (Exited 1, w,
            [ReadCache] ++ prompt
            ++ [Print MsgDeactivating; ApiIsOnline; Print (MsgDeactivationError e)])
       | Resolved false =>
           (Returned tt,
            {| cacheFile := NoFile;
               pendingFile := Some (mkPending (key c) (now env));
               featureGate := new_FeatureGate |},
            [ReadCache] ++ prompt
            ++ [Print MsgDeactivating; ApiIsOnline; Print MsgOfflineDeactivation;
                SetPending (key c); DeleteCache; Reload; Print MsgDataPreserved])
       | Resolved true =>
           match deactivate_reply env (key c) (machineId env) with
           | Resolved _ =>
               (Returned tt,
                {| cacheFile := NoFile;
                   pendingFile := pendingFile w;
                   featureGate := new_FeatureGate |},
                [ReadCache] ++ prompt
                ++ [Print MsgDeactivating; ApiIsOnline;
                    ApiDeactivate (key c) (machineId env);
                    Print MsgDeactivatedOnline;
                    DeleteCache; Reload; Print MsgDataPreserved])
           | Rejected e =>
               (Returned tt,
                {| cacheFile := NoFile;
                   pendingFile := Some (mkPending (key c) (now env));
                   featureGate := new_FeatureGate |},
                [ReadCache] ++ prompt
                ++ [Print MsgDeactivating; ApiIsOnline;
                    ApiDeactivate (key c) (machineId env);
                    Print (MsgServerUnreachable e);
                    SetPending (key c); DeleteCache; Reload;
                    Print MsgDataPreserved])
           end
       end%list.
Proof.
  intros Hcf Hgo. eexists. split; [reflexivity|].
  unfold deactivateAction. unfold_run. rewrite Hcf.
  destruct force; simpl.
  - destruct (isOnline_reply env) as [[|]|e]; simpl; try reflexivity.
    destruct (deactivate_reply env (key c) (machineId env)); reflexivity.
  - destruct Hgo as [Hf | ->]; [discriminate|]. simpl.
    destruct (isOnline_reply env) as [[|]|e]; simpl; try reflexivity.
    destruct (deactivate_reply env (key c) (machineId env)); reflexivity.
Qed.

(** C6 — deactivation with a cached license. Once the deactivation goes
    ahead (forced or confirmed): if the probe reports no connection, or the
    online [deactivate] call is rejected, a pending record is set for the
    cached key and the cache file is deleted in the same run, so that
    [hasPendingDeactivation] then reports that key as pending and the cache
    is absent; if the online call succeeds, the cache file is deleted and
    no pending record is set (the pending slot is as before). *)
Theorem deactivate_fallback `{LicenseModules}
    (force : bool) (env : Env) (w : World) (c : LicenseRecord) :
  cacheFile w = Sealed c ->
  force = true \/ confirm_reply env = true ->
  (isOnline_reply env = Resolved false \/
   (isOnline_reply env = Resolved true /\
    exists e, deactivate_reply env (key c) (machineId env) = Rejected e) ->
   outcome (deactivateAction force env w) = Returned tt
   /\ cacheFile (world_after (deactivateAction force env w)) = NoFile
   /\ pendingFile (world_after (deactivateAction force env w))
      = Some (mkPending (key c) (now env))
   /\ outcome (hasPendingDeactivation env (world_after (deactivateAction force env w)))
      = Returned (mkPendingStatus true (Some (key c)))
   /\ In (SetPending (key c)) (trace (deactivateAction force env w))
   /\ In DeleteCache (trace (deactivateAction force env w)))
  /\
  (isOnline_reply env = Resolved true ->
   deactivate_reply env (key c) (machineId env) = Resolved tt ->
   outcome (deactivateAction force env w) = Returned tt
   /\ cacheFile (world_after (deactivateAction force env w)) = NoFile
   /\ pendingFile (world_after (deactivateAction force env w)) = pendingFile w
   /\ In DeleteCache (trace (deactivateAction force env w))
   /\ forall k, ~ In (SetPending k) (trace (deactivateAction force env w))).
Proof.
  intros Hcf Hgo.
  destruct (deactivate_run force env w c Hcf Hgo) as [prompt [Hprompt Hrun]].
  rewrite Hrun. clear Hrun. split.
  - intros [-> | [-> [e ->]]];
      rewrite outcome_mk, world_after_mk, trace_mk; simpl cacheFile; simpl pendingFile;
      (repeat split; [ subst prompt; destruct force; simpl; tauto .. ]).
  - intros -> ->. rewrite outcome_mk, world_after_mk, trace_mk. simpl cacheFile.
    simpl pendingFile. repeat split.
    + subst prompt; destruct force; simpl; tauto.
    + intros k Hin. subst prompt.
      destruct force; simpl in Hin;
        repeat (destruct Hin as [Hin | Hin]; [discriminate|]); exact Hin.
Qed.

(** The offline scenario of the specification: forced deactivation with
    no connection. *)
Lemma deactivate_fallback_witness :
  cacheFile (Sample.started (Sealed (Sample.activated ["pro.memory.*"])))
  = Sealed (Sample.activated ["pro.memory.*"])
  /\ isOnline_reply (Sample.offline (Sample.day 2)) = Resolved false
  /\ cacheFile (world_after
       (deactivateAction (H := SpecModel.modules) true (Sample.offline (Sample.day 2))
          (Sample.started (Sealed (Sample.activated ["pro.memory.*"]))))) = NoFile
  /\ pendingFile (world_after
       (deactivateAction (H := SpecModel.modules) true (Sample.offline (Sample.day 2))
          (Sample.started (Sealed (Sample.activated ["pro.memory.*"])))))
     = Some (mkPending Sample.a_key (Sample.day 2)).
Proof.
  split; [reflexivity|]. split; [reflexivity|].
  pose proof (proj1 (deactivate_fallback (H := SpecModel.modules) true
                       (Sample.offline (Sample.day 2))
                       (Sample.started (Sealed (Sample.activated ["pro.memory.*"])))
                       (Sample.activated ["pro.memory.*"])
                       eq_refl (or_introl eq_refl))
                    (or_introl eq_refl)) as Hoff.
  split; [exact (proj1 (proj2 Hoff)) | exact (proj1 (proj2 (proj2 Hoff)))].
Defined.

(** ** Runs of [activate] and [validate] *)

Section Runs.

Context `{LicenseModules}.

Lemma activationReport_run result env w :
  activationReport result env w =
  match report_throws (res_features result) (res_seats result) with
  | None => (Returned tt, w, [Print (MsgActivated result)])
  | Some message =>
      (Exited 1, w,
       [Print (MsgActivatedPartial result);
        Print (MsgActivationFailed (OtherError message))])
  end.
Proof.
  unfold activationReport.
  destruct (report_throws (res_features result) (res_seats result)); reflexivity.
Qed.

Lemma validationReport_run result env w :
  validationReport result env w =
  match report_throws (val_features result) (val_seats result) with
  | None => (Returned tt, w, [Print (MsgValidated result)])
  | Some message =>
      (Exited 1, w,
       [Print (MsgValidatedPartial result);
        Print (MsgValidationFailed (OtherError message))])
  end.
Proof.
  unfold validationReport.
  destruct (report_throws (val_features result) (val_seats result)); reflexivity.
Qed.

(** What [activateAction] does with a key that passed the format check, by
    the reply of the authority and the fate of the cache write. *)
Lemma activate_run key env w :
  key <> EmptyString ->
  validateKeyFormat key = true ->
  activateAction (Some key) env w =
  match activate_reply env key (machineId env) (aiosCoreVersion env) with
  | Rejected e =>
      (Exited 1, w,
       [Print (MsgActivating (maskKey key));
        ApiActivate key (machineId env) (aiosCoreVersion env);
        Print (MsgActivationFailed e)])
  | Resolved result =>
      match write_error env with
      | None =>
          (outcome (activationReport result env w),
           {| cacheFile := Sealed (cacheData result);
              pendingFile := pendingFile w;
              featureGate := new_FeatureGate |},
           [Print (MsgActivating (maskKey key));
            ApiActivate key (machineId env) (aiosCoreVersion env);
            WriteCache (cacheData result) true; Reload]
           ++ trace (activationReport result env w))
      | Some msg =>
          (outcome (activationReport result env w),
           {| cacheFile := cacheFile w;
              pendingFile := pendingFile w;
              featureGate := new_FeatureGate |},
           [Print (MsgActivating (maskKey key));
            ApiActivate key (machineId env) (aiosCoreVersion env);
            WriteCache (cacheData result) false; Print (MsgCacheNotSaved msg);
            Reload]
           ++ trace (activationReport result env w))
      end
  end%list.
Proof.
  intros Hne Hfmt. unfold activateAction. unfold_run.
  destruct (String.eqb_spec key EmptyString) as [->|_]; [congruence|].
  rewrite Hfmt. simpl.
  destruct (activate_reply env key (machineId env) (aiosCoreVersion env))
    as [result|e]; simpl; [|reflexivity].
  destruct (write_error env);
    destruct (report_throws (res_features result) (res_seats result)); reflexivity.
Qed.

(** What [validateAction] does in front of a readable cache. *)
Lemma validate_run env w c :
  cacheFile w = Sealed c ->
  validateAction env w =
  match validate_reply env (key c) (machineId env) with
  | Rejected e =>
      (Exited 1, w,
       [Print MsgValidating; ReadCache; Print (MsgKey (maskKey (key c)));
        ApiValidate (key c) (machineId env); Print (MsgValidationFailed e)])
  | Resolved result =>
      if valid result then
        match write_error env with
        | None =>
            (outcome (validationReport result env w),
             {| cacheFile := Sealed (updatedCache c result (now env));
                pendingFile := pendingFile w;
                featureGate := new_FeatureGate |},
             [Print MsgValidating; ReadCache; Print (MsgKey (maskKey (key c)));
              ApiValidate (key c) (machineId env);
              WriteCache (updatedCache c result (now env)) true; Reload]
             ++ trace (validationReport result env w))
        | Some msg =>
            (outcome (validationReport result env w),
             {| cacheFile := Sealed c;
                pendingFile := pendingFile w;
                featureGate := new_FeatureGate |},
             [Print MsgValidating; ReadCache; Print (MsgKey (maskKey (key c)));
              ApiValidate (key c) (machineId env);
              WriteCache (updatedCache c result (now env)) false;
              Print (MsgCacheNotUpdated msg); Reload]
             ++ trace (validationReport result env w))
        end
      else
        (Returned tt, w,
         [Print MsgValidating; ReadCache; Print (MsgKey (maskKey (key c)));
          ApiValidate (key c) (machineId env); Print MsgValidationRefused])
  end%list.
Proof.
  intros Hcf. unfold validateAction. unfold_run. rewrite Hcf. simpl.
  destruct (validate_reply env (key c) (machineId env)) as [result|e]; simpl;
    [|reflexivity].
  destruct (valid result); simpl; [|reflexivity].
  destruct (write_error env);
    destruct (report_throws (val_features result) (val_seats result)); simpl;
    unfold with_featureGate; rewrite ?Hcf; reflexivity.
Qed.

(** A success report only prints. *)
Lemma activationReport_prints result env w :
  forallb is_print (trace (activationReport result env w)) = true.
Proof.
  rewrite activationReport_run.
  destruct (report_throws (res_features result) (res_seats result)); reflexivity.
Qed.

Lemma validationReport_prints result env w :
  forallb is_print (trace (validationReport result env w)) = true.
Proof.
  rewrite validationReport_run.
  destruct (report_throws (val_features result) (val_seats result)); reflexivity.
Qed.

End Runs.

(** ** Reload after every mutation *)

Section Reloading.

Context `{LicenseModules}.

Lemma exec_not_stale c env w :
  stale_after false (trace (exec c env w)) = false.
Proof.
  destruct c as [k| |force|]; simpl exec;
    unfold activateAction, statusAction, deactivateAction, validateAction;
    unfold_run; unfold trace; split_run; reflexivity.
Qed.

Lemma exec_mutation_reloads c env w :
  existsb is_cache_mutation (trace (exec c env w)) = true ->
  In Reload (trace (exec c env w))
  /\ featureGate (world_after (exec c env w)) = new_FeatureGate.
Proof.
  destruct c as [k| |force|]; simpl exec;
    unfold activateAction, statusAction, deactivateAction, validateAction;
    unfold_run; unfold trace, world_after; split_run;
    (discriminate || (intros _; simpl; tauto)).
Qed.

(** After a command that mutated the cache, nothing of the gate the
    command started with is left. *)
Lemma exec_forgets_gate c env w g0 :
  existsb is_cache_mutation (trace (exec c env w)) = true ->
  world_after (exec c env (with_featureGate w g0)) = world_after (exec c env w).
Proof.
  destruct c as [k| |force|]; simpl exec;
    unfold activateAction, statusAction, deactivateAction, validateAction;
    unfold_run; unfold trace, world_after; split_run;
    (discriminate || congruence || reflexivity).
Qed.

(** [activateAction] writes the record of the reply and then reloads. *)
Lemma activate_writes_then_reloads key env w result :
  key <> EmptyString ->
  validateKeyFormat key = true ->
  activate_reply env key (machineId env) (aiosCoreVersion env) = Resolved result ->
  exists ok warning report,
    trace (activateAction (Some key) env w)
    = ([Print (MsgActivating (maskKey key));
        ApiActivate key (machineId env) (aiosCoreVersion env);
        WriteCache (cacheData result) ok]
       ++ warning ++ Reload :: report)%list
    /\ forallb is_print warning = true
    /\ forallb is_print report = true
    /\ featureGate (world_after (activateAction (Some key) env w)) = new_FeatureGate.
Proof.
  intros Hne Hfmt Hreply. rewrite (activate_run key env w Hne Hfmt), Hreply.
  destruct (write_error env) as [msg|].
  - exists false, [Print (MsgCacheNotSaved msg)], (trace (activationReport result env w)).
    rewrite trace_mk, world_after_mk. repeat split.
    apply activationReport_prints.
  - exists true, [], (trace (activationReport result env w)).
    rewrite trace_mk, world_after_mk. repeat split.
    apply activationReport_prints.
Qed.

(** [validateAction] writes the refreshed record and then reloads. *)
Lemma validate_writes_then_reloads env w c result :
  cacheFile w = Sealed c ->
  validate_reply env (key c) (machineId env) = Resolved result ->
  valid result = true ->
  exists ok warning report,
    trace (validateAction env w)
    = ([Print MsgValidating; ReadCache; Print (MsgKey (maskKey (key c)));
        ApiValidate (key c) (machineId env);
        WriteCache (updatedCache c result (now env)) ok]
       ++ warning ++ Reload :: report)%list
    /\ forallb is_print warning = true
    /\ forallb is_print report = true
    /\ featureGate (world_after (validateAction env w)) = new_FeatureGate.
Proof.
  intros Hcf Hreply Hvalid. rewrite (validate_run env w c Hcf), Hreply, Hvalid.
  destruct (write_error env) as [msg|].
  - exists false, [Print (MsgCacheNotUpdated msg)],
      (trace (validationReport result env w)).
    rewrite trace_mk, world_after_mk. repeat split.
    apply validationReport_prints.
  - exists true, [], (trace (validationReport result env w)).
    rewrite trace_mk, world_after_mk. repeat split.
    apply validationReport_prints.
Qed.

(** [deactivateAction], once it goes ahead and the probe has answered,
    deletes the cache and then reloads. *)
Lemma deactivate_deletes_then_reloads force env w c online :
  cacheFile w = Sealed c ->
  force = true \/ confirm_reply env = true ->
  isOnline_reply env = Resolved online ->
  exists before,
    trace (deactivateAction force env w)
    = (before ++ [DeleteCache; Reload; Print MsgDataPreserved])%list
    /\ existsb is_cache_mutation before = false
    /\ cacheFile (world_after (deactivateAction force env w)) = NoFile
    /\ featureGate (world_after (deactivateAction force env w)) = new_FeatureGate.
Proof.
  intros Hcf Hgo Hprobe.
  destruct (deactivate_run force env w c Hcf Hgo) as [prompt [Hprompt Hrun]].
  rewrite Hrun, Hprobe. clear Hrun.
  destruct online;
    [destruct (deactivate_reply env (key c) (machineId env)) as [[]|e]|];
    rewrite trace_mk, world_after_mk.
  - exists ([ReadCache] ++ prompt
            ++ [Print MsgDeactivating; ApiIsOnline;
                ApiDeactivate (key c) (machineId env); Print MsgDeactivatedOnline])%list.
    split; [rewrite <- !List.app_assoc; reflexivity|].
    split; [subst prompt; destruct force; reflexivity|]. split; reflexivity.
  - exists ([ReadCache] ++ prompt
            ++ [Print MsgDeactivating; ApiIsOnline;
                ApiDeactivate (key c) (machineId env);
                Print (MsgServerUnreachable e); SetPending (key c)])%list.
    split; [rewrite <- !List.app_assoc; reflexivity|].
    split; [subst prompt; destruct force; reflexivity|]. split; reflexivity.
  - exists ([ReadCache] ++ prompt
            ++ [Print MsgDeactivating; ApiIsOnline; Print MsgOfflineDeactivation;
                SetPending (key c)])%list.
    split; [rewrite <- !List.app_assoc; reflexivity|].
    split; [subst prompt; destruct force; reflexivity|]. split; reflexivity.
Qed.

End Reloading.

(** C9 — reload after every cache mutation. [activateAction] hands the
    record of an accepted reply to [writeLicenseCache] and then calls
    [featureGate.reload()]; [validateAction] does so with the refreshed
    record of a [valid: true] reply; [deactivateAction], once it goes ahead
    and the probe has answered, calls [deleteLicenseCache] and then
    [reload()]. Between the mutation and the reload there is at most the
    warning of a failed write, after the reload only the report, also when
    the report fails. On every path of every command each successful write
    and each delete is followed by a reload; after a command that mutated
    the cache the gate holds no snapshot, and an availability decision
    taken next in the same process does not depend on the gate the command
    started with. *)
Theorem reload_after_mutation `{LicenseModules} (env : Env) (w : World) :
  (forall key result,
     key <> EmptyString ->
     validateKeyFormat key = true ->
     activate_reply env key (machineId env) (aiosCoreVersion env) = Resolved result ->
     exists ok warning report,
       trace (activateAction (Some key) env w)
       = ([Print (MsgActivating (maskKey key));
           ApiActivate key (machineId env) (aiosCoreVersion env);
           WriteCache (cacheData result) ok]
          ++ warning ++ Reload :: report)%list
       /\ forallb is_print warning = true
       /\ forallb is_print report = true
       /\ featureGate (world_after (activateAction (Some key) env w))
          = new_FeatureGate)
  /\ (forall c result,
        cacheFile w = Sealed c ->
        validate_reply env (key c) (machineId env) = Resolved result ->
        valid result = true ->
        exists ok warning report,
          trace (validateAction env w)
          = ([Print MsgValidating; ReadCache; Print (MsgKey (maskKey (key c)));
              ApiValidate (key c) (machineId env);
              WriteCache (updatedCache c result (now env)) ok]
             ++ warning ++ Reload :: report)%list
          /\ forallb is_print warning = true
          /\ forallb is_print report = true
          /\ featureGate (world_after (validateAction env w)) = new_FeatureGate)
  /\ (forall force c online,
        cacheFile w = Sealed c ->
        force = true \/ confirm_reply env = true ->
        isOnline_reply env = Resolved online ->
        exists before,
          trace (deactivateAction force env w)
          = (before ++ [DeleteCache; Reload; Print MsgDataPreserved])%list
          /\ existsb is_cache_mutation before = false
          /\ cacheFile (world_after (deactivateAction force env w)) = NoFile
          /\ featureGate (world_after (deactivateAction force env w))
             = new_FeatureGate)
  /\ (forall c,
        stale_after false (trace (exec c env w)) = false
        /\ (existsb is_cache_mutation (trace (exec c env w)) = true ->
            In Reload (trace (exec c env w))
            /\ featureGate (world_after (exec c env w)) = new_FeatureGate
            /\ forall g0 featureId env',
                 isAvailable featureId env'
                   (world_after (exec c env (with_featureGate w g0)))
                 = isAvailable featureId env' (world_after (exec c env w)))).
Proof.
  split; [intros; now apply activate_writes_then_reloads|].
  split; [intros; now apply validate_writes_then_reloads|].
  split; [intros; now apply (deactivate_deletes_then_reloads force env w c online)|].
  intros c. split; [apply exec_not_stale|]. intros Hmut.
  destruct (exec_mutation_reloads c env w Hmut) as [Hin Hgate].
  repeat split; try assumption.
  intros g0 featureId env'. now rewrite (exec_forgets_gate c env w g0 Hmut).
Qed.

(** A gate that had memoized the grant [pro.squads.*]: the activation, the
    validation and the deactivation each mutate the cache and leave the
    gate without its snapshot. *)
Lemma reload_after_mutation_witness :
  (exists ok warning report,
     trace (activateAction (H := SpecModel.modules) (Some Sample.a_key)
              (Sample.online (Sample.day 3) true) Sample.memoized)
     = ([Print (MsgActivating "PRO-AB12-****-****-GH78");
         ApiActivate Sample.a_key "machine-1" "1.0.0";
         WriteCache (cacheData Sample.granted) ok]
        ++ warning ++ Reload :: report)%list
     /\ forallb is_print warning = true
     /\ forallb is_print report = true
     /\ featureGate
          (world_after
             (activateAction (H := SpecModel.modules) (Some Sample.a_key)
                (Sample.online (Sample.day 3) true) Sample.memoized))
        = new_FeatureGate)
  /\ (exists ok warning report,
        trace (validateAction (H := SpecModel.modules)
                 (Sample.online (Sample.day 3) true) Sample.memoized)
        = ([Print MsgValidating; ReadCache;
            Print (MsgKey "PRO-AB12-****-****-GH78");
            ApiValidate Sample.a_key "machine-1";
            WriteCache (updatedCache (Sample.activated ["pro.squads.*"])
                          (Sample.verdict true) (Sample.day 3)) ok]
           ++ warning ++ Reload :: report)%list
        /\ forallb is_print warning = true
        /\ forallb is_print report = true
        /\ featureGate
             (world_after
                (validateAction (H := SpecModel.modules)
                   (Sample.online (Sample.day 3) true) Sample.memoized))
           = new_FeatureGate)
  /\ (exists before,
        trace (deactivateAction (H := SpecModel.modules) true
                 (Sample.offline (Sample.day 3)) Sample.memoized)
        = (before ++ [DeleteCache; Reload; Print MsgDataPreserved])%list
        /\ existsb is_cache_mutation before = false
        /\ cacheFile
             (world_after
                (deactivateAction (H := SpecModel.modules) true
                   (Sample.offline (Sample.day 3)) Sample.memoized))
           = NoFile
        /\ featureGate
             (world_after
                (deactivateAction (H := SpecModel.modules) true
                   (Sample.offline (Sample.day 3)) Sample.memoized))
           = new_FeatureGate).
Proof.
  split; [|split].
  - apply (proj1 (reload_after_mutation (H := SpecModel.modules)
                    (Sample.online (Sample.day 3) true) Sample.memoized)
             Sample.a_key Sample.granted).
    + discriminate.
    + reflexivity.
    + reflexivity.
  - apply (proj1 (proj2 (reload_after_mutation (H := SpecModel.modules)
                           (Sample.online (Sample.day 3) true) Sample.memoized))
             (Sample.activated ["pro.squads.*"]) (Sample.verdict true));
      reflexivity.
  - apply (proj1 (proj2 (proj2
                   (reload_after_mutation (H := SpecModel.modules)
                      (Sample.offline (Sample.day 3)) Sample.memoized)))
             true (Sample.activated ["pro.squads.*"]) false).
    + reflexivity.
    + left. reflexivity.
    + reflexivity.
Defined.

(** ** [lastValidated] *)

Section Stamps.

Context `{LicenseModules}.

Lemma validation_stamps_app t1 t2 :
  validation_stamps (t1 ++ t2) = (validation_stamps t1 ++ validation_stamps t2)%list.
Proof.
  induction t1 as [|e t1 IH]; [reflexivity|].
  destruct e; simpl; try exact IH.
  destruct (lastValidated r); simpl; now rewrite IH.
Qed.

(** A command stamps at most one record, with its own clock. *)
Lemma exec_stamps c env w :
  validation_stamps (trace (exec c env w)) = []
  \/ validation_stamps (trace (exec c env w)) = [now env].
Proof.
  destruct c as [k| |force|]; simpl exec;
    unfold activateAction, statusAction, deactivateAction, validateAction;
    unfold_run; unfold trace; split_run; auto.
Qed.

Lemma session_stamps_are_clocks cmds :
  forall w s, In s (validation_stamps (session_trace cmds w)) ->
              In s (map clock cmds).
Proof.
  induction cmds as [|[c env] rest IH]; intros w s Hin; [contradiction|].
  simpl in Hin. rewrite validation_stamps_app in Hin.
  apply in_app_or in Hin. destruct Hin as [Hin | Hin].
  - left. unfold clock. simpl.
    destruct (exec_stamps c env w) as [Hs | Hs]; rewrite Hs in Hin.
    + contradiction.
    + destruct Hin as [<- | []]. reflexivity.
  - right. now apply (IH _ _ Hin).
Qed.

Lemma session_stamps_sorted cmds :
  forall w, Sorted Z.le (map clock cmds) ->
            Sorted Z.le (validation_stamps (session_trace cmds w)).
Proof.
  induction cmds as [|[c env] rest IH]; intros w Hsorted; [constructor|].
  simpl. rewrite validation_stamps_app.
  assert (Hstrong : StronglySorted Z.le (map clock ((c, env) :: rest))).
  { apply Sorted_StronglySorted; [|assumption].
    intros x y z. apply Z.le_trans. }
  simpl in Hsorted, Hstrong.
  apply Sorted_inv in Hsorted. destruct Hsorted as [Hrest _].
  apply StronglySorted_inv in Hstrong. destruct Hstrong as [_ Hall].
  specialize (IH (world_after (exec c env w)) Hrest).
  destruct (exec_stamps c env w) as [-> | ->]; simpl; [exact IH|].
  constructor; [exact IH|].
  destruct (validation_stamps (session_trace rest (world_after (exec c env w))))
    as [|s l] eqn:Hst; constructor.
  rewrite Forall_forall in Hall. apply Hall.
  apply (session_stamps_are_clocks rest (world_after (exec c env w))).
  rewrite Hst. now left.
Qed.

Lemma activate_writes_no_stamp k env w r ok :
  In (WriteCache r ok) (trace (activateAction k env w)) ->
  lastValidated r = None.
Proof.
  unfold activateAction; unfold_run; unfold trace; split_run;
    intros Hin;
    repeat (destruct Hin as [Hin | Hin]; [try discriminate|]);
    try contradiction;
    injection Hin as <- _; reflexivity.
Qed.

Lemma validate_writes_stamp env w r ok :
  In (WriteCache r ok) (trace (validateAction env w)) ->
  lastValidated r = Some (now env).
Proof.
  unfold validateAction; unfold_run; unfold trace; split_run;
    intros Hin;
    repeat (destruct Hin as [Hin | Hin]; [try discriminate|]);
    try contradiction;
    injection Hin as <- _; reflexivity.
Qed.

Lemma validate_success_writes env w c result :
  cacheFile w = Sealed c ->
  validate_reply env (key c) (machineId env) = Resolved result ->
  valid result = true ->
  exists ok,
    In (WriteCache (updatedCache c result (now env)) ok)
       (trace (validateAction env w)).
Proof.
  intros Hcf Hreply Hvalid. rewrite (validate_run env w c Hcf), Hreply, Hvalid.
  destruct (write_error env); rewrite trace_mk; eexists; simpl; eauto 6.
Qed.

Lemma activate_success_writes key env w result :
  key <> EmptyString ->
  validateKeyFormat key = true ->
  activate_reply env key (machineId env) (aiosCoreVersion env) = Resolved result ->
  exists ok,
    In (WriteCache (cacheData result) ok) (trace (activateAction (Some key) env w)).
Proof.
  intros Hne Hfmt Hreply. rewrite (activate_run key env w Hne Hfmt), Hreply.
  destruct (write_error env); rewrite trace_mk; eexists; simpl; eauto 6.
Qed.

End Stamps.

(** C4 — [lastValidated]. The record [activateAction] hands to
    [writeLicenseCache] has no [lastValidated]; the record
    [validateAction] hands to it after a [valid: true] reply is the cached
    record refreshed and stamped with the current time; hence, over any
    session of commands whose clock readings do not decrease, the stamps
    written are in non-decreasing order. *)
Theorem lastValidated_monotone `{LicenseModules}
    (cmds : list (Command * Env)) (w : World) :
  Sorted Z.le (map clock cmds) ->
  Sorted Z.le (validation_stamps (session_trace cmds w))
  /\ (forall k env w0 r ok,
        In (WriteCache r ok) (trace (activateAction k env w0)) ->
        lastValidated r = None)
  /\ (forall key env w0 result,
        key <> EmptyString ->
        validateKeyFormat key = true ->
        activate_reply env key (machineId env) (aiosCoreVersion env) = Resolved result ->
        lastValidated (cacheData result) = None
        /\ exists ok,
             In (WriteCache (cacheData result) ok)
                (trace (activateAction (Some key) env w0)))
  /\ (forall env w0 r ok,
        In (WriteCache r ok) (trace (validateAction env w0)) ->
        lastValidated r = Some (now env))
  /\ (forall env w0 c result,
        cacheFile w0 = Sealed c ->
        validate_reply env (key c) (machineId env) = Resolved result ->
        valid result = true ->
        lastValidated (updatedCache c result (now env)) = Some (now env)
        /\ exists ok,
             In (WriteCache (updatedCache c result (now env)) ok)
                (trace (validateAction env w0))).
Proof.
  intros Hsorted. split; [now apply session_stamps_sorted|].
  split; [apply activate_writes_no_stamp|].
  split; [intros; split; [reflexivity | now apply activate_success_writes]|].
  split; [apply validate_writes_stamp|].
  intros; split; [reflexivity | now apply validate_success_writes].
Qed.

Lemma lastValidated_monotone_witness :
  Sorted Z.le (map clock Sample.two_validations)
  /\ validation_stamps
       (session_trace (H := SpecModel.modules) Sample.two_validations
          (Sample.started NoFile))
     = [Sample.day 10; Sample.day 20]
  /\ Sorted Z.le
       (validation_stamps
          (session_trace (H := SpecModel.modules) Sample.two_validations
             (Sample.started NoFile))).
Proof.
  assert (Hclock : Sorted Z.le (map clock Sample.two_validations)).
  { simpl. unfold clock, Sample.day, DAY_MS. simpl.
    repeat constructor; lia. }
  split; [exact Hclock|]. split; [reflexivity|].
  exact (proj1 (lastValidated_monotone (H := SpecModel.modules)
                  Sample.two_validations (Sample.started NoFile) Hclock)).
Defined.

(** ** Where the commands part from the specification *)

(** The cache-validity line of [statusAction] is computed from
    [activatedAt] alone: changing [lastValidated] changes nothing in what
    the command prints about the cache. *)
Lemma status_ignores_lastValidated `{LicenseModules}
    (env : Env) (pf : option Pending) (g : FeatureGate) (c : LicenseRecord)
    (activatedDate : Z) :
  activatedAt c = Some activatedDate ->
  let expiryDate := activatedDate + JS.num_or (cacheValidDays c) 30 * DAY_MS in
  let daysRemaining := JS.ceil_div (expiryDate - now env) DAY_MS in
  In (Print (if JS.valid_time activatedDate && JS.valid_time expiryDate
             then if daysRemaining >? 0
                  then MsgCacheValidUntil expiryDate daysRemaining
                  else MsgCacheExpired expiryDate
             else MsgCacheExpiredInvalidDate))
     (trace (statusAction env (mkWorld (Sealed c) pf g))).
Proof.
  intros Hact. unfold statusAction. unfold_run. unfold trace. simpl.
  rewrite Hact. unfold DAY_MS.
  replace (activatedDate + JS.num_or (cacheValidDays c) 30 * 24 * 60 * 60 * 1000)
    with (activatedDate + JS.num_or (cacheValidDays c) 30 * (24 * 60 * 60 * 1000))
    by lia.
  split_run; auto 12.
Qed.

(** C3 — at the failing input. A record activated on day 0 and revalidated
    on day 40, with 30 days of cache validity, looked at on day 45: the
    boundary of the specification is day 70 (25 days remaining, not
    expired), while [statusAction], whatever the helper modules are,
    reports the cache as expired on day 30; with the helpers of the
    specification the same report shows the state [Active]. *)
Theorem status_expiry_ignores_revalidation `{LicenseModules} :
  SpecModel.expiryBoundary (Sample.revalidated ["pro.memory.*"]) = Some (Sample.day 70)
  /\ SpecModel.daysRemaining (Sample.revalidated ["pro.memory.*"]) (Sample.day 45)
     = Some 25
  /\ SpecModel.isExpired (Sample.revalidated ["pro.memory.*"]) (Sample.day 45) = false
  /\ In (Print (MsgCacheExpired (Sample.day 30)))
        (trace (statusAction (Sample.offline (Sample.day 45))
                  (Sample.started (Sealed (Sample.revalidated ["pro.memory.*"])))))
  /\ trace (statusAction (H := SpecModel.modules) (Sample.offline (Sample.day 45))
              (Sample.started (Sealed (Sample.revalidated ["pro.memory.*"]))))
     = [Print MsgStatusHeader;
        ReadCache;
        Print (MsgStatusState "Active");
        Print (MsgKey "PRO-AB12-****-****-GH78");
        Print (MsgStatusFeatures ["pro.memory.*"]);
        Print (MsgStatusSeats (mkSeats 1 5));
        Print (MsgCacheExpired (Sample.day 30));
        Print (MsgNextValidation true)].
Proof.
  split; [reflexivity|]. split; [reflexivity|]. split; [reflexivity|].
  split; [|reflexivity].
  exact (status_ignores_lastValidated (Sample.offline (Sample.day 45)) None
           new_FeatureGate (Sample.revalidated ["pro.memory.*"]) 0 eq_refl).
Qed.

(** Nothing in [validateAction] or [activateAction] touches the pending
    slot. *)
Lemma pending_survives `{LicenseModules} (c : Command) (env : Env) (w : World) :
  (forall force, c <> CmdDeactivate force) ->
  pendingFile (world_after (exec c env w)) = pendingFile w
  /\ ~ In ClearPending (trace (exec c env w)).
Proof.
  intros Hc.
  destruct c as [k| |force|]; try (now destruct (Hc force)); simpl exec;
    unfold activateAction, statusAction, validateAction;
    unfold_run; unfold trace, world_after; split_run;
    (split; [reflexivity || congruence | intros Hin;
       repeat (destruct Hin as [Hin | Hin]; [discriminate|]); exact Hin]).
Qed.

(** C7 — at the failing input. After a forced deactivation with no
    connection the pending record is set and the cache is gone; a
    following [validate], online, finds no cache and returns without
    asking the authority, and the pending record is still there, whatever
    the helper modules are. With the helpers of the specification it is
    still there after reactivating and validating successfully, too. *)
Theorem pending_not_cleared_by_validate `{LicenseModules} :
  pendingFile
    (world_after
       (deactivateAction true (Sample.offline (Sample.day 2))
          (Sample.started (Sealed (Sample.activated ["pro.memory.*"])))))
  = Some (mkPending Sample.a_key (Sample.day 2))
  /\ validateAction (Sample.online (Sample.day 3) true)
       (world_after
          (deactivateAction true (Sample.offline (Sample.day 2))
             (Sample.started (Sealed (Sample.activated ["pro.memory.*"])))))
     = (Returned tt,
        world_after
          (deactivateAction true (Sample.offline (Sample.day 2))
             (Sample.started (Sealed (Sample.activated ["pro.memory.*"])))),
        [Print MsgValidating; ReadCache; Print MsgNoLicenseActivated])
  /\ outcome
       (hasPendingDeactivation (Sample.online (Sample.day 3) true)
          (session_world
             [(CmdDeactivate true, Sample.offline (Sample.day 2));
              (CmdValidate, Sample.online (Sample.day 3) true)]
             (Sample.started (Sealed (Sample.activated ["pro.memory.*"])))))
     = Returned (mkPendingStatus true (Some Sample.a_key))
  /\ cacheFile
       (session_world (H := SpecModel.modules)
          [(CmdDeactivate true, Sample.offline (Sample.day 2));
           (CmdActivate (Some Sample.a_key), Sample.online (Sample.day 3) true);
           (CmdValidate, Sample.online (Sample.day 4) true)]
          (Sample.started (Sealed (Sample.activated ["pro.memory.*"]))))
     = Sealed (updatedCache (cacheData Sample.granted) (Sample.verdict true)
                            (Sample.day 4))
  /\ outcome
       (hasPendingDeactivation (Sample.online (Sample.day 4) true)
          (session_world (H := SpecModel.modules)
             [(CmdDeactivate true, Sample.offline (Sample.day 2));
              (CmdActivate (Some Sample.a_key), Sample.online (Sample.day 3) true);
              (CmdValidate, Sample.online (Sample.day 4) true)]
             (Sample.started (Sealed (Sample.activated ["pro.memory.*"])))))
     = Returned (mkPendingStatus true (Some Sample.a_key)).
Proof. repeat split; reflexivity. Qed.

(** * Further properties of the sources *)

(** ** The gate *)

Section GateMore.

Context `{LicenseModules}.

(** [isAvailable] always returns; it never exits the process. *)
Lemma isAvailable_returns env w featureId :
  exists b, outcome (isAvailable featureId env w) = Returned b.
Proof.
  destruct w as [cf pf [[c|] fs]].
  - rewrite isAvailable_memoized. now eexists.
  - rewrite isAvailable_unloaded by reflexivity. now eexists.
Qed.

Lemma _loadCache_trace env w :
  trace (_loadCache env w)
  = ReadCache ::
    match licenseState (readable (cacheFile w)) (now env) with
    | Grace => [Print MsgGraceWarning]
    | _ => []
    end.
Proof.
  unfold _loadCache, bind, readLicenseCache, Date_now, ask, set_gate, console, emit,
    trace, licenseState.
  destruct (cacheFile w) as [| |c]; simpl; try reflexivity.
  destruct (isExpired c (now env)); simpl; [|reflexivity].
  destruct (isInGracePeriod c (now env)); reflexivity.
Qed.

Lemma _loadCache_pending env w :
  pendingFile (world_after (_loadCache env w)) = pendingFile w.
Proof.
  unfold _loadCache, bind, readLicenseCache, Date_now, ask, set_gate, console, emit,
    world_after.
  destruct (cacheFile w) as [| |c]; simpl; try reflexivity.
  destruct (isExpired c (now env)); simpl; [|reflexivity].
  destruct (isInGracePeriod c (now env)); reflexivity.
Qed.

Lemma isAvailable_each_cons env w i ids :
  trace (isAvailable_each (i :: ids) env w)
  = (trace (isAvailable i env w)
     ++ trace (isAvailable_each ids env (world_after (isAvailable i env w))))%list
  /\ world_after (isAvailable_each (i :: ids) env w)
     = world_after (isAvailable_each ids env (world_after (isAvailable i env w))).
Proof.
  assert (Heach : forall l w0, exists bs,
             outcome (isAvailable_each l env w0) = Returned bs).
  { induction l as [|j l IH]; intros w0; [now eexists|].
    simpl. unfold bind at 1.
    destruct (isAvailable_returns env w0 j) as [b Hb].
    destruct (isAvailable j env w0) as [[o w1] t1]. unfold outcome in Hb.
    simpl in Hb. subst o. unfold bind at 1.
    destruct (IH w1) as [bs Hbs].
    destruct (isAvailable_each l env w1) as [[o2 w2] t2]. unfold outcome in Hbs.
    simpl in Hbs. subst o2. now eexists. }
  simpl. unfold bind at 1 3.
  destruct (isAvailable_returns env w i) as [b Hb].
  destruct (isAvailable i env w) as [[o w1] t1]. unfold outcome in Hb.
  simpl in Hb. subst o. unfold bind at 1 2.
  destruct (Heach ids w1) as [bs Hbs].
  rewrite trace_mk, world_after_mk.
  destruct (isAvailable_each ids env w1) as [[o2 w2] t2]. unfold outcome in Hbs.
  simpl in Hbs. subst o2. simpl. unfold trace, world_after. simpl.
  now rewrite app_nil_r.
Qed.

Lemma count_reads_app t1 t2 :
  count_reads (t1 ++ t2) = (count_reads t1 + count_reads t2)%nat.
Proof. unfold count_reads. now rewrite filter_app, List.length_app. Qed.

Lemma count_grace_warnings_app t1 t2 :
  count_grace_warnings (t1 ++ t2)
  = (count_grace_warnings t1 + count_grace_warnings t2)%nat.
Proof. unfold count_grace_warnings. now rewrite filter_app, List.length_app. Qed.

(** A gate that holds a snapshot answers any number of queries without an
    event and stays as it is. *)
Lemma isAvailable_each_memoized env cf pf c fs ids :
  trace (isAvailable_each ids env (mkWorld cf pf (mkFeatureGate (Some c) fs))) = []
  /\ world_after (isAvailable_each ids env (mkWorld cf pf (mkFeatureGate (Some c) fs)))
     = mkWorld cf pf (mkFeatureGate (Some c) fs).
Proof.
  induction ids as [|i ids IH]; [now split|].
  destruct (isAvailable_each_cons env (mkWorld cf pf (mkFeatureGate (Some c) fs)) i ids)
    as [Ht Hw].
  rewrite Ht, Hw, isAvailable_memoized, trace_mk, world_after_mk.
  exact IH.
Qed.

End GateMore.

(** X1 — [isAvailable] is local. A query always returns (it never exits
    the process); all it does besides answering is read the cache file, at
    most once, and possibly print the grace warning: no authority call, no
    cache write or delete, no pending record; the pending slot and what
    can be read from the cache file are as before. *)
Theorem isAvailable_is_local `{LicenseModules}
    (env : Env) (w : World) (featureId : string) :
  (exists b, outcome (isAvailable featureId env w) = Returned b)
  /\ forallb is_passive (trace (isAvailable featureId env w)) = true
  /\ (count_reads (trace (isAvailable featureId env w)) <= 1)%nat
  /\ pendingFile (world_after (isAvailable featureId env w)) = pendingFile w
  /\ readable (cacheFile (world_after (isAvailable featureId env w)))
     = readable (cacheFile w).
Proof.
  split; [apply isAvailable_returns|].
  destruct w as [cf pf [[c|] fs]].
  - rewrite isAvailable_memoized, trace_mk, world_after_mk. simpl.
    repeat split; auto.
  - rewrite isAvailable_unloaded by reflexivity. cbv zeta.
    rewrite trace_mk, world_after_mk, _loadCache_trace, _loadCache_pending,
      _loadCache_readable.
    destruct (licenseState _ _); simpl; repeat split; auto.
Qed.

(** X2 — when the cache file is read. Queries put to a gate without a
    snapshot: while the license state is [NotActivated] or [Expired], every
    single query reads the cache file again; with a usable license (not
    expired, or within grace) only the first query reads it, and the grace
    warning is printed once, by that first query, if the record is
    expired. *)
Theorem isAvailable_reads `{LicenseModules}
    (env : Env) (w : World) (ids : list string) :
  _cache (featureGate w) = None ->
  (denied w env ->
   count_reads (trace (isAvailable_each ids env w)) = List.length ids)
  /\ (forall c,
        cacheFile w = Sealed c ->
        isExpired c (now env) = false \/ isInGracePeriod c (now env) = true ->
        ids <> [] ->
        count_reads (trace (isAvailable_each ids env w)) = 1%nat
        /\ count_grace_warnings (trace (isAvailable_each ids env w))
           = if isExpired c (now env) then 1%nat else 0%nat).
Proof.
  intros Hnone. split.
  - revert w Hnone. induction ids as [|i ids IH]; intros w Hnone Hd; [reflexivity|].
    destruct (isAvailable_each_cons env w i ids) as [Ht _]. rewrite Ht.
    destruct (isAvailable_denied env w i Hnone Hd) as [_ [Hnone' Hd']].
    rewrite count_reads_app, (IH _ Hnone' Hd').
    rewrite (isAvailable_unloaded env w i Hnone). cbv zeta.
    rewrite trace_mk, _loadCache_trace. now destruct Hd as [-> | ->].
  - intros c Hcf Hok Hne. destruct ids as [|i ids]; [congruence|].
    destruct (isAvailable_each_cons env w i ids) as [Ht _]. rewrite Ht.
    rewrite count_reads_app, count_grace_warnings_app.
    rewrite (isAvailable_unloaded env w i Hnone). cbv zeta.
    rewrite trace_mk, world_after_mk.
    assert (Hgate : _cache (featureGate (world_after (_loadCache env w))) = Some c).
    { rewrite _loadCache_gate, Hcf. unfold licenseState. simpl.
      destruct (isExpired c (now env)); simpl; [|reflexivity].
      destruct (isInGracePeriod c (now env)); simpl; [reflexivity|].
      destruct Hok; discriminate. }
    destruct (world_after (_loadCache env w)) as [cf pf [oc fs]]. simpl in Hgate.
    subst oc.
    destruct (isAvailable_each_memoized env cf pf c fs ids) as [-> _].
    rewrite _loadCache_trace, Hcf. unfold licenseState. simpl.
    destruct (isExpired c (now env)); simpl; [|split; reflexivity].
    destruct (isInGracePeriod c (now env)); simpl; [split; reflexivity|].
    destruct Hok; discriminate.
Qed.

(** Three queries within grace: one read, one warning. *)
Lemma isAvailable_reads_witness :
  _cache (featureGate (Sample.started (Sealed (Sample.activated ["pro.memory.*"]))))
  = None
  /\ count_reads
       (trace (isAvailable_each (H := SpecModel.modules)
                 ["pro.memory.analytics"; "pro.cli.analytics"; "pro.memory.persistent"]
                 (Sample.offline (Sample.day 31))
                 (Sample.started (Sealed (Sample.activated ["pro.memory.*"])))))
     = 1%nat
  /\ count_grace_warnings
       (trace (isAvailable_each (H := SpecModel.modules)
                 ["pro.memory.analytics"; "pro.cli.analytics"; "pro.memory.persistent"]
                 (Sample.offline (Sample.day 31))
                 (Sample.started (Sealed (Sample.activated ["pro.memory.*"])))))
     = 1%nat.
Proof.
  split; [reflexivity|].
  exact (proj2 (isAvailable_reads (H := SpecModel.modules)
                  (Sample.offline (Sample.day 31))
                  (Sample.started (Sealed (Sample.activated ["pro.memory.*"])))
                  ["pro.memory.analytics"; "pro.cli.analytics"; "pro.memory.persistent"]
                  eq_refl)
           (Sample.activated ["pro.memory.*"]) eq_refl (or_intror eq_refl)
           ltac:(discriminate)).
Defined.

(** X3 — a wildcard grant does not grant its stem. The grant [p.*] alone
    gives no feature ID that is not longer than [p]: in particular not [p]
    itself ([pro.squads.*] does not grant [pro.squads]). *)
Theorem wildcard_excludes_stem `{LicenseModules}
    (env : Env) (cf : CacheFile) (pf : option Pending) (c : LicenseRecord)
    (p featureId : string) :
  (String.length featureId <= String.length p)%nat ->
  outcome (isAvailable featureId env
             (mkWorld cf pf (mkFeatureGate (Some c) [p ++ ".*"])))
  = Returned false.
Proof.
  intros Hlen. rewrite isAvailable_memoized, outcome_mk. f_equal.
  destruct (decide [p ++ ".*"] featureId) eqn:Hdec; [|reflexivity].
  apply decide_iff in Hdec.
  destruct Hdec as [g [[<-|[]] [[q [Hq [rest ->]]] | [_ ->]]]].
  - assert (Hpq : p ++ "." = q ++ ".").
    { rewrite <- (slice_0_m1_wildcard p), <- (slice_0_m1_wildcard q). now rewrite Hq. }
    rewrite <- Hpq in Hlen. rewrite !length_app in Hlen. simpl in Hlen. lia.
  - rewrite length_app in Hlen. simpl in Hlen. lia.
Qed.

Lemma wildcard_excludes_stem_witness :
  (String.length "pro.squads" <= String.length "pro.squads")%nat
  /\ outcome (isAvailable (H := SpecModel.modules) "pro.squads" (Sample.offline 0)
                (mkWorld NoFile None
                   (mkFeatureGate (Some (Sample.activated ["pro.squads.*"]))
                                  ["pro.squads" ++ ".*"])))
     = Returned false.
Proof.
  split; [apply le_n|].
  exact (wildcard_excludes_stem (H := SpecModel.modules) (Sample.offline 0) NoFile None
           (Sample.activated ["pro.squads.*"]) "pro.squads" "pro.squads" (le_n _)).
Defined.

(** X4 — grants only add. A feature available under a set of grants is
    available under every set that contains those grants; so two gates
    whose feature sets have the same members answer alike, whatever the
    order of the grants. *)
Theorem grants_only_add `{LicenseModules}
    (env : Env) (cf : CacheFile) (pf : option Pending) (c : LicenseRecord)
    (fs gs : list string) (featureId : string) :
  (forall g, In g fs -> In g gs) ->
  outcome (isAvailable featureId env (mkWorld cf pf (mkFeatureGate (Some c) fs)))
  = Returned true ->
  outcome (isAvailable featureId env (mkWorld cf pf (mkFeatureGate (Some c) gs)))
  = Returned true.
Proof.
  intros Hincl. rewrite !isAvailable_memoized, !outcome_mk.
  intros [= Hdec]. f_equal. apply decide_iff. apply decide_iff in Hdec.
  destruct Hdec as [g [Hin Hm]]. exists g. auto.
Qed.

Lemma grants_only_add_witness :
  (forall g, In g ["pro.memory.*"] -> In g ["pro.cli.analytics"; "pro.memory.*"])
  /\ outcome (isAvailable (H := SpecModel.modules) "pro.memory.analytics"
                (Sample.offline 0)
                (mkWorld NoFile None
                   (mkFeatureGate (Some (Sample.activated ["pro.memory.*"]))
                                  ["pro.cli.analytics"; "pro.memory.*"])))
     = Returned true.
Proof.
  assert (Hincl : forall g, In g ["pro.memory.*"] ->
                            In g ["pro.cli.analytics"; "pro.memory.*"])
    by (intros g [<-|[]]; right; now left).
  split; [exact Hincl|].
  exact (grants_only_add (H := SpecModel.modules) (Sample.offline 0) NoFile None
           (Sample.activated ["pro.memory.*"]) ["pro.memory.*"]
           ["pro.cli.analytics"; "pro.memory.*"] "pro.memory.analytics"
           Hincl eq_refl).
Defined.

(** X5 — [require]. On a gate that holds a snapshot, [require] returns
    normally exactly when one of the grants matches the feature ID and
    otherwise throws a [ProFeatureError] that carries that ID and the
    four-line message; on a gate without a snapshot, while the license
    state is [NotActivated] or [Expired], it throws for every feature. *)
Theorem require_gates `{LicenseModules} (featureId friendlyName : string) :
  (forall env cf pf c fs,
     (outcome (require featureId friendlyName env
                 (mkWorld cf pf (mkFeatureGate (Some c) fs))) = Returned (inr tt)
      <-> exists g, In g fs /\ grant_matches g featureId)
     /\ (outcome (require featureId friendlyName env
                    (mkWorld cf pf (mkFeatureGate (Some c) fs))) = Returned (inr tt)
         \/ outcome (require featureId friendlyName env
                       (mkWorld cf pf (mkFeatureGate (Some c) fs)))
            = Returned (inl (mkProFeatureError
                               (require_message featureId friendlyName) featureId))))
  /\ (forall env w,
        _cache (featureGate w) = None -> denied w env ->
        outcome (require featureId friendlyName env w)
        = Returned (inl (mkProFeatureError
                           (require_message featureId friendlyName) featureId))).
Proof.
  split.
  - intros env cf pf c fs. unfold require, bind.
    rewrite isAvailable_memoized. rewrite <- decide_iff.
    destruct (decide fs featureId); simpl; unfold outcome; simpl.
    + split; [tauto | now left].
    + split; [split; [discriminate | discriminate] | now right].
  - intros env w Hnone Hd. unfold require, bind.
    destruct (isAvailable_denied env w featureId Hnone Hd) as [Hout _].
    destruct (isAvailable featureId env w) as [[o w1] t1]. unfold outcome in Hout.
    simpl in Hout. subst o. reflexivity.
Qed.

Lemma require_gates_witness :
  denied (H := SpecModel.modules) (Sample.started NoFile) (Sample.offline 0)
  /\ outcome (require (H := SpecModel.modules) "pro.squads.creator-pro"
                "Squad Creator Pro" (Sample.offline 0) (Sample.started NoFile))
     = Returned (inl (mkProFeatureError
                        (require_message "pro.squads.creator-pro" "Squad Creator Pro")
                        "pro.squads.creator-pro")).
Proof.
  assert (Hd : denied (H := SpecModel.modules) (Sample.started NoFile)
                 (Sample.offline 0)) by (left; reflexivity).
  split; [exact Hd|].
  exact (proj2 (require_gates (H := SpecModel.modules) "pro.squads.creator-pro"
                  "Squad Creator Pro")
           (Sample.offline 0) (Sample.started NoFile) eq_refl Hd).
Defined.

(** ** The commands, case by case *)

Section CommandRuns.

Context `{LicenseModules}.

(** A new gate in front of any cache file answers like any gate without a
    snapshot. *)
Lemma isAvailable_new_gate env cf pf featureId :
  outcome (isAvailable featureId env (mkWorld cf pf new_FeatureGate))
  = Returned
      (match licenseState (readable cf) (now env) with
       | NotActivated | Expired => false
       | Active | Grace =>
           match readable cf with
           | Some c => decide (JS.new_Set [] (JS.arr_or (features c))) featureId
           | None => false
           end
       end).
Proof.
  rewrite isAvailable_unloaded by reflexivity. cbv zeta.
  rewrite outcome_mk, _loadCache_gate. simpl cacheFile.
  destruct (licenseState (readable cf) (now env)); try reflexivity;
    destruct (readable cf); reflexivity.
Qed.

End CommandRuns.

Lemma report_throws_none (fs : option (list string)) (st : option Seats) :
  report_throws fs st = None <-> fs <> None /\ st <> None.
Proof.
  destruct fs, st; simpl;
    (split;
     [ intros Hnone; try discriminate; split; discriminate
     | intros [Hfs Hst]; try reflexivity; congruence ]).
Qed.



(** X7 — activation, then a query. After an activation that the authority
    accepts and whose cache write succeeds, the cache file holds the fields
    of the reply (the key is the one the authority returned, there is no
    [lastValidated]), whatever was cached before, the pending slot is as it
    was and the gate holds no snapshot; the command returns normally
    exactly when the reply carries [features] and [seats]; a query in the
    same process then answers by the grants of the reply while that record
    is not expired or is within grace. *)
Theorem activation_then_query `{LicenseModules}
    (key : string) (env env' : Env) (w : World) (result : ActivateResult)
    (featureId : string) :
  key <> EmptyString ->
  validateKeyFormat key = true ->
  activate_reply env key (machineId env) (aiosCoreVersion env) = Resolved result ->
  write_error env = None ->
  (outcome (activateAction (Some key) env w) = Returned tt
   <-> res_features result <> None /\ res_seats result <> None)
  /\ world_after (activateAction (Some key) env w)
     = {| cacheFile := Sealed (cacheData result);
          pendingFile := pendingFile w;
          featureGate := new_FeatureGate |}
  /\ (isExpired (cacheData result) (now env') = false
      \/ isInGracePeriod (cacheData result) (now env') = true ->
      (outcome (isAvailable featureId env'
                  (world_after (activateAction (Some key) env w))) = Returned true
       <-> exists g, In g (JS.arr_or (res_features result))
                     /\ grant_matches g featureId)).
Proof.
  intros Hne Hfmt Hreply Hwrite.
  rewrite (activate_run key env w Hne Hfmt), Hreply, Hwrite.
  rewrite outcome_mk, world_after_mk, activationReport_run.
  split; [|split; [reflexivity|]].
  - rewrite <- report_throws_none.
    destruct (report_throws (res_features result) (res_seats result));
      rewrite outcome_mk; split; intros Heq; try reflexivity; discriminate.
  - intros Hok.
    exact (isAvailable_licensed env'
             (mkWorld (Sealed (cacheData result)) (pendingFile w) new_FeatureGate)
             (cacheData result) featureId eq_refl eq_refl Hok).
Qed.

(** The fresh-activation scenario of the specification. *)
Lemma activation_then_query_witness :
  validateKeyFormat (LicenseModules := SpecModel.modules) Sample.a_key = true
  /\ outcome
       (activateAction (H := SpecModel.modules) (Some Sample.a_key)
          (Sample.online 0 true) (Sample.started NoFile))
     = Returned tt
  /\ outcome
       (isAvailable (H := SpecModel.modules) "pro.memory.analytics"
          (Sample.offline (Sample.day 1))
          (world_after
             (activateAction (H := SpecModel.modules) (Some Sample.a_key)
                (Sample.online 0 true) (Sample.started NoFile))))
     = Returned true.
Proof.
  split; [reflexivity|].
  pose proof (activation_then_query (H := SpecModel.modules) Sample.a_key
                (Sample.online 0 true) (Sample.offline (Sample.day 1))
                (Sample.started NoFile) Sample.granted
                "pro.memory.analytics"
                ltac:(discriminate) eq_refl eq_refl eq_refl) as [Hret [_ Hquery]].
  split.
  - apply Hret. split; discriminate.
  - apply (Hquery (or_introl eq_refl)).
    exists "pro.memory.*". split; [now left|].
    left. exists "pro.memory". split; [reflexivity | now exists "analytics"].
Defined.

(** X8 — activation whose cache write fails. When the authority accepts
    the key but the cache cannot be written, [activateAction] prints the
    warning and goes on to the report: for a reply that carries [features]
    and [seats] it still reports the activation and returns normally. The
    cache file is unchanged, so on a machine without a readable cache
    every feature stays denied afterwards. *)
Theorem activation_unsaved `{LicenseModules}
    (key : string) (env : Env) (w : World) (result : ActivateResult) (msg : string) :
  key <> EmptyString ->
  validateKeyFormat key = true ->
  activate_reply env key (machineId env) (aiosCoreVersion env) = Resolved result ->
  write_error env = Some msg ->
  In (Print (MsgCacheNotSaved msg)) (trace (activateAction (Some key) env w))
  /\ (res_features result <> None ->
      res_seats result <> None ->
      outcome (activateAction (Some key) env w) = Returned tt
      /\ In (Print (MsgActivated result)) (trace (activateAction (Some key) env w)))
  /\ cacheFile (world_after (activateAction (Some key) env w)) = cacheFile w
  /\ pendingFile (world_after (activateAction (Some key) env w)) = pendingFile w
  /\ (readable (cacheFile w) = None ->
      forall env' featureId,
        outcome (isAvailable featureId env'
                   (world_after (activateAction (Some key) env w)))
        = Returned false).
Proof.
  intros Hne Hfmt Hreply Hwrite.
  rewrite (activate_run key env w Hne Hfmt), Hreply, Hwrite.
  rewrite outcome_mk, world_after_mk, trace_mk, activationReport_run.
  simpl cacheFile. simpl pendingFile.
  split; [simpl; tauto|]. split; [|split; [reflexivity|split; [reflexivity|]]].
  - intros Hfs Hst.
    rewrite (proj2 (report_throws_none _ _) (conj Hfs Hst)).
    rewrite outcome_mk, trace_mk. split; [reflexivity | simpl; tauto].
  - intros Hnone env' featureId. rewrite isAvailable_new_gate, Hnone. reflexivity.
Qed.

Lemma activation_unsaved_witness :
  validateKeyFormat (LicenseModules := SpecModel.modules) Sample.a_key = true
  /\ cacheFile
       (world_after
          (activateAction (H := SpecModel.modules) (Some Sample.a_key)
             {| now := 0; machineId := "machine-1"; aiosCoreVersion := "1.0.0";
                activate_reply := fun _ _ _ => Resolved Sample.granted;
                validate_reply := fun _ _ => Resolved (Sample.verdict true);
                isOnline_reply := Resolved true;
                deactivate_reply := fun _ _ => Resolved tt;
                write_error := Some "EACCES";
                confirm_reply := true |}
             (Sample.started NoFile)))
     = NoFile.
Proof.
  split; [reflexivity|].
  exact (proj1 (proj2 (proj2
           (activation_unsaved (H := SpecModel.modules) Sample.a_key
              {| now := 0; machineId := "machine-1"; aiosCoreVersion := "1.0.0";
                 activate_reply := fun _ _ _ => Resolved Sample.granted;
                 validate_reply := fun _ _ => Resolved (Sample.verdict true);
                 isOnline_reply := Resolved true;
                 deactivate_reply := fun _ _ => Resolved tt;
                 write_error := Some "EACCES";
                 confirm_reply := true |}
              (Sample.started NoFile) Sample.granted "EACCES"
              ltac:(discriminate) eq_refl eq_refl eq_refl)))).
Defined.

(** X9 — validation, then a query. After a validation that the authority
    confirms and whose cache write succeeds, the cache file holds the old
    record's [key] and [activatedAt] with the features, seats, expiry and
    validity windows of the reply; a query in the same process then
    answers by the grants of the reply alone (a grant the authority no
    longer lists is gone) while that record is not expired or is within
    grace. *)
Theorem validation_then_query `{LicenseModules}
    (env env' : Env) (w : World) (c : LicenseRecord) (result : ValidateResult)
    (featureId : string) :
  cacheFile w = Sealed c ->
  validate_reply env (key c) (machineId env) = Resolved result ->
  valid result = true ->
  write_error env = None ->
  (exists r,
     cacheFile (world_after (validateAction env w)) = Sealed r
     /\ key r = key c /\ activatedAt r = activatedAt c
     /\ features r = val_features result
     /\ seats r = val_seats result
     /\ expiresAt r = val_expiresAt result
     /\ cacheValidDays r = val_cacheValidDays result
     /\ gracePeriodDays r = val_gracePeriodDays result
     /\ lastValidated r = Some (now env))
  /\ pendingFile (world_after (validateAction env w)) = pendingFile w
  /\ (isExpired (updatedCache c result (now env)) (now env') = false
      \/ isInGracePeriod (updatedCache c result (now env)) (now env') = true ->
      (outcome (isAvailable featureId env' (world_after (validateAction env w)))
       = Returned true
       <-> exists g, In g (JS.arr_or (val_features result))
                     /\ grant_matches g featureId)).
Proof.
  intros Hcf Hreply Hvalid Hwrite.
  rewrite (validate_run env w c Hcf), Hreply, Hvalid, Hwrite, world_after_mk.
  split; [exists (updatedCache c result (now env)); repeat split|].
  split; [reflexivity|]. intros Hok.
  exact (isAvailable_licensed env'
           (mkWorld (Sealed (updatedCache c result (now env))) (pendingFile w)
                    new_FeatureGate)
           (updatedCache c result (now env)) featureId eq_refl eq_refl Hok).
Qed.

(** The authority now grants [pro.memory.*]: a gate that had memoized
    [pro.squads.*] answers by the new grant after the validation. *)
Lemma validation_then_query_witness :
  cacheFile Sample.memoized = Sealed (Sample.activated ["pro.squads.*"])
  /\ outcome
       (isAvailable (H := SpecModel.modules) "pro.memory.analytics"
          (Sample.offline (Sample.day 4))
          (world_after
             (validateAction (H := SpecModel.modules)
                (Sample.online (Sample.day 3) true) Sample.memoized)))
     = Returned true.
Proof.
  split; [reflexivity|].
  apply (proj2 (proj2 (proj2
           (validation_then_query (H := SpecModel.modules)
              (Sample.online (Sample.day 3) true) (Sample.offline (Sample.day 4))
              Sample.memoized
              (Sample.activated ["pro.squads.*"]) (Sample.verdict true)
              "pro.memory.analytics" eq_refl eq_refl eq_refl eq_refl))
           (or_introl eq_refl))).
  exists "pro.memory.*". split; [now left|].
  left. exists "pro.memory". split; [reflexivity | now exists "analytics"].
Defined.



(** X10 — without a readable cache only [activate] asks the authority.
    When no record can be read from the cache file (no file, or an
    unreadable one), [status], [deactivate] and [validate] return normally
    without any authority call, prompt, write, delete or reload; the
    pending slot and the gate are unchanged and there is still no readable
    cache afterwards. *)
Theorem unlicensed_commands_stay_local `{LicenseModules}
    (c : Command) (env : Env) (w : World) :
  readable (cacheFile w) = None ->
  (forall k, c <> CmdActivate k) ->
  outcome (exec c env w) = Returned tt
  /\ forallb is_passive (trace (exec c env w)) = true
  /\ pendingFile (world_after (exec c env w)) = pendingFile w
  /\ featureGate (world_after (exec c env w)) = featureGate w
  /\ readable (cacheFile (world_after (exec c env w))) = None.
Proof.
  intros Hnone Hc.
  destruct c as [k| |force|]; [now destruct (Hc k) | | |]; simpl exec;
    unfold statusAction, deactivateAction, validateAction;
    unfold_run; unfold trace, world_after, outcome;
    destruct w as [[| |r] pf g]; try discriminate Hnone; simpl;
    split_run; repeat split; reflexivity.
Qed.

Lemma unlicensed_commands_stay_local_witness :
  readable (cacheFile (Sample.started CorruptFile)) = None
  /\ forallb is_passive
       (trace (exec (H := SpecModel.modules) CmdValidate (Sample.online 0 true)
                 (Sample.started CorruptFile))) = true.
Proof.
  split; [reflexivity|].
  exact (proj1 (proj2 (unlicensed_commands_stay_local (H := SpecModel.modules)
                         CmdValidate (Sample.online 0 true)
                         (Sample.started CorruptFile) eq_refl
                         ltac:(intros k; discriminate)))).
Defined.

(** X11 — the deactivation prompt. With a readable cache and without
    [--force], [deactivateAction] asks for confirmation once, before
    anything else than reading the cache; when the answer is not a yes it
    reports the cancellation and returns with the world unchanged, without
    a probe or an authority call. With [--force] it never asks. *)
Theorem deactivation_prompt `{LicenseModules}
    (env : Env) (w : World) (c : LicenseRecord) :
  cacheFile w = Sealed c ->
  (confirm_reply env = false ->
   deactivateAction false env w
   = (Returned tt, w,
      [ReadCache; Print (MsgDeactivationPrompt (maskKey (key c))); Confirm;
       Print MsgDeactivationCancelled]))
  /\ (exists rest,
        trace (deactivateAction false env w)
        = ReadCache :: Print (MsgDeactivationPrompt (maskKey (key c))) :: Confirm
          :: rest
        /\ ~ In Confirm rest)
  /\ ~ In Confirm (trace (deactivateAction true env w)).
Proof.
  intros Hcf. split; [|split].
  - intros Hno. unfold deactivateAction. unfold_run. rewrite Hcf. simpl.
    now rewrite Hno.
  - unfold deactivateAction. unfold_run. unfold trace. rewrite Hcf. simpl.
    split_run; eexists; (split; [reflexivity|]); simpl; intuition discriminate.
  - unfold deactivateAction. unfold_run. unfold trace. rewrite Hcf. simpl.
    split_run; simpl; intuition discriminate.
Qed.

Lemma deactivation_prompt_witness :
  cacheFile (Sample.started (Sealed (Sample.activated ["pro.memory.*"])))
  = Sealed (Sample.activated ["pro.memory.*"])
  /\ ~ In Confirm
       (trace (deactivateAction (H := SpecModel.modules) true (Sample.online 0 true)
                 (Sample.started (Sealed (Sample.activated ["pro.memory.*"]))))).
Proof.
  split; [reflexivity|].
  exact (proj2 (proj2 (deactivation_prompt (H := SpecModel.modules)
                         (Sample.online 0 true)
                         (Sample.started (Sealed (Sample.activated ["pro.memory.*"])))
                         (Sample.activated ["pro.memory.*"]) eq_refl))).
Defined.

(** X12 — after a deactivation. Once a deactivation with a readable cache
    has gone ahead (forced or confirmed) and the probe has answered, the
    command returns with the cache file gone and the gate emptied,
    whether the authority was reached or not; from then on, in the same
    process and at any time, every feature is denied, and a second
    [deactivate] only reports that no license is activated. *)
Theorem deactivation_is_final `{LicenseModules}
    (force : bool) (env : Env) (w : World) (c : LicenseRecord) (online : bool) :
  cacheFile w = Sealed c ->
  force = true \/ confirm_reply env = true ->
  isOnline_reply env = Resolved online ->
  outcome (deactivateAction force env w) = Returned tt
  /\ cacheFile (world_after (deactivateAction force env w)) = NoFile
  /\ featureGate (world_after (deactivateAction force env w)) = new_FeatureGate
  /\ (forall env' featureId,
        outcome (isAvailable featureId env' (world_after (deactivateAction force env w)))
        = Returned false)
  /\ (forall force' env',
        deactivateAction force' env' (world_after (deactivateAction force env w))
        = (Returned tt, world_after (deactivateAction force env w),
           [ReadCache; Print MsgNoLicenseActivated])).
Proof.
  intros Hcf Hgo Honline.
  destruct (deactivate_run force env w c Hcf Hgo) as [prompt [_ Hrun]].
  rewrite Hrun, Honline. clear Hrun.
  destruct online; [destruct (deactivate_reply env (key c) (machineId env))|];
    rewrite outcome_mk, world_after_mk;
    (split; [reflexivity|]); (split; [reflexivity|]); (split; [reflexivity|]);
    (split; [intros env' featureId; now rewrite isAvailable_new_gate
            | intros force' env'; reflexivity]).
Qed.

Lemma deactivation_is_final_witness :
  cacheFile (Sample.started (Sealed (Sample.activated ["pro.memory.*"])))
  = Sealed (Sample.activated ["pro.memory.*"])
  /\ isOnline_reply (Sample.online (Sample.day 2) true) = Resolved true
  /\ outcome
       (isAvailable (H := SpecModel.modules) "pro.memory.analytics"
          (Sample.offline (Sample.day 2))
          (world_after
             (deactivateAction (H := SpecModel.modules) true
                (Sample.online (Sample.day 2) true)
                (Sample.started (Sealed (Sample.activated ["pro.memory.*"]))))))
     = Returned false.
Proof.
  split; [reflexivity|]. split; [reflexivity|].
  exact (proj1 (proj2 (proj2 (proj2
           (deactivation_is_final (H := SpecModel.modules) true
              (Sample.online (Sample.day 2) true)
              (Sample.started (Sealed (Sample.activated ["pro.memory.*"])))
              (Sample.activated ["pro.memory.*"]) true
              eq_refl (or_introl eq_refl) eq_refl))))
           (Sample.offline (Sample.day 2)) "pro.memory.analytics").
Defined.

(** ** The status report *)

(** [Math.ceil] of a quotient by a positive number, on integers. *)
Lemma ceil_div_bounds (a b : Z) :
  0 < b ->
  (JS.ceil_div a b - 1) * b < a <= JS.ceil_div a b * b.
Proof.
  intros Hb. unfold JS.ceil_div.
  pose proof (Z.div_mod (- a) b ltac:(lia)) as Hdm.
  pose proof (Z.mod_pos_bound (- a) b Hb) as Hmod.
  nia.
Qed.

Lemma ceil_div_pos_iff (a b : Z) :
  0 < b -> (JS.ceil_div a b >? 0) = (0 <? a).
Proof.
  intros Hb. pose proof (ceil_div_bounds a b Hb) as Hc.
  destruct (Z.gtb_spec (JS.ceil_div a b) 0), (Z.ltb_spec 0 a); try reflexivity; nia.
Qed.

Section StatusCalls.

Context `{LicenseModules}.

Lemma bind_returned {A B} (c : Run A) (k : A -> Run B) env w a w1 t1 :
  c env w = (Returned a, w1, t1) ->
  bind c k env w
  = (outcome (k a env w1), world_after (k a env w1),
     (t1 ++ trace (k a env w1))%list).
Proof.
  intros Hc. unfold bind. rewrite Hc.
  destruct (k a env w1) as [[o w2] t2]. reflexivity.
Qed.

Lemma readLicenseCache_run env w :
  exists cache,
    readLicenseCache env w
    = (Returned cache, world_after (readLicenseCache env w), [ReadCache])
    /\ pendingFile (world_after (readLicenseCache env w)) = pendingFile w
    /\ readable (cacheFile (world_after (readLicenseCache env w)))
       = readable (cacheFile w).
Proof.
  unfold readLicenseCache, world_after.
  destruct (cacheFile w) as [| |r] eqn:Hcf; eexists; simpl; rewrite ?Hcf;
    repeat split; reflexivity.
Qed.

Lemma is_print_passive (t : list Event) :
  forallb is_print t = true -> forallb is_passive t = true.
Proof.
  induction t as [|e t IH]; [reflexivity|]. simpl.
  rewrite !andb_true_iff. intros [He Ht]. split; [|now apply IH].
  destruct e; try discriminate; reflexivity.
Qed.

(** The calls of [statusAction], in order: the header, [readLicenseCache],
    the two methods of the gate, and then console output only. *)
Lemma statusAction_with_run
    (getState : Run LicenseState) (getInfo : Run (option LicenseInfo)) env w :
  returns getState ->
  returns getInfo ->
  exists prints,
    trace (statusAction_with getState getInfo env w)
    = (Print MsgStatusHeader :: ReadCache
       :: trace (getState env (world_after (readLicenseCache env w)))
       ++ trace (getInfo env
                   (world_after (getState env (world_after (readLicenseCache env w)))))
       ++ prints)%list
    /\ forallb is_print prints = true
    /\ outcome (statusAction_with getState getInfo env w) = Returned tt
    /\ world_after (statusAction_with getState getInfo env w)
       = world_after
           (getInfo env
              (world_after (getState env (world_after (readLicenseCache env w))))).
Proof.
  intros Hstate Hinfo.
  destruct (readLicenseCache_run env w) as [cache [Hread _]].
  remember (world_after (readLicenseCache env w)) as w0 eqn:Hw0.
  destruct (Hstate env w0) as [state Hs].
  destruct (getState env w0) as [[o1 w1] t1] eqn:Hgs.
  rewrite outcome_mk in Hs. subst o1. rewrite world_after_mk, trace_mk.
  destruct (Hinfo env w1) as [info Hi].
  destruct (getInfo env w1) as [[o2 w2] t2] eqn:Hgi.
  rewrite outcome_mk in Hi. subst o2. rewrite world_after_mk, trace_mk.
  unfold statusAction_with.
  rewrite (bind_returned (console MsgStatusHeader) _ env w tt w
             [Print MsgStatusHeader] eq_refl).
  rewrite (bind_returned readLicenseCache _ env w cache w0 [ReadCache] Hread).
  rewrite (bind_returned getState _ env w0 state w1 t1 Hgs).
  rewrite (bind_returned getInfo _ env w1 info w2 t2 Hgi).
  unfold bind, ret, console, emit, ask, Date_now, hasPendingDeactivation.
  unfold trace, world_after, outcome.
  destruct cache as [c|]; simpl;
    [|eexists; repeat split; reflexivity].
  split_run; eexists; (split; [reflexivity|]); repeat split; reflexivity.
Qed.

Lemma getLicenseState_loading_returns : returns getLicenseState_loading.
Proof.
  intros env w. unfold getLicenseState_loading, _loadCache. unfold_run.
  unfold outcome. split_run; eexists; reflexivity.
Qed.

Lemma licenseInfo_returns : returns licenseInfo.
Proof. intros env w. eexists. reflexivity. Qed.

End StatusCalls.

(** X13 — [status] only looks. With the license modules loaded, and over
    any two methods of the gate that return: [statusAction] prints the
    header, calls [readLicenseCache] once, calls [getLicenseState] and
    [getLicenseInfo], and from there on only prints and returns; the world
    it leaves is the one the gate's methods left. So when those two
    methods only look, the whole command only looks: no authority call, no
    prompt, no write, no delete, no pending record, no reload, and the
    pending slot and what can be read from the cache file are as before. *)
Theorem status_is_read_only `{LicenseModules}
    (getState : Run LicenseState) (getInfo : Run (option LicenseInfo)) :
  returns getState ->
  returns getInfo ->
  (forall env w,
     exists prints,
       trace (statusAction_with getState getInfo env w)
       = (Print MsgStatusHeader :: ReadCache
          :: trace (getState env (world_after (readLicenseCache env w)))
          ++ trace (getInfo env
                      (world_after
                         (getState env (world_after (readLicenseCache env w)))))
          ++ prints)%list
       /\ forallb is_print prints = true
       /\ outcome (statusAction_with getState getInfo env w) = Returned tt
       /\ world_after (statusAction_with getState getInfo env w)
          = world_after
              (getInfo env
                 (world_after
                    (getState env (world_after (readLicenseCache env w))))))
  /\ (only_looks getState ->
      only_looks getInfo ->
      only_looks (statusAction_with getState getInfo)).
Proof.
  intros Hstate Hinfo. split.
  - intros env w. now apply statusAction_with_run.
  - intros Hls Hli env w.
    destruct (statusAction_with_run getState getInfo env w Hstate Hinfo)
      as [prints [Htrace [Hprints [Hout Hworld]]]].
    destruct (readLicenseCache_run env w) as [cache [_ [Hp0 Hr0]]].
    destruct (Hls env (world_after (readLicenseCache env w)))
      as [_ [Ht1 [Hp1 Hr1]]].
    destruct (Hli env (world_after (getState env (world_after (readLicenseCache env w)))))
      as [_ [Ht2 [Hp2 Hr2]]].
    split; [now exists tt|]. split; [|split].
    + rewrite Htrace. simpl. rewrite !forallb_app, Ht1, Ht2.
      now rewrite (is_print_passive prints Hprints).
    + now rewrite Hworld, Hp2, Hp1, Hp0.
    + now rewrite Hworld, Hr2, Hr1, Hr0.
Qed.

(** With a gate that loads the cache before it computes the state, on day
    31 of the offline scenario: the cache is read twice and the grace
    warning comes before the report. *)
Lemma status_is_read_only_witness :
  exists prints,
    trace (statusAction_with (H := SpecModel.modules)
             (getLicenseState_loading (H := SpecModel.modules))
             (licenseInfo (H := SpecModel.modules))
             (Sample.offline (Sample.day 31))
             (Sample.started (Sealed (Sample.activated ["pro.memory.*"]))))
    = (Print MsgStatusHeader :: ReadCache :: ReadCache :: Print MsgGraceWarning
       :: prints)%list
    /\ forallb is_print prints = true.
Proof.
  destruct (proj1 (status_is_read_only (H := SpecModel.modules)
                     (getLicenseState_loading (H := SpecModel.modules))
                     (licenseInfo (H := SpecModel.modules))
                     getLicenseState_loading_returns licenseInfo_returns)
              (Sample.offline (Sample.day 31))
              (Sample.started (Sealed (Sample.activated ["pro.memory.*"]))))
    as [prints [Htrace [Hprints _]]].
  exists prints. split; [exact Htrace | exact Hprints].
Defined.

(** X14 — the cache line of [status]. For a cached record with an
    [activatedAt], the boundary shown is [activatedAt] plus
    [cacheValidDays] days (30 when the field is missing or 0). When
    [activatedAt] and the boundary are time values a [Date] can hold, and
    the time to the boundary is a safe integer: strictly before the
    boundary the report says [Valid until] with a number of days remaining
    that is at least 1 and is the remaining time rounded up to whole days;
    from the boundary on it says [Expired] with the boundary. When one of
    the two is not a time value a [Date] can hold, it says [Expired
    Invalid Date], whatever the clock. *)
Theorem status_cache_line `{LicenseModules}
    (env : Env) (pf : option Pending) (g : FeatureGate) (c : LicenseRecord)
    (activatedDate : Z) :
  activatedAt c = Some activatedDate ->
  (JS.valid_time activatedDate = true ->
   JS.valid_time (activatedDate + JS.num_or (cacheValidDays c) 30 * DAY_MS) = true ->
   Z.abs (activatedDate + JS.num_or (cacheValidDays c) 30 * DAY_MS - now env)
   <= JS.MAX_SAFE_INTEGER ->
   (now env < activatedDate + JS.num_or (cacheValidDays c) 30 * DAY_MS ->
    exists daysRemaining,
      In (Print (MsgCacheValidUntil
                   (activatedDate + JS.num_or (cacheValidDays c) 30 * DAY_MS)
                   daysRemaining))
         (trace (statusAction env (mkWorld (Sealed c) pf g)))
      /\ 1 <= daysRemaining
      /\ (daysRemaining - 1) * DAY_MS
         < activatedDate + JS.num_or (cacheValidDays c) 30 * DAY_MS - now env
         <= daysRemaining * DAY_MS)
   /\ (activatedDate + JS.num_or (cacheValidDays c) 30 * DAY_MS <= now env ->
       In (Print (MsgCacheExpired
                    (activatedDate + JS.num_or (cacheValidDays c) 30 * DAY_MS)))
          (trace (statusAction env (mkWorld (Sealed c) pf g)))))
  /\ (JS.valid_time activatedDate = false
      \/ JS.valid_time (activatedDate + JS.num_or (cacheValidDays c) 30 * DAY_MS)
         = false ->
      In (Print MsgCacheExpiredInvalidDate)
         (trace (statusAction env (mkWorld (Sealed c) pf g))))
  /\ JS.num_or None 30 = 30 /\ JS.num_or (Some 0) 30 = 30.
Proof.
  intros Hact.
  pose proof (status_ignores_lastValidated env pf g c activatedDate Hact) as Hline.
  cbv zeta in Hline.
  assert (Hday : 0 < DAY_MS) by (unfold DAY_MS; lia).
  rewrite (ceil_div_pos_iff _ _ Hday) in Hline.
  split; [|split; [|split; reflexivity]].
  - intros Hva Hve _. rewrite Hva, Hve in Hline. cbv beta iota delta [andb] in Hline.
    split.
    + intros Hbefore.
      destruct (Z.ltb_spec 0
                  (activatedDate + JS.num_or (cacheValidDays c) 30 * DAY_MS - now env));
        [|lia].
      eexists. split; [exact Hline|].
      pose proof (ceil_div_bounds
                    (activatedDate + JS.num_or (cacheValidDays c) 30 * DAY_MS - now env)
                    DAY_MS Hday).
      split; [nia | assumption].
    + intros Hafter.
      destruct (Z.ltb_spec 0
                  (activatedDate + JS.num_or (cacheValidDays c) 30 * DAY_MS - now env));
        [lia | exact Hline].
  - intros [Hva | Hve].
    + now rewrite Hva in Hline.
    + rewrite Hve, andb_false_r in Hline. exact Hline.
Qed.

(** Exactly at the boundary, thirty days after the activation: expired. *)
Lemma status_cache_line_witness :
  activatedAt (Sample.activated ["pro.memory.*"]) = Some 0
  /\ In (Print (MsgCacheExpired (Sample.day 30)))
        (trace (statusAction (H := SpecModel.modules) (Sample.offline (Sample.day 30))
                  (mkWorld (Sealed (Sample.activated ["pro.memory.*"])) None
                           new_FeatureGate))).
Proof.
  split; [reflexivity|].
  apply (proj1 (status_cache_line (H := SpecModel.modules)
                  (Sample.offline (Sample.day 30)) None new_FeatureGate
                  (Sample.activated ["pro.memory.*"]) 0 eq_refl)).
  - reflexivity.
  - reflexivity.
  - vm_compute. discriminate.
  - vm_compute. discriminate.
Defined.

(** X15 — the pending-deactivation warning of [status]. The report shows
    the warning exactly when a record can be read from the cache file and
    the pending slot is set. So right after a deactivation that could not
    reach the authority (the cache is deleted, the pending record set),
    [status] does not show it. *)
Theorem status_pending_warning `{LicenseModules} (env : Env) (w : World) :
  (In (Print MsgPendingOfflineDeactivation) (trace (statusAction env w))
   <-> (exists c, cacheFile w = Sealed c) /\ pendingFile w <> None)
  /\ (forall c env0,
        cacheFile w = Sealed c ->
        isOnline_reply env0 = Resolved false ->
        pendingFile (world_after (deactivateAction true env0 w)) <> None
        /\ ~ In (Print MsgPendingOfflineDeactivation)
               (trace (statusAction env (world_after (deactivateAction true env0 w))))).
Proof.
  assert (Hiff : forall w0,
            In (Print MsgPendingOfflineDeactivation) (trace (statusAction env w0))
            <-> (exists c, cacheFile w0 = Sealed c) /\ pendingFile w0 <> None).
  { intros w0. unfold statusAction. unfold_run. unfold trace.
    destruct w0 as [[| |r] [p|] g]; simpl; split_run;
      (split;
       [ intros Hin;
         repeat (destruct Hin as [Hin | Hin]; [try discriminate|]);
         try contradiction;
         (split; [now eexists | discriminate])
       | intros [[c0 Hc0] Hp]; try discriminate Hc0; try congruence;
         simpl; tauto ]). }
  split; [apply Hiff|].
  intros c env0 Hcf Hoff.
  destruct (deactivate_run true env0 w c Hcf (or_introl eq_refl)) as [prompt [_ Hrun]].
  rewrite Hrun, Hoff, world_after_mk. split; [discriminate|].
  rewrite Hiff. intros [[c0 Hc0] _]. discriminate Hc0.
Qed.

(** ** Sessions *)

(** X16 — a pending deactivation is never cleared. Over any session of
    [activate], [status], [deactivate] and [validate] commands, whatever
    the authority answers, a pending record that is set stays set (a later
    offline deactivation may replace it), and no command calls
    [clearPendingDeactivation]. *)
Theorem pending_outlives_sessions `{LicenseModules}
    (cmds : list (Command * Env)) (w : World) :
  pendingFile w <> None ->
  pendingFile (session_world cmds w) <> None
  /\ ~ In ClearPending (session_trace cmds w).
Proof.
  assert (Hstep : forall c env w0,
            (pendingFile w0 <> None -> pendingFile (world_after (exec c env w0)) <> None)
            /\ ~ In ClearPending (trace (exec c env w0))).
  { intros c env w0.
    destruct c as [k| |force|]; simpl exec;
      unfold activateAction, statusAction, deactivateAction, validateAction;
      unfold_run; unfold trace, world_after;
      destruct w0 as [cf [p|] g]; simpl; split_run;
      (split; [intros Hp; simpl; congruence
              | intros Hin;
                repeat (destruct Hin as [Hin | Hin]; [discriminate|]); exact Hin]). }
  revert w. induction cmds as [|[c env] rest IH]; intros w Hp; [now split|].
  simpl. destruct (Hstep c env w) as [Hkeep Hclear].
  destruct (IH _ (Hkeep Hp)) as [IHp IHt]. split; [exact IHp|].
  intros Hin. apply in_app_or in Hin. tauto.
Qed.

(** The record of an offline deactivation survives a reactivation, a
    status report and a successful validation. *)
Lemma pending_outlives_sessions_witness :
  pendingFile (mkWorld NoFile (Some (mkPending Sample.a_key (Sample.day 2)))
                 new_FeatureGate) <> None
  /\ pendingFile
       (session_world (H := SpecModel.modules)
          [(CmdActivate (Some Sample.a_key), Sample.online (Sample.day 3) true);
           (CmdStatus, Sample.online (Sample.day 3) true);
           (CmdValidate, Sample.online (Sample.day 4) true)]
          (mkWorld NoFile (Some (mkPending Sample.a_key (Sample.day 2)))
             new_FeatureGate)) <> None.
Proof.
  assert (Hp : pendingFile (mkWorld NoFile
                              (Some (mkPending Sample.a_key (Sample.day 2)))
                              new_FeatureGate) <> None) by discriminate.
  split; [exact Hp|].
  exact (proj1 (pending_outlives_sessions (H := SpecModel.modules)
                  [(CmdActivate (Some Sample.a_key), Sample.online (Sample.day 3) true);
                   (CmdStatus, Sample.online (Sample.day 3) true);
                   (CmdValidate, Sample.online (Sample.day 4) true)]
                  (mkWorld NoFile (Some (mkPending Sample.a_key (Sample.day 2)))
                     new_FeatureGate) Hp)).
Defined.

(** ** The answer to a y/N prompt *)

Lemma lower_y c : JSText.lower c = "y"%char -> c = "y"%char \/ c = "Y"%char.
Proof.
  destruct c as [[] [] [] [] [] [] [] []]; vm_compute; intros Heq;
    try discriminate Heq; auto.
Qed.

Lemma lower_e c : JSText.lower c = "e"%char -> c = "e"%char \/ c = "E"%char.
Proof.
  destruct c as [[] [] [] [] [] [] [] []]; vm_compute; intros Heq;
    try discriminate Heq; auto.
Qed.

Lemma lower_s c : JSText.lower c = "s"%char -> c = "s"%char \/ c = "S"%char.
Proof.
  destruct c as [[] [] [] [] [] [] [] []]; vm_compute; intros Heq;
    try discriminate Heq; auto.
Qed.

(** X17 — what counts as a yes. [confirm] resolves to true exactly for
    [y] and [yes] in any mix of upper and lower case; every other answer,
    among them the empty one (Enter alone) and one with blanks around it,
    is a no. *)
Theorem confirm_accepts_iff (answer : string) :
  confirm_accepts answer = true
  <-> In answer ["y"; "Y"; "yes"; "yeS"; "yEs"; "yES"; "Yes"; "YeS"; "YEs"; "YES"].
Proof.
  unfold confirm_accepts. rewrite orb_true_iff, !String.eqb_eq. split.
  - intros [Hy | Hyes].
    + destruct answer as [|c [|d rest]]; simpl in Hy; try discriminate Hy.
      injection Hy as Hc. destruct (lower_y c Hc) as [-> | ->]; simpl; auto.
    + destruct answer as [|c [|d [|e [|f rest]]]]; simpl in Hyes;
        try discriminate Hyes.
      injection Hyes as Hc Hd He.
      destruct (lower_y c Hc) as [-> | ->], (lower_e d Hd) as [-> | ->],
               (lower_s e He) as [-> | ->]; simpl; auto 12.
  - intros Hin. simpl in Hin.
    repeat (destruct Hin as [<- | Hin]; [vm_compute; auto|]). contradiction.
Qed.

(** ** [aios pro setup] *)

Ltac unfold_setup :=
  unfold Setup.setupAction, Setup.configure, Setup.writeConfig, Setup.bind,
    Setup.ret, Setup.log, Setup.exit, Setup.ask, Setup.readFileSync,
    Setup.writeFileSync, Setup.promptToken, Setup.confirm, Setup.npmView,
    Setup.result, Setup.files_after, Setup.events, Setup.npmrcPath,
    Setup.gitignorePath in *.

Lemma write_other (fs : Setup.Files) (path content p : string) :
  p <> path -> Setup.write fs path content p = fs p.
Proof.
  intros Hne. unfold Setup.write.
  destruct (String.eqb_spec p path); [contradiction | reflexivity].
Qed.

Lemma write_same (fs : Setup.Files) (path content : string) :
  Setup.write fs path content path = Some content.
Proof. unfold Setup.write. now rewrite String.eqb_refl. Qed.

(** Reduces the run monad of [setupAction] without touching the string
    functions. *)
Ltac setup_step :=
  cbv beta iota zeta delta
    [Setup.setupAction Setup.configure Setup.writeConfig Setup.bind Setup.ret
     Setup.log Setup.exit Setup.ask Setup.readFileSync Setup.writeFileSync
     Setup.promptToken Setup.confirm Setup.npmView Setup.result Setup.files_after
     Setup.events Setup.npmrcPath Setup.gitignorePath
     Setup.opt_token Setup.opt_global Setup.homedir Setup.cwd Setup.token_answer
     Setup.continue_answer Setup.overwrite_answer Setup.write_error
     Setup.npm_view_ok fst snd negb andb app].

Ltac split_setup :=
  repeat (setup_step;
          match goal with
          | |- context [match ?x with _ => _ end] =>
              lazymatch x with
              | context [match _ with _ => _ end] => fail
              | _ => destruct x eqn:?
              end
          end);
  setup_step.

(** Reduces the prelude of [setupAction], leaving the writing part and
    the string functions folded. *)
Ltac prelude_step :=
  cbv beta iota zeta delta
    [Setup.bind Setup.ret Setup.log Setup.exit Setup.ask Setup.readFileSync
     Setup.promptToken Setup.confirm Setup.result Setup.files_after Setup.events
     Setup.opt_token Setup.opt_global Setup.homedir Setup.cwd Setup.token_answer
     Setup.continue_answer Setup.overwrite_answer fst snd negb andb orb].

(** The events of a trace [t] that come before its tail [l]. *)
Ltac prefix_of t l :=
  lazymatch t with
  | l => constr:(@nil Setup.Event)
  | ?x :: ?r => let p := prefix_of r l in constr:(x :: p)
  end.

(** Case analysis for [setup_decompose], once the token is known. *)
Ltac setup_cases tok ca oa fs np :=
  destruct (JS.startsWith tok "ghp_"), (JS.startsWith tok "github_pat_");
    prelude_step;
    destruct (confirm_accepts ca); prelude_step;
    try (eexists; split; [|reflexivity]; reflexivity);
    destruct (fs np) as [?content|]; prelude_step;
    match goal with
    | |- context [JSText.includes ?x "@aios:registry"] =>
        destruct (JSText.includes x "@aios:registry")
    end;
    prelude_step;
    destruct (confirm_accepts oa); prelude_step;
    try (eexists; split; [|reflexivity]; reflexivity);
    match goal with
    | |- context [Setup.writeConfig ?a ?b ?c ?d ?e ?f] =>
        let tr := fresh "tr" in
        destruct (Setup.writeConfig a b c d e f) as [[[?|?] ?] tr];
        cbv beta iota delta [app fst snd];
        match goal with
        | |- exists pre, _ /\ (_, _, ?t) = _ =>
            let p := prefix_of t tr in exists p
        end
    end;
    split; reflexivity.

(** [setupAction] is a prelude of output, prompts and reads, and then,
    if there is a token and the confirmations are passed, the writing
    part. *)
Lemma setup_decompose `{NodeRuntime}
    (options : Setup.Options) (env : Setup.Env) (fs : Setup.Files) :
  exists pre,
    forallb Setup.is_prelude pre = true
    /\ Setup.setupAction options env fs
       = if String.eqb (Setup.tokenOf options env) EmptyString
            || negb (Setup.goesAhead options env fs)
         then (Returned tt, fs, pre)
         else
           (Setup.result
              (Setup.writeConfig options (Setup.npmrcPath options env)
                 (Setup.keptNpmrc options env fs) (Setup.tokenOf options env) env fs),
            Setup.files_after
              (Setup.writeConfig options (Setup.npmrcPath options env)
                 (Setup.keptNpmrc options env fs) (Setup.tokenOf options env) env fs),
            (pre ++
             Setup.events
               (Setup.writeConfig options (Setup.npmrcPath options env)
                  (Setup.keptNpmrc options env fs) (Setup.tokenOf options env) env fs))
            %list).
Proof.
  destruct options as [tok glob], env as [home dir ta ca oa we nv].
  unfold Setup.goesAhead, Setup.wellFormed, Setup.keptNpmrc, Setup.currentNpmrc,
    Setup.tokenOf, Setup.npmrcPath, Setup.setupAction, Setup.configure.
  cbv beta iota zeta delta
    [Setup.bind Setup.ret Setup.log Setup.exit Setup.ask Setup.readFileSync
     Setup.promptToken Setup.confirm Setup.result Setup.files_after Setup.events
     Setup.opt_token Setup.opt_global Setup.homedir Setup.cwd Setup.token_answer
     Setup.continue_answer Setup.overwrite_answer fst snd].
  destruct glob; cbv iota;
    [set (np := path_join home ".npmrc") | set (np := path_join dir ".npmrc")];
    clearbody np;
    (destruct tok as [[|c t]|];
     [ destruct (trim ta) as [|c t] eqn:Htok; simpl String.eqb; cbv iota beta;
       [ eexists; split; [|reflexivity]; reflexivity
       | setup_cases (String c t) ca oa fs np ]
     | simpl String.eqb; setup_cases (String c t) ca oa fs np
     | destruct (trim ta) as [|c t] eqn:Htok; simpl String.eqb; cbv iota beta;
       [ eexists; split; [|reflexivity]; reflexivity
       | setup_cases (String c t) ca oa fs np ] ]).
Qed.

(** What the writing part does, by the failures of the two writes and the
    content of [.gitignore]. *)
Lemma writeConfig_run `{NodeRuntime}
    (options : Setup.Options) (np content token : string)
    (env : Setup.Env) (fs : Setup.Files) :
  Setup.writeConfig options np content token env fs =
  match Setup.write_error env np with
  | Some e =>
      (Exited 1, fs,
       [Setup.WriteFile np (trimEnd content ++ Setup.newConfig token) false;
        Setup.Log (Setup.MsgWriteFailed np e)])
  | None =>
      if Setup.opt_global options then
        (Returned tt,
         Setup.write fs np (trimEnd content ++ Setup.newConfig token),
         [Setup.WriteFile np (trimEnd content ++ Setup.newConfig token) true;
          Setup.Log (Setup.MsgConfigWritten np);
          Setup.Log Setup.MsgVerifying; Setup.NpmView;
          Setup.Log (if Setup.npm_view_ok env then Setup.MsgAccessVerified
                     else Setup.MsgAccessNotVerified);
          Setup.Log Setup.MsgSetupComplete])
      else if JSText.includes
                match Setup.write fs np (trimEnd content ++ Setup.newConfig token)
                        (Setup.gitignorePath env) with
                | Some g => g
                | None => EmptyString
                end ".npmrc"
      then
        (Returned tt,
         Setup.write fs np (trimEnd content ++ Setup.newConfig token),
         [Setup.WriteFile np (trimEnd content ++ Setup.newConfig token) true;
          Setup.Log (Setup.MsgConfigWritten np);
          Setup.ReadFile (Setup.gitignorePath env);
          Setup.Log Setup.MsgVerifying; Setup.NpmView;
          Setup.Log (if Setup.npm_view_ok env then Setup.MsgAccessVerified
                     else Setup.MsgAccessNotVerified);
          Setup.Log Setup.MsgSetupComplete])
      else
        match Setup.write_error env (Setup.gitignorePath env) with
        | None =>
            (Returned tt,
             Setup.write
               (Setup.write fs np (trimEnd content ++ Setup.newConfig token))
               (Setup.gitignorePath env)
               (match Setup.write fs np (trimEnd content ++ Setup.newConfig token)
                        (Setup.gitignorePath env) with
                | Some g => g
                | None => EmptyString
                end ++ Setup.gitignoreEntry),
             [Setup.WriteFile np (trimEnd content ++ Setup.newConfig token) true;
              Setup.Log (Setup.MsgConfigWritten np);
              Setup.ReadFile (Setup.gitignorePath env);
              Setup.WriteFile (Setup.gitignorePath env)
                (match Setup.write fs np (trimEnd content ++ Setup.newConfig token)
                         (Setup.gitignorePath env) with
                 | Some g => g
                 | None => EmptyString
                 end ++ Setup.gitignoreEntry) true;
              Setup.Log Setup.MsgGitignoreAdded;
              Setup.Log Setup.MsgVerifying; Setup.NpmView;
              Setup.Log (if Setup.npm_view_ok env then Setup.MsgAccessVerified
                         else Setup.MsgAccessNotVerified);
              Setup.Log Setup.MsgSetupComplete])
        | Some _ =>
            (Returned tt,
             Setup.write fs np (trimEnd content ++ Setup.newConfig token),
             [Setup.WriteFile np (trimEnd content ++ Setup.newConfig token) true;
              Setup.Log (Setup.MsgConfigWritten np);
              Setup.ReadFile (Setup.gitignorePath env);
              Setup.WriteFile (Setup.gitignorePath env)
                (match Setup.write fs np (trimEnd content ++ Setup.newConfig token)
                         (Setup.gitignorePath env) with
                 | Some g => g
                 | None => EmptyString
                 end ++ Setup.gitignoreEntry) false;
              Setup.Log Setup.MsgGitignoreNotUpdated;
              Setup.Log Setup.MsgVerifying; Setup.NpmView;
              Setup.Log (if Setup.npm_view_ok env then Setup.MsgAccessVerified
                         else Setup.MsgAccessNotVerified);
              Setup.Log Setup.MsgSetupComplete])
        end
  end.
Proof.
  destruct options as [tok glob], env as [home dir ta ca oa we nv].
  unfold Setup.writeConfig, Setup.gitignorePath.
  cbv beta iota zeta delta
    [Setup.bind Setup.ret Setup.log Setup.exit Setup.ask Setup.readFileSync
     Setup.writeFileSync Setup.npmView Setup.opt_global Setup.cwd Setup.write_error
     Setup.npm_view_ok negb].
  destruct (we np) as [e|]; [reflexivity|]. cbv beta iota.
  destruct glob; cbv beta iota.
  - destruct nv; reflexivity.
  - set (fs1 := Setup.write fs np (trimEnd _ ++ Setup.newConfig token)).
    destruct (JSText.includes
                match fs1 (path_join dir ".gitignore") with
                | Some g => g
                | None => EmptyString
                end ".npmrc"); cbv beta iota.
    + destruct nv; reflexivity.
    + destruct (we (path_join dir ".gitignore")); cbv beta iota;
        destruct nv; reflexivity.
Qed.

(** The events and the files of a run that gets to the writing part. *)
Lemma setup_goes_ahead `{NodeRuntime}
    (options : Setup.Options) (env : Setup.Env) (fs : Setup.Files) :
  Setup.tokenOf options env <> EmptyString ->
  Setup.goesAhead options env fs = true ->
  exists pre,
    forallb Setup.is_prelude pre = true
    /\ Setup.setupAction options env fs
       = (Setup.result
            (Setup.writeConfig options (Setup.npmrcPath options env)
               (Setup.keptNpmrc options env fs) (Setup.tokenOf options env) env fs),
          Setup.files_after
            (Setup.writeConfig options (Setup.npmrcPath options env)
               (Setup.keptNpmrc options env fs) (Setup.tokenOf options env) env fs),
          (pre ++
           Setup.events
             (Setup.writeConfig options (Setup.npmrcPath options env)
                (Setup.keptNpmrc options env fs) (Setup.tokenOf options env) env fs))
          %list).
Proof.
  intros Htok Hgo. destruct (setup_decompose options env fs) as [pre [Hpre Hrun]].
  exists pre. split; [exact Hpre|]. rewrite Hrun, Hgo.
  destruct (String.eqb_spec (Setup.tokenOf options env) EmptyString);
    [contradiction | reflexivity].
Qed.

Lemma prelude_has_no_write (pre : list Setup.Event) :
  forallb Setup.is_prelude pre = true ->
  existsb Setup.is_write pre = false /\ ~ In Setup.NpmView pre.
Proof.
  induction pre as [|e pre IH]; simpl; [tauto|].
  rewrite andb_true_iff. intros [He Hpre]. destruct (IH Hpre) as [Hw Hn].
  destruct e; simpl in *; try discriminate; (split; [assumption|]);
    intros [Heq | Hin]; try discriminate; contradiction.
Qed.

(** X18 — the files [setup] can change. Whatever the options, the answers
    and the failures, a run of [setupAction] changes no file other than
    the [.npmrc] it targets (in the home directory with [--global], in the
    working directory otherwise) and, without [--global], the
    [.gitignore] of the working directory. *)
Theorem setup_touches_two_files `{NodeRuntime}
    (options : Setup.Options) (env : Setup.Env) (fs : Setup.Files) (p : string) :
  p <> Setup.npmrcPath options env ->
  Setup.opt_global options = true \/ p <> Setup.gitignorePath env ->
  Setup.files_after (Setup.setupAction options env fs) p = fs p.
Proof.
  intros Hnp Hgi. destruct (setup_decompose options env fs) as [pre [_ Hrun]].
  rewrite Hrun. clear Hrun.
  destruct (String.eqb (Setup.tokenOf options env) EmptyString
            || negb (Setup.goesAhead options env fs)); [reflexivity|].
  unfold Setup.files_after at 1. cbv beta iota delta [fst snd].
  rewrite writeConfig_run. unfold Setup.files_after.
  destruct (Setup.write_error env (Setup.npmrcPath options env)); [reflexivity|].
  destruct (Setup.opt_global options).
  - simpl. now apply write_other.
  - destruct Hgi as [Hgi | Hgi]; [discriminate|].
    destruct (JSText.includes _ ".npmrc"); simpl; [now apply write_other|].
    destruct (Setup.write_error env (Setup.gitignorePath env)); simpl;
      rewrite ?write_other by assumption; reflexivity.
Qed.

Lemma setup_touches_two_files_witness :
  "/home/dev/.npmrc" <> Setup.npmrcPath (H := SampleRuntime.node)
                          (Setup.mkOptions (Some "ghp_abc") false) SampleRuntime.env
  /\ "/home/dev/.npmrc" <> Setup.gitignorePath (H := SampleRuntime.node) SampleRuntime.env
  /\ Setup.files_after
       (Setup.setupAction (H := SampleRuntime.node)
          (Setup.mkOptions (Some "ghp_abc") false) SampleRuntime.env
          SampleRuntime.no_files) "/home/dev/.npmrc"
     = SampleRuntime.no_files "/home/dev/.npmrc".
Proof.
  split; [vm_compute; discriminate|]. split; [vm_compute; discriminate|].
  apply (setup_touches_two_files (H := SampleRuntime.node)
           (Setup.mkOptions (Some "ghp_abc") false) SampleRuntime.env
           SampleRuntime.no_files "/home/dev/.npmrc").
  - vm_compute; discriminate.
  - right; vm_compute; discriminate.
Defined.

(** A run without a token, or stopped at a confirmation, is its prelude. *)
Lemma setup_stops `{NodeRuntime}
    (options : Setup.Options) (env : Setup.Env) (fs : Setup.Files) :
  Setup.tokenOf options env = EmptyString \/ Setup.goesAhead options env fs = false ->
  Setup.result (Setup.setupAction options env fs) = Returned tt
  /\ Setup.files_after (Setup.setupAction options env fs) = fs
  /\ existsb Setup.is_write (Setup.events (Setup.setupAction options env fs)) = false
  /\ ~ In Setup.NpmView (Setup.events (Setup.setupAction options env fs)).
Proof.
  intros Hstop. destruct (setup_decompose options env fs) as [pre [Hpre Hrun]].
  rewrite Hrun. clear Hrun.
  assert (Hcond : String.eqb (Setup.tokenOf options env) EmptyString
                  || negb (Setup.goesAhead options env fs) = true).
  { destruct Hstop as [-> | ->]; [reflexivity | apply orb_true_r]. }
  rewrite Hcond. unfold Setup.result, Setup.files_after, Setup.events. simpl.
  destruct (prelude_has_no_write pre Hpre). auto.
Qed.

(** X19 — a setup that does not go ahead writes nothing. When there is no
    token (none given and an empty answer at the prompt), or one of the
    two confirmations is not answered with a yes (an ill-formed token; an
    [.npmrc] that already has the registry), [setupAction] returns
    normally, has attempted no write and has not run [npm view]: all files
    are as before. *)
Theorem setup_declined `{NodeRuntime}
    (options : Setup.Options) (env : Setup.Env) (fs : Setup.Files) :
  Setup.tokenOf options env = EmptyString \/ Setup.goesAhead options env fs = false ->
  Setup.result (Setup.setupAction options env fs) = Returned tt
  /\ Setup.files_after (Setup.setupAction options env fs) = fs
  /\ existsb Setup.is_write (Setup.events (Setup.setupAction options env fs)) = false
  /\ ~ In Setup.NpmView (Setup.events (Setup.setupAction options env fs)).
Proof. apply setup_stops. Qed.

(** Enter at the token prompt. *)
Lemma setup_declined_witness :
  Setup.tokenOf (H := SampleRuntime.node) (Setup.mkOptions None false) SampleRuntime.env
  = EmptyString
  /\ Setup.files_after
       (Setup.setupAction (H := SampleRuntime.node) (Setup.mkOptions None false)
          SampleRuntime.env SampleRuntime.no_files)
     = SampleRuntime.no_files.
Proof.
  split; [reflexivity|].
  apply (setup_declined (H := SampleRuntime.node) (Setup.mkOptions None false)
           SampleRuntime.env SampleRuntime.no_files).
  left; reflexivity.
Defined.

(** X20 — when [.npmrc] cannot be written. If writing the targeted
    [.npmrc] fails, no file is changed by the run, no write succeeds and
    [npm view] is not run; a run that had got as far as the write reports
    the failure and exits with status 1. *)
Theorem setup_write_failure `{NodeRuntime}
    (options : Setup.Options) (env : Setup.Env) (fs : Setup.Files) (e : string) :
  Setup.write_error env (Setup.npmrcPath options env) = Some e ->
  Setup.files_after (Setup.setupAction options env fs) = fs
  /\ ~ In Setup.NpmView (Setup.events (Setup.setupAction options env fs))
  /\ (forall path content,
        ~ In (Setup.WriteFile path content true)
             (Setup.events (Setup.setupAction options env fs)))
  /\ (Setup.tokenOf options env <> EmptyString ->
      Setup.goesAhead options env fs = true ->
      Setup.result (Setup.setupAction options env fs) = Exited 1
      /\ In (Setup.Log (Setup.MsgWriteFailed (Setup.npmrcPath options env) e))
            (Setup.events (Setup.setupAction options env fs))).
Proof.
  intros Hfail. destruct (setup_decompose options env fs) as [pre [Hpre Hrun]].
  destruct (prelude_has_no_write pre Hpre) as [Hnw Hnv].
  assert (Hnowrite : forall path content, ~ In (Setup.WriteFile path content true) pre).
  { intros path content Hin.
    assert (Hex : existsb Setup.is_write pre = true)
      by (apply existsb_exists; eexists; split; [exact Hin | reflexivity]).
    congruence. }
  rewrite Hrun. clear Hrun. rewrite writeConfig_run, Hfail.
  unfold Setup.result, Setup.files_after, Setup.events.
  cbv beta iota delta [fst snd].
  destruct (String.eqb_spec (Setup.tokenOf options env) EmptyString) as [Hempty | Hne].
  - simpl. split; [reflexivity|]. split; [exact Hnv|]. split; [exact Hnowrite|].
    intros Hne. contradiction.
  - destruct (Setup.goesAhead options env fs); simpl.
    + split; [reflexivity|]. split; [|split].
      * intros Hin. apply in_app_or in Hin.
        destruct Hin as [Hin | [Hin | [Hin | []]]]; [auto | discriminate..].
      * intros path content Hin. apply in_app_or in Hin.
        destruct Hin as [Hin | [Hin | [Hin | []]]];
          [now apply (Hnowrite path content) | discriminate..].
      * intros _ _. split; [reflexivity|]. apply in_or_app. right. simpl. auto.
    + split; [reflexivity|]. split; [exact Hnv|]. split; [exact Hnowrite|].
      intros _ Hgo. discriminate.
Qed.

Lemma setup_write_failure_witness :
  Setup.write_error
    {| Setup.homedir := "/home/dev"; Setup.cwd := "/work/app";
       Setup.token_answer := EmptyString; Setup.continue_answer := EmptyString;
       Setup.overwrite_answer := EmptyString;
       Setup.write_error := fun _ => Some "EACCES";
       Setup.npm_view_ok := true |}
    (Setup.npmrcPath (H := SampleRuntime.node) (Setup.mkOptions (Some "ghp_abc") false)
       {| Setup.homedir := "/home/dev"; Setup.cwd := "/work/app";
          Setup.token_answer := EmptyString; Setup.continue_answer := EmptyString;
          Setup.overwrite_answer := EmptyString;
          Setup.write_error := fun _ => Some "EACCES";
          Setup.npm_view_ok := true |})
  = Some "EACCES"
  /\ Setup.result
       (Setup.setupAction (H := SampleRuntime.node)
          (Setup.mkOptions (Some "ghp_abc") false)
          {| Setup.homedir := "/home/dev"; Setup.cwd := "/work/app";
             Setup.token_answer := EmptyString; Setup.continue_answer := EmptyString;
             Setup.overwrite_answer := EmptyString;
             Setup.write_error := fun _ => Some "EACCES";
             Setup.npm_view_ok := true |}
          SampleRuntime.no_files)
     = Exited 1.
Proof.
  split; [reflexivity|].
  apply (setup_write_failure (H := SampleRuntime.node)
           (Setup.mkOptions (Some "ghp_abc") false)
           {| Setup.homedir := "/home/dev"; Setup.cwd := "/work/app";
              Setup.token_answer := EmptyString; Setup.continue_answer := EmptyString;
              Setup.overwrite_answer := EmptyString;
              Setup.write_error := fun _ => Some "EACCES";
              Setup.npm_view_ok := true |}
           SampleRuntime.no_files "EACCES" eq_refl).
  - discriminate.
  - reflexivity.
Defined.

Lemma includes_prefix (s x : string) :
  String.prefix x s = true -> JSText.includes s x = true.
Proof.
  intros Hp. destruct s; cbn [JSText.includes]; now rewrite Hp.
Qed.

Lemma includes_app (a x b : string) : JSText.includes (a ++ x ++ b) x = true.
Proof.
  induction a as [|c a IH].
  - apply includes_prefix. apply (startsWith_iff (x ++ b) x). now exists b.
  - change (String c a ++ x ++ b) with (String c (a ++ x ++ b)).
    cbn [JSText.includes]. rewrite IH. apply orb_true_r.
Qed.

(** The [.npmrc] of a run that gets to the writing part and whose write
    succeeds. *)
Lemma setup_npmrc_content `{NodeRuntime}
    (options : Setup.Options) (env : Setup.Env) (fs : Setup.Files) :
  Setup.tokenOf options env <> EmptyString ->
  Setup.goesAhead options env fs = true ->
  Setup.write_error env (Setup.npmrcPath options env) = None ->
  Setup.opt_global options = true
  \/ Setup.gitignorePath env <> Setup.npmrcPath options env ->
  Setup.result (Setup.setupAction options env fs) = Returned tt
  /\ Setup.files_after (Setup.setupAction options env fs)
       (Setup.npmrcPath options env)
     = Some (trimEnd (Setup.keptNpmrc options env fs)
             ++ Setup.newConfig (Setup.tokenOf options env)).
Proof.
  intros Htok Hgo Hwrite Hpaths.
  destruct (setup_goes_ahead options env fs Htok Hgo) as [pre [_ Hrun]].
  rewrite Hrun. clear Hrun. rewrite writeConfig_run, Hwrite.
  unfold Setup.result, Setup.files_after. cbv beta iota delta [fst snd].
  destruct (Setup.opt_global options) eqn:Hglob.
  - simpl. split; [reflexivity|]. now rewrite write_same.
  - destruct Hpaths as [Hp | Hp]; [discriminate|].
    destruct (JSText.includes _ ".npmrc"); simpl.
    + split; [reflexivity|]. now rewrite write_same.
    + destruct (Setup.write_error env (Setup.gitignorePath env)); simpl.
      * split; [reflexivity|]. now rewrite write_same.
      * split; [reflexivity|].
        rewrite write_other by (intros Heq; apply Hp; now symmetry).
        now rewrite write_same.
Qed.

(** X21 — what a completed setup leaves in [.npmrc]. When there is a
    token, the confirmations are passed and the write succeeds, the
    command returns normally and the targeted [.npmrc] is the kept part
    of the old content (all of it, or, after an accepted overwrite, the
    lines that mention neither the scope nor the token entry), trimmed at
    its end, followed by the new block: the file ends with the token
    entry, holding the token as typed, and mentions the registry. *)
Theorem setup_writes_config `{NodeRuntime}
    (options : Setup.Options) (env : Setup.Env) (fs : Setup.Files) :
  Setup.tokenOf options env <> EmptyString ->
  Setup.goesAhead options env fs = true ->
  Setup.write_error env (Setup.npmrcPath options env) = None ->
  Setup.opt_global options = true
  \/ Setup.gitignorePath env <> Setup.npmrcPath options env ->
  Setup.result (Setup.setupAction options env fs) = Returned tt
  /\ (exists content,
        Setup.files_after (Setup.setupAction options env fs)
          (Setup.npmrcPath options env) = Some content
        /\ content = trimEnd (Setup.keptNpmrc options env fs)
                     ++ Setup.newConfig (Setup.tokenOf options env)
        /\ JS.endsWith content
             (Setup.tokenConfig ++ Setup.tokenOf options env ++ LF) = true
        /\ JSText.includes content "@aios:registry" = true).
Proof.
  intros Htok Hgo Hwrite Hpaths.
  destruct (setup_npmrc_content options env fs Htok Hgo Hwrite Hpaths)
    as [Hres Hfile].
  split; [exact Hres|]. eexists. split; [exact Hfile|].
  split; [reflexivity|]. split.
  - apply endsWith_iff.
    exists (trimEnd (Setup.keptNpmrc options env fs)
            ++ LF ++ Setup.marker ++ LF ++ Setup.scopeConfig ++ LF).
    rewrite !app_assoc_string. reflexivity.
  - replace (Setup.newConfig (Setup.tokenOf options env))
      with ((LF ++ Setup.marker ++ LF)
            ++ "@aios:registry"
            ++ ("=https://npm.pkg.github.com" ++ LF ++ Setup.tokenConfig
                ++ Setup.tokenOf options env ++ LF))
      by reflexivity.
    rewrite <- app_assoc_string. apply includes_app.
Qed.

Lemma setup_writes_config_witness :
  Setup.tokenOf (H := SampleRuntime.node) (Setup.mkOptions (Some "ghp_abc") true)
    SampleRuntime.env <> EmptyString
  /\ Setup.files_after
       (Setup.setupAction (H := SampleRuntime.node)
          (Setup.mkOptions (Some "ghp_abc") true) SampleRuntime.env
          SampleRuntime.no_files) "/home/dev/.npmrc"
     <> None.
Proof.
  split; [discriminate|].
  destruct (proj2 (setup_writes_config (H := SampleRuntime.node)
                     (Setup.mkOptions (Some "ghp_abc") true) SampleRuntime.env
                     SampleRuntime.no_files
                     ltac:(discriminate) eq_refl eq_refl (or_introl eq_refl)))
    as [content [Hfile _]].
  change (Setup.npmrcPath (H := SampleRuntime.node)
            (Setup.mkOptions (Some "ghp_abc") true) SampleRuntime.env)
    with "/home/dev/.npmrc" in Hfile.
  rewrite Hfile. discriminate.
Defined.

(** X22 — [.gitignore]. In a completed project-level setup (no
    [--global]) whose [.npmrc] is not the [.gitignore] itself: a
    [.gitignore] that already mentions [.npmrc] is left as it is;
    otherwise the entry is appended to its content (to nothing, when there
    was no readable file), after which it mentions [.npmrc]; and when that
    write fails the file is unchanged and the setup still completes. *)
Theorem setup_gitignore `{NodeRuntime}
    (options : Setup.Options) (env : Setup.Env) (fs : Setup.Files) :
  Setup.opt_global options = false ->
  Setup.tokenOf options env <> EmptyString ->
  Setup.goesAhead options env fs = true ->
  Setup.write_error env (Setup.npmrcPath options env) = None ->
  Setup.gitignorePath env <> Setup.npmrcPath options env ->
  Setup.result (Setup.setupAction options env fs) = Returned tt
  /\ (JSText.includes match fs (Setup.gitignorePath env) with
                      | Some g => g
                      | None => EmptyString
                      end ".npmrc" = true ->
      Setup.files_after (Setup.setupAction options env fs) (Setup.gitignorePath env)
      = fs (Setup.gitignorePath env))
  /\ (JSText.includes match fs (Setup.gitignorePath env) with
                      | Some g => g
                      | None => EmptyString
                      end ".npmrc" = false ->
      (Setup.write_error env (Setup.gitignorePath env) = None ->
       Setup.files_after (Setup.setupAction options env fs) (Setup.gitignorePath env)
       = Some (match fs (Setup.gitignorePath env) with
               | Some g => g
               | None => EmptyString
               end ++ Setup.gitignoreEntry)
       /\ JSText.includes
            (match fs (Setup.gitignorePath env) with
             | Some g => g
             | None => EmptyString
             end ++ Setup.gitignoreEntry) ".npmrc" = true)
      /\ (Setup.write_error env (Setup.gitignorePath env) <> None ->
          Setup.files_after (Setup.setupAction options env fs)
            (Setup.gitignorePath env)
          = fs (Setup.gitignorePath env))).
Proof.
  intros Hglob Htok Hgo Hwrite Hp.
  destruct (setup_goes_ahead options env fs Htok Hgo) as [pre [_ Hrun]].
  rewrite Hrun. clear Hrun. rewrite writeConfig_run, Hwrite, Hglob.
  unfold Setup.result, Setup.files_after. cbv beta iota delta [fst snd].
  rewrite (write_other fs _ _ _ Hp).
  set (g := match fs (Setup.gitignorePath env) with
            | Some g => g
            | None => EmptyString
            end).
  destruct (JSText.includes g ".npmrc") eqn:Hinc.
  - simpl. split; [reflexivity|]. split.
    + intros _. now apply write_other.
    + intros Hfalse. discriminate.
  - destruct (Setup.write_error env (Setup.gitignorePath env)) eqn:Hgw; simpl.
    + split; [reflexivity|]. split; [discriminate|]. intros _. split.
      * intros Hnone. discriminate.
      * intros _. now apply write_other.
    + split; [reflexivity|]. split; [discriminate|]. intros _. split.
      * intros _. split; [apply write_same|].
        unfold Setup.gitignoreEntry.
        replace (g ++ LF ++ "# AIOS Pro credentials (DO NOT COMMIT)" ++ LF
                 ++ ".npmrc" ++ LF)
          with ((g ++ LF ++ "# AIOS Pro credentials (DO NOT COMMIT)" ++ LF)
                ++ ".npmrc" ++ LF)
          by (rewrite !app_assoc_string; reflexivity).
        apply includes_app.
      * intros Hne. now destruct Hne.
Qed.

Lemma setup_gitignore_witness :
  Setup.opt_global (Setup.mkOptions (Some "ghp_abc") false) = false
  /\ Setup.files_after
       (Setup.setupAction (H := SampleRuntime.node)
          (Setup.mkOptions (Some "ghp_abc") false) SampleRuntime.env
          SampleRuntime.no_files) "/work/app/.gitignore"
     = Some Setup.gitignoreEntry.
Proof.
  split; [reflexivity|].
  apply (proj1 (proj1 (proj2 (proj2
           (setup_gitignore (H := SampleRuntime.node)
              (Setup.mkOptions (Some "ghp_abc") false) SampleRuntime.env
              SampleRuntime.no_files eq_refl ltac:(discriminate) eq_refl eq_refl
              ltac:(vm_compute; discriminate))) eq_refl) eq_refl)).
Defined.

(** ** Lines *)

Lemma split_lines_not_nil (s : string) : JSText.split_lines s <> [].
Proof.
  induction s as [|c s IH]; simpl; [discriminate|].
  destruct (Ascii.eqb c (ascii_of_nat 10)); [discriminate|].
  destruct (JSText.split_lines s); discriminate.
Qed.

Lemma join_lines_cons (x y : string) (ls : list string) :
  JSText.join_lines (x :: y :: ls) = x ++ LF ++ JSText.join_lines (y :: ls).
Proof. reflexivity. Qed.

(** Splitting into lines and joining them again gives the text back. *)
Lemma join_split_lines (s : string) : JSText.join_lines (JSText.split_lines s) = s.
Proof.
  induction s as [|c s IH]; [reflexivity|]. simpl.
  pose proof (split_lines_not_nil s) as Hnn.
  destruct (Ascii.eqb_spec c (ascii_of_nat 10)) as [-> | Hc].
  - destruct (JSText.split_lines s) as [|l ls]; [contradiction|].
    rewrite join_lines_cons, IH. reflexivity.
  - destruct (JSText.split_lines s) as [|l ls]; [contradiction|].
    destruct ls as [|l' ls].
    + unfold JSText.join_lines in *. simpl in *. now rewrite IH.
    + rewrite join_lines_cons in *.
      change (String c l ++ LF ++ JSText.join_lines (l' :: ls))
        with (String c (l ++ LF ++ JSText.join_lines (l' :: ls))).
      now rewrite IH.
Qed.

Lemma split_lines_single (s : string) :
  forallb JSText.single_line (JSText.split_lines s) = true.
Proof.
  induction s as [|c s IH]; [reflexivity|]. simpl.
  destruct (Ascii.eqb c (ascii_of_nat 10)) eqn:Hc; [exact IH|].
  destruct (JSText.split_lines s) as [|l ls]; simpl in *; [now rewrite Hc|].
  now rewrite Hc.
Qed.

Lemma split_single_line (x : string) :
  JSText.single_line x = true -> JSText.split_lines x = [x].
Proof.
  induction x as [|c x IH]; [reflexivity|]. simpl.
  destruct (Ascii.eqb c (ascii_of_nat 10)); simpl; [discriminate|].
  intros Hx. now rewrite (IH Hx).
Qed.

Lemma split_line_app (x r : string) :
  JSText.single_line x = true ->
  JSText.split_lines (x ++ LF ++ r) = x :: JSText.split_lines r.
Proof.
  induction x as [|c x IH]; [reflexivity|]. simpl.
  destruct (Ascii.eqb c (ascii_of_nat 10)); simpl; [discriminate|].
  intros Hx. simpl in IH. now rewrite (IH Hx).
Qed.

(** Joining lines and splitting the text again gives the lines back. *)
Lemma split_join_lines (ls : list string) :
  ls <> [] ->
  forallb JSText.single_line ls = true ->
  JSText.split_lines (JSText.join_lines ls) = ls.
Proof.
  induction ls as [|x ls IH]; [congruence|]. intros _ Hall.
  simpl in Hall. apply andb_true_iff in Hall. destruct Hall as [Hx Hls].
  destruct ls as [|y ls].
  - now apply split_single_line.
  - rewrite join_lines_cons, (split_line_app _ _ Hx), IH; [reflexivity | discriminate
                                                          | assumption].
Qed.

Lemma forallb_filter {A} (f g : A -> bool) (l : list A) :
  forallb f l = true -> forallb f (filter g l) = true.
Proof.
  induction l as [|a l IH]; [reflexivity|]. simpl.
  rewrite andb_true_iff. intros [Ha Hl].
  destruct (g a); simpl; [rewrite Ha|]; auto.
Qed.

Lemma filter_all {A} (f : A -> bool) (l : list A) :
  forallb f l = true -> filter f l = l.
Proof.
  induction l as [|a l IH]; [reflexivity|]. simpl.
  rewrite andb_true_iff. intros [Ha Hl]. now rewrite Ha, (IH Hl).
Qed.

(** X23 — the lines an overwrite removes. The filter of the overwrite
    keeps, in their order, exactly the lines of the old [.npmrc] that
    mention neither [@aios:] nor the token entry (an empty text if none is
    left); so no line of its result mentions them, a text without such
    lines comes out unchanged, and filtering twice is filtering once. *)
Theorem overwrite_removes_lines (npmrcContent : string) :
  JSText.split_lines (Setup.removeAiosLines npmrcContent)
  = match filter Setup.keeps (JSText.split_lines npmrcContent) with
    | [] => [EmptyString]
    | kept => kept
    end
  /\ forallb Setup.keeps (JSText.split_lines (Setup.removeAiosLines npmrcContent))
     = true
  /\ (forallb Setup.keeps (JSText.split_lines npmrcContent) = true ->
      Setup.removeAiosLines npmrcContent = npmrcContent)
  /\ Setup.removeAiosLines (Setup.removeAiosLines npmrcContent)
     = Setup.removeAiosLines npmrcContent.
Proof.
  assert (Hlines :
    JSText.split_lines (Setup.removeAiosLines npmrcContent)
    = match filter Setup.keeps (JSText.split_lines npmrcContent) with
      | [] => [EmptyString]
      | kept => kept
      end).
  { unfold Setup.removeAiosLines.
    pose proof (forallb_filter JSText.single_line Setup.keeps _
                  (split_lines_single npmrcContent)) as Hsingle.
    destruct (filter Setup.keeps (JSText.split_lines npmrcContent)) as [|l ls] eqn:Hf;
      [reflexivity|].
    apply split_join_lines; [discriminate | exact Hsingle]. }
  assert (Hkept :
    forallb Setup.keeps (JSText.split_lines (Setup.removeAiosLines npmrcContent))
    = true).
  { rewrite Hlines.
    destruct (filter Setup.keeps (JSText.split_lines npmrcContent)) as [|l ls] eqn:Hf;
      [reflexivity|].
    rewrite <- Hf. apply forallb_forall. intros x Hx.
    now apply filter_In in Hx. }
  assert (Hsame : forall s,
            forallb Setup.keeps (JSText.split_lines s) = true ->
            Setup.removeAiosLines s = s).
  { intros s Hall. unfold Setup.removeAiosLines.
    rewrite (filter_all _ _ Hall). apply join_split_lines. }
  split; [exact Hlines|]. split; [exact Hkept|]. split; [apply Hsame|].
  now apply Hsame.
Qed.

Lemma split_lines_app (a b : string) :
  JSText.split_lines (a ++ LF ++ b)
  = (JSText.split_lines a ++ JSText.split_lines b)%list.
Proof.
  induction a as [|c a IH]; [reflexivity|].
  change (String c a ++ LF ++ b) with (String c (a ++ LF ++ b)).
  cbn [JSText.split_lines]. rewrite IH.
  destruct (Ascii.eqb c (ascii_of_nat 10)); [reflexivity|].
  pose proof (split_lines_not_nil a) as Hnn.
  destruct (JSText.split_lines a) as [|l ls]; [contradiction | reflexivity].
Qed.

Lemma single_line_app (a b : string) :
  JSText.single_line (a ++ b) = JSText.single_line a && JSText.single_line b.
Proof.
  induction a as [|c a IH]; [reflexivity|]. simpl. rewrite IH.
  now rewrite andb_assoc.
Qed.

Lemma join_lines_snoc (ls : list string) (x : string) :
  ls <> [] ->
  JSText.join_lines (ls ++ [x]) = JSText.join_lines ls ++ LF ++ x.
Proof.
  induction ls as [|y ls IH]; [congruence|]. intros _.
  destruct ls as [|z ls]; [reflexivity|].
  change ((y :: z :: ls) ++ [x])%list with (y :: (z :: ls) ++ [x])%list.
  change ((z :: ls) ++ [x])%list with (z :: (ls ++ [x]))%list in *.
  rewrite join_lines_cons, IH by discriminate.
  rewrite (join_lines_cons y z ls), !app_assoc_string. reflexivity.
Qed.

Lemma count_filter_keeps (ls : list string) :
  List.length (filter (String.eqb Setup.marker) (filter Setup.keeps ls))
  = List.length (filter (String.eqb Setup.marker) ls).
Proof.
  induction ls as [|l ls IH]; [reflexivity|]. cbn [filter].
  destruct (Setup.keeps l) eqn:Hk; cbn [filter];
    destruct (String.eqb Setup.marker l) eqn:He; cbn [List.length];
    rewrite ?IH; try reflexivity.
  apply String.eqb_eq in He. subst l. vm_compute in Hk. discriminate.
Qed.

Lemma newConfig_lines (token : string) :
  JSText.single_line token = true ->
  Setup.newConfig token
  = LF ++ Setup.marker ++ LF ++ Setup.scopeConfig ++ LF
    ++ (Setup.tokenConfig ++ token) ++ LF
  /\ JSText.split_lines
       (Setup.marker ++ LF ++ Setup.scopeConfig ++ LF
        ++ (Setup.tokenConfig ++ token) ++ LF)
     = [Setup.marker; Setup.scopeConfig; Setup.tokenConfig ++ token; EmptyString].
Proof.
  intros Htok. split; [reflexivity|].
  rewrite (split_line_app Setup.marker) by reflexivity.
  rewrite (split_line_app Setup.scopeConfig) by reflexivity.
  change ((Setup.tokenConfig ++ token) ++ LF)
    with ((Setup.tokenConfig ++ token) ++ LF ++ EmptyString).
  rewrite (split_line_app (Setup.tokenConfig ++ token));
    [reflexivity | now rewrite single_line_app, Htok].
Qed.

(** The overwrite on a file that ends with the block of an earlier setup:
    the comment line of that block stays, and a new one is added. *)
Lemma overwrite_adds_marker `{NodeRuntime} (h old_token token : string) :
  (forall s, trimEnd (s ++ ")" ++ LF) = s ++ ")") ->
  JSText.single_line old_token = true ->
  JSText.single_line token = true ->
  Setup.count_markers
    (trimEnd (Setup.removeAiosLines (h ++ Setup.newConfig old_token))
     ++ Setup.newConfig token)
  = S (Setup.count_markers (h ++ Setup.newConfig old_token)).
Proof.
  intros Htrim Hold Hnew.
  destruct (newConfig_lines old_token Hold) as [Hcfg_old Hlines_old].
  destruct (newConfig_lines token Hnew) as [Hcfg_new Hlines_new].
  assert (Hold_lines :
    JSText.split_lines (h ++ Setup.newConfig old_token)
    = (JSText.split_lines h
       ++ [Setup.marker; Setup.scopeConfig;
           (Setup.tokenConfig ++ old_token)%string; EmptyString])%list).
  { rewrite Hcfg_old, split_lines_app, Hlines_old. reflexivity. }
  assert (Htokline : Setup.keeps (Setup.tokenConfig ++ old_token) = false).
  { unfold Setup.keeps.
    replace (Setup.tokenConfig ++ old_token)
      with ("//" ++ "npm.pkg.github.com/:_authToken" ++ ("=" ++ old_token))
      by reflexivity.
    rewrite (includes_app "//" "npm.pkg.github.com/:_authToken"). apply andb_false_r. }
  set (F := filter Setup.keeps (JSText.split_lines h)).
  assert (Hkept :
    Setup.removeAiosLines (h ++ Setup.newConfig old_token)
    = JSText.join_lines (F ++ [Setup.marker]) ++ LF).
  { unfold Setup.removeAiosLines. rewrite Hold_lines, filter_app. fold F.
    cbn [filter]. rewrite Htokline.
    change (Setup.keeps Setup.marker) with true.
    change (Setup.keeps Setup.scopeConfig) with false.
    change (Setup.keeps EmptyString) with true. cbv iota.
    change [Setup.marker; EmptyString] with ([Setup.marker] ++ [EmptyString])%list.
    rewrite List.app_assoc, join_lines_snoc by (destruct F; discriminate).
    reflexivity. }
  assert (Hsingle : forallb JSText.single_line (F ++ [Setup.marker]) = true).
  { rewrite forallb_app. unfold F.
    rewrite (forallb_filter _ _ _ (split_lines_single h)). reflexivity. }
  assert (Hends : exists s, JSText.join_lines (F ++ [Setup.marker]) = s ++ ")").
  { destruct F as [|l ls] eqn:HF.
    - exists "# AIOS Pro - GitHub Packages (added by aios pro setup". reflexivity.
    - rewrite join_lines_snoc by discriminate.
      exists (JSText.join_lines (l :: ls) ++ LF
              ++ "# AIOS Pro - GitHub Packages (added by aios pro setup").
      rewrite !app_assoc_string. reflexivity. }
  destruct Hends as [s Hs].
  rewrite Hkept, Hs.
  replace ((s ++ ")") ++ LF) with (s ++ ")" ++ LF)
    by (now rewrite app_assoc_string).
  rewrite Htrim, <- Hs, Hcfg_new.
  unfold Setup.count_markers.
  rewrite split_lines_app, Hlines_new, Hold_lines.
  rewrite split_join_lines by (try exact Hsingle; destruct F; discriminate).
  rewrite !filter_app, !List.length_app. fold F.
  unfold F. rewrite count_filter_keeps.
  assert (Hne_new : String.eqb Setup.marker (Setup.tokenConfig ++ token) = false)
    by reflexivity.
  assert (Hne_old : String.eqb Setup.marker (Setup.tokenConfig ++ old_token) = false)
    by reflexivity.
  cbn [filter]. rewrite Hne_new, Hne_old.
  change (String.eqb Setup.marker Setup.marker) with true.
  change (String.eqb Setup.marker Setup.scopeConfig) with false.
  change (String.eqb Setup.marker EmptyString) with false.
  cbv iota. simpl List.length. lia.
Qed.

Lemma sample_trimEnd (s : string) :
  SampleRuntime.trimEnd (s ++ ")" ++ LF) = s ++ ")".
Proof.
  induction s as [|c s IH]; [reflexivity|].
  change (String c s ++ ")" ++ LF) with (String c (s ++ ")" ++ LF)).
  cbn [SampleRuntime.trimEnd]. rewrite IH.
  destruct s; reflexivity.
Qed.

(** X24 — a setup run again. When the targeted [.npmrc] ends with the block
    of an earlier setup and the overwrite is accepted, the comment line
    that heads the block is not among the lines removed, so the file the
    new run leaves has one such comment line more than before. The tokens
    hold no line break, and [trimEnd] removes a final line break after a
    closing parenthesis. *)
Theorem setup_rerun_adds_marker `{NodeRuntime}
    (options : Setup.Options) (env : Setup.Env) (fs : Setup.Files)
    (h old_token : string) :
  (forall s, trimEnd (s ++ ")" ++ LF) = s ++ ")") ->
  fs (Setup.npmrcPath options env) = Some (h ++ Setup.newConfig old_token) ->
  JSText.single_line old_token = true ->
  Setup.tokenOf options env <> EmptyString ->
  JSText.single_line (Setup.tokenOf options env) = true ->
  Setup.goesAhead options env fs = true ->
  Setup.write_error env (Setup.npmrcPath options env) = None ->
  Setup.opt_global options = true
  \/ Setup.gitignorePath env <> Setup.npmrcPath options env ->
  exists content,
    Setup.files_after (Setup.setupAction options env fs)
      (Setup.npmrcPath options env) = Some content
    /\ Setup.count_markers content
       = S (Setup.count_markers (h ++ Setup.newConfig old_token)).
Proof.
  intros Htrim Hfile Hold Htok Hnew Hgo Hwrite Hpaths.
  destruct (setup_npmrc_content options env fs Htok Hgo Hwrite Hpaths)
    as [_ Hafter].
  eexists. split; [exact Hafter|].
  assert (Hkept : Setup.keptNpmrc options env fs
                  = Setup.removeAiosLines (h ++ Setup.newConfig old_token)).
  { unfold Setup.keptNpmrc, Setup.currentNpmrc. rewrite Hfile.
    replace (h ++ Setup.newConfig old_token)
      with ((h ++ LF ++ Setup.marker ++ LF)
            ++ "@aios:registry"
            ++ ("=https://npm.pkg.github.com" ++ LF ++ Setup.tokenConfig
                ++ old_token ++ LF))
      by (rewrite !app_assoc_string; reflexivity).
    now rewrite includes_app. }
  rewrite Hkept. now apply overwrite_adds_marker.
Qed.

Lemma setup_rerun_adds_marker_witness :
  Setup.count_markers (Setup.newConfig "ghp_old") = 1%nat
  /\ exists content,
       Setup.files_after
         (Setup.setupAction (H := SampleRuntime.node)
            (Setup.mkOptions (Some "ghp_new") true) SampleRuntime.env_overwrite
            SampleRuntime.configured) "/home/dev/.npmrc" = Some content
       /\ Setup.count_markers content = 2%nat.
Proof.
  split; [reflexivity|].
  apply (setup_rerun_adds_marker (H := SampleRuntime.node)
           (Setup.mkOptions (Some "ghp_new") true) SampleRuntime.env_overwrite
           SampleRuntime.configured EmptyString "ghp_old").
  - exact sample_trimEnd.
  - reflexivity.
  - reflexivity.
  - discriminate.
  - reflexivity.
  - vm_compute. reflexivity.
  - reflexivity.
  - left. reflexivity.
Defined.
